(** * ai-newsletter: the content pipeline of [utils/content_filter.py] and
    the orchestration of [newsletter.py], embedded in Rocq.

    Python values are modelled as the code uses them:
    - [str] as [string]; the text operations ([lower], [strip], [split],
      [replace], [in], the [\s+] substitution) are given for the ASCII range,
      characters above it being caseless and not white space;
    - [int] as [Z];
    - [float] as IEEE 754 binary64, through [spec_float] of the standard
      library, with round-to-nearest-even as CPython computes;
    - [datetime] as a number of microseconds on the time line;
    - exceptions as the [Raise] case of [result];
    - item dictionaries as records living in a heap, lists of items being
      lists of references, so that the in-place updates of the filter and of
      the ranker are seen through every list that shares the item. *)

From Stdlib Require Import ZArith List Ascii String Bool Lia Sorted.
From Stdlib Require Import Floats.SpecFloat.
From stdpp Require Import base functions gmap strings list.

Open Scope string_scope.
Open Scope Z_scope.

(** ** Exceptions *)

Inductive exn : Set :=
  | ValueError
  | TypeError
  | OverflowError
  | KeyError
  | ZeroDivisionError
  | DeliveryError.

Inductive result (A : Type) : Type :=
  | Ok (a : A)
  | Raise (e : exn).

Arguments Ok {A} a.
Arguments Raise {A} e.

#[global] Instance result_ret : MRet result := fun A a => Ok a.

#[global] Instance result_bind : MBind result := fun A B k r =>
  match r with
  | Ok a => k a
  | Raise e => Raise e
  end.

(** [try: r except (ValueError, TypeError): return d]. *)
Definition except_value_type {A : Type} (r : result A) (d : A) : result A :=
  match r with
  | Raise ValueError => Ok d
  | Raise TypeError => Ok d
  | other => other
  end.

(** ** Text *)

Module Str.

(** White space as [str.isspace] has it below 128: tab, line feed, vertical
    tab, form feed, carriage return, the four separators 28..31, space. *)
Definition is_space (c : ascii) : bool :=
  let n := nat_of_ascii c in
  ((9 <=? n)%nat && (n <=? 13)%nat) || ((28 <=? n)%nat && (n <=? 32)%nat).

(** White space as [float] strips it from ASCII text: the separators 28..31
    are not part of it. *)
Definition is_c_space (c : ascii) : bool :=
  let n := nat_of_ascii c in
  ((9 <=? n)%nat && (n <=? 13)%nat) || (n =? 32)%nat.

Definition is_digit (c : ascii) : bool :=
  let n := nat_of_ascii c in (48 <=? n)%nat && (n <=? 57)%nat.

Definition digit_val (c : ascii) : Z := Z.of_nat (nat_of_ascii c) - 48.

Definition lower_char (c : ascii) : ascii :=
  let n := nat_of_ascii c in
  if (65 <=? n)%nat && (n <=? 90)%nat then ascii_of_nat (n + 32) else c.

(** [s.lower()] *)
Fixpoint lower (s : string) : string :=
  match s with
  | EmptyString => EmptyString
  | String c r => String (lower_char c) (lower r)
  end.

(** [s.replace(c, new)] for a pattern [c] of one character. *)
Fixpoint replace (c : ascii) (new : string) (s : string) : string :=
  match s with
  | EmptyString => EmptyString
  | String d r =>
      if Ascii.eqb d c then new ++ replace c new r
      else String d (replace c new r)
  end.

Fixpoint startswith (p s : string) : bool :=
  match p, s with
  | EmptyString, _ => true
  | String a p', String b s' => Ascii.eqb a b && startswith p' s'
  | String _ _, EmptyString => false
  end.

(** [sub in s] *)
Fixpoint contains (sub s : string) : bool :=
  startswith sub s ||
  match s with
  | EmptyString => false
  | String _ r => contains sub r
  end.

(** Drops the characters that [space] holds for at the start. *)
Fixpoint lstrip_with (space : ascii -> bool) (s : string) : string :=
  match s with
  | String c r => if space c then lstrip_with space r else s
  | EmptyString => EmptyString
  end.

(** Drops them at the end: a character is kept when something that is kept
    follows it, or when [space] does not hold for it. *)
Fixpoint rstrip_with (space : ascii -> bool) (s : string) : string :=
  match s with
  | EmptyString => EmptyString
  | String c r =>
      match rstrip_with space r with
      | EmptyString => if space c then EmptyString else String c EmptyString
      | r' => String c r'
      end
  end.

Definition strip_with (space : ascii -> bool) (s : string) : string :=
  rstrip_with space (lstrip_with space s).

(** [s.strip()] *)
Definition strip (s : string) : string := strip_with is_space s.

(** [re.sub(r'\s+', ' ', s)]: every maximal run of white space becomes one
    space. *)
Fixpoint collapse_go (in_run : bool) (s : string) : string :=
  match s with
  | EmptyString => EmptyString
  | String c r =>
      if is_space c then
        if in_run then collapse_go true r else String " " (collapse_go true r)
      else String c (collapse_go false r)
  end.

Definition collapse_ws (s : string) : string := collapse_go false s.

(** [s.split()]: the maximal runs of characters that are not white space.
    [cur] is the word being read, reversed. *)
Fixpoint split_go (cur : string) (s : string) : list string :=
  match s with
  | EmptyString =>
      match cur with
      | EmptyString => []
      | _ => [String.rev cur]
      end
  | String c r =>
      if is_space c then
        match cur with
        | EmptyString => split_go EmptyString r
        | _ => String.rev cur :: split_go EmptyString r
        end
      else split_go (String c cur) r
  end.

Definition split (s : string) : list string := split_go EmptyString s.

End Str.

(** ** Numbers: Python's [float] and its conversions *)

Module F64.

Definition prec : Z := 53.
Definition emax : Z := 1024.

Definition add : spec_float -> spec_float -> spec_float := SFadd prec emax.
Definition ltb : spec_float -> spec_float -> bool := SFltb.
Definition eqb : spec_float -> spec_float -> bool := SFeqb.

Definition zero : spec_float := S754_zero false.
Definition one : spec_float := S754_finite false 4503599627370496 (-52).

(** [z < f] for an [int] and a [float]: Python compares the two values
    exactly, without rounding the integer. *)
Definition int_ltb (z : Z) (f : spec_float) : bool :=
  match f with
  | S754_nan => false
  | S754_infinity s => negb s
  | S754_zero _ => z <? 0
  | S754_finite s m e =>
      if 0 <=? e then z <? cond_Zopp s (Zpos m * 2 ^ e)
      else z * 2 ^ (- e) <? cond_Zopp s (Zpos m)
  end.

(** An integer as an unrounded binary number; only an operand of [SFdiv]. *)
Definition exact (z : Z) : spec_float :=
  match z with
  | Z0 => S754_zero false
  | Zpos p => S754_finite false p 0
  | Zneg p => S754_finite true p 0
  end.

Definition finite_or_overflow (f : spec_float) : result spec_float :=
  match f with
  | S754_infinity _ => Raise OverflowError
  | _ => Ok f
  end.

(** [float(z)] for an [int], as in [x + z] with [x] a float: the nearest
    double, [OverflowError] when there is none. *)
Definition of_int (z : Z) : result spec_float :=
  finite_or_overflow (binary_normalize prec emax z 0 false).

(** [a / b] on two [int]s: the quotient rounded once. *)
Definition truediv (a b : Z) : result spec_float :=
  if b =? 0 then Raise ZeroDivisionError
  else if a =? 0 then Ok (S754_zero (b <? 0))
  else finite_or_overflow (SFdiv prec emax (exact a) (exact b)).

(** [int(f)]: truncation towards zero. *)
Definition to_int (f : spec_float) : result Z :=
  match f with
  | S754_zero _ => Ok 0
  | S754_nan => Raise ValueError
  | S754_infinity _ => Raise OverflowError
  | S754_finite s m e => Ok (cond_Zopp s (Z.shiftl (Zpos m) e))
  end.

(** The double nearest to [(-1)^neg * m * 10^e10], for [0 <= m]. *)
Definition of_decimal (neg : bool) (m e10 : Z) : spec_float :=
  if m <=? 0 then S754_zero neg
  else if 0 <=? e10 then
    binary_normalize prec emax (cond_Zopp neg (m * 10 ^ e10)) 0 false
  else
    SFdiv prec emax (exact (cond_Zopp neg m)) (exact (10 ^ (- e10))).

Fixpoint read_digits (s : string) (acc n : Z) : Z * Z * string :=
  match s with
  | String c r =>
      if Str.is_digit c then read_digits r (10 * acc + Str.digit_val c) (n + 1)
      else (acc, n, s)
  | EmptyString => (acc, n, s)
  end.

Definition read_sign (s : string) : bool * string :=
  match s with
  | String "-" r => (true, r)
  | String "+" r => (false, r)
  | _ => (false, s)
  end.

(** An exponent is read only when it is complete; otherwise nothing is
    consumed and the caller fails on what is left. *)
Definition read_exponent (s : string) : Z * string :=
  match s with
  | String c r =>
      if Ascii.eqb c "e" || Ascii.eqb c "E" then
        let '(neg, r1) := read_sign r in
        let '(v, n, r2) := read_digits r1 0 0 in
        if n =? 0 then (0, s) else (cond_Zopp neg v, r2)
      else (0, s)
  | EmptyString => (0, s)
  end.

(** digits [. digits] [exponent], with a digit on one side of the point at
    least; the result is mantissa and decimal exponent. *)
Definition parse_number (s : string) : option (Z * Z) :=
  let '(ip, n1, r1) := read_digits s 0 0 in
  let '(m, n2, r2) :=
    match r1 with
    | String "." r => read_digits r ip 0
    | _ => (ip, 0, r1)
    end in
  if n1 + n2 =? 0 then None
  else
    let '(e, r3) := read_exponent r2 in
    match r3 with
    | EmptyString => Some (m, e - n2)
    | _ => None
    end.

(** Underscores are accepted between two digits only, and dropped. *)
Fixpoint drop_underscores (prev : ascii) (s : string) : option string :=
  match s with
  | EmptyString => if Ascii.eqb prev "_" then None else Some EmptyString
  | String c r =>
      if Ascii.eqb c "_" then
        if Str.is_digit prev then drop_underscores c r else None
      else if Ascii.eqb prev "_" && negb (Str.is_digit c) then None
      else String c <$> drop_underscores c r
  end.

(** [float(s)] for a [str]. *)
Definition of_str (s : string) : result spec_float :=
  match drop_underscores Ascii.zero (Str.strip_with Str.is_c_space s) with
  | None => Raise ValueError
  | Some u =>
      let '(neg, r) := read_sign u in
      let l := Str.lower r in
      if String.eqb l "inf" || String.eqb l "infinity" then Ok (S754_infinity neg)
      else if String.eqb l "nan" then Ok S754_nan
      else
        match parse_number r with
        | Some (m, e) => Ok (of_decimal neg m e)
        | None => Raise ValueError
        end
  end.

End F64.

(** ** Values of the engagement fields

    Sources report [upvotes], [score], [stars] and [comments] as [int] or as
    text; a JSON payload can also hold [None], a [bool] or a [float].
    [PyObject] stands for a list or a dictionary, on which [int] raises
    [TypeError]. *)

Inductive pyval : Type :=
  | PyNone
  | PyBool (b : bool)
  | PyInt (z : Z)
  | PyFloat (f : spec_float)
  | PyStr (s : string)
  | PyObject.

(** [int(value)] for a value that is not text. *)
Definition int_of (value : pyval) : result Z :=
  match value with
  | PyBool b => Ok (if b then 1 else 0)
  | PyInt z => Ok z
  | PyFloat f => F64.to_int f
  | PyStr s => Raise ValueError
  | PyNone => Raise TypeError
  | PyObject => Raise TypeError
  end.

(** [to_int], the helper nested in [_has_engagement] and, with the same text,
    in [_calculate_score]. *)
Definition to_int (value : pyval) : result Z :=
  match value with
  | PyNone => Ok 0
  | PyStr s =>
      let value := Str.replace "K" "000" (Str.replace "k" "000" (Str.replace "," "" s)) in
      except_value_type (f ← F64.of_str value; F64.to_int f) 0
  | _ => except_value_type (int_of value) 0
  end.

(** ** Items and configuration *)

(** [d.get(key, default)], for a key whose value is [None] when the key is
    absent. *)
Definition get_or {A : Type} (field : option A) (default : A) : A :=
  match field with
  | Some v => v
  | None => default
  end.

(** The keys of an item dictionary that the pipeline reads or writes; a key
    that is absent is [None]. The sources also set [source], [image_url] and
    keys of their own, which the pipeline never looks at. *)
Module Item.

Record t : Type := mk {
  title : option string;
  description : option string;
  url : option string;
  type : option string;
  published_date : option Z;
  upvotes : option pyval;
  score : option pyval;
  stars : option pyval;
  comments : option pyval;
  has_code : option bool;
  untrusted_source : option bool;
  _ranking_score : option spec_float
}.

(** [item['untrusted_source'] = b] *)
Definition set_untrusted_source (b : bool) (i : t) : t :=
  mk (title i) (description i) (url i) (type i) (published_date i)
     (upvotes i) (score i) (stars i) (comments i) (has_code i)
     (Some b) (_ranking_score i).

(** [item['_ranking_score'] = f] *)
Definition set_ranking_score (f : spec_float) (i : t) : t :=
  mk (title i) (description i) (url i) (type i) (published_date i)
     (upvotes i) (score i) (stars i) (comments i) (has_code i)
     (untrusted_source i) (Some f).

End Item.

(** One entry of [config['categories']]. *)
Record category_config : Type := {
  enabled : bool;
  priority : option Z;
  keywords : option (list string)
}.

(** [config['filtering']] *)
Record filtering_config : Type := {
  deduplicate_enabled : bool;
  require_engagement : bool;
  exclude_keywords : option (list string);
  trusted_domains : option (list string)
}.

(** A dictionary with text keys, in insertion order; the keys of a
    dictionary are distinct. *)
Definition dict (V : Type) : Type := list (string * V).

Fixpoint dict_get {V : Type} (d : dict V) (k : string) : option V :=
  match d with
  | [] => None
  | (k', v) :: d' => if String.eqb k' k then Some v else dict_get d' k
  end.

Definition dict_keys {V : Type} (d : dict V) : list string := map fst d.

(** [k in d] *)
Definition dict_has {V : Type} (d : dict V) (k : string) : bool :=
  existsb (String.eqb k) (dict_keys d).

(** ** The heap, the clock and what the run does to the outside

    An item is a dictionary that several lists share: a list of items is a
    list of references into the heap. [datetime.now()] reads a clock that
    gives a new value at each call. Logging is left out. *)

Abbreviation loc := nat.
Abbreviation heap := (loc -> Item.t).

Inductive event : Type :=
  | GenerateEmail (content : dict (list loc))
  | SavePreview (html : string)
  | SendEmail (html : string).

Record world : Type := mkWorld {
  w_heap : heap;
  w_clock : nat -> Z;
  w_ticks : nat;
  w_events : list event
}.

Definition M (A : Type) : Type := world -> result A * world.

#[global] Instance M_ret : MRet M := fun A a w => (Ok a, w).

#[global] Instance M_bind : MBind M := fun A B k m w =>
  match m w with
  | (Ok a, w') => k a w'
  | (Raise e, w') => (Raise e, w')
  end.

Definition lift {A : Type} (r : result A) : M A := fun w => (r, w).

Definition get_heap : M heap := fun w => (Ok (w_heap w), w).

(** Reading the dictionary behind a reference. *)
Definition read (r : loc) : M Item.t := fun w => (Ok (w_heap w r), w).

(** Storing into the dictionary behind a reference. *)
Definition write (r : loc) (i : Item.t) : M unit := fun w =>
  (Ok tt, mkWorld (<[r := i]> (w_heap w)) (w_clock w) (w_ticks w) (w_events w)).

(** [datetime.now()], in microseconds. *)
Definition now : M Z := fun w =>
  (Ok (w_clock w (w_ticks w)),
   mkWorld (w_heap w) (w_clock w) (S (w_ticks w)) (w_events w)).

Definition emit (ev : event) : M unit := fun w =>
  (Ok tt, mkWorld (w_heap w) (w_clock w) (w_ticks w) (w_events w ++ [ev])).

Definition microseconds_per_day : Z := 86400000000.

(** [(a - b).days]: a [timedelta] keeps its seconds and microseconds
    non-negative, so the days are the floor of the quotient. *)
Definition timedelta_days (a b : Z) : Z := (a - b) / microseconds_per_day.

(** [l[:n]] *)
Definition slice_to {A : Type} (n : Z) (l : list A) : list A :=
  if 0 <=? n then take (Z.to_nat n) l
  else take (Z.to_nat (Z.of_nat (length l) + n)) l.

(** [sorted(l, key=key, reverse=True)]: the stable sort into descending key
    order. The list sort of CPython is stable, also with [reverse]; on keys
    that [<] orders totally every stable sort returns the same list, and the
    model is insertion from the right, an element passing only the elements
    whose key is strictly greater. *)
Fixpoint insert_desc {A : Type} (key : A -> spec_float) (x : A) (l : list A)
  : list A :=
  match l with
  | [] => [x]
  | y :: l' =>
      if F64.ltb (key x) (key y) then y :: insert_desc key x l'
      else x :: l
  end.

Definition sorted_reverse {A : Type} (key : A -> spec_float) (l : list A)
  : list A :=
  foldr (insert_desc key) [] l.

(** What [min(x, cap)] returns, and what [score += ...] adds. *)
Inductive number : Type :=
  | Int (z : Z)
  | Float (f : spec_float).

(** [min(x, cap)]: the first argument unless the second is smaller. *)
Definition py_min (x : spec_float) (cap : Z) : number :=
  if F64.int_ltb cap x then Int cap else Float x.

(** [score + n] *)
Definition py_add (score : spec_float) (n : number) : result spec_float :=
  match n with
  | Int z => f ← F64.of_int z; Ok (F64.add score f)
  | Float f => Ok (F64.add score f)
  end.

(** ** [ContentFilter]: the methods that read one item *)

Section ContentFilter.

(** [self.categories] and [self.filtering] *)
Variable categories : dict category_config.
Variable filtering : filtering_config.

(** The [f"{title} {description}"] of [categorize_item] and
    [_should_exclude], both parts in lower case. *)
Definition text_of (item : Item.t) : string :=
  let title := Str.lower (get_or (Item.title item) "") in
  let description := Str.lower (get_or (Item.description item) "") in
  title ++ " " ++ description.

(** The loop of [categorize_item] over [self.categories.items()]. *)
Fixpoint matching_categories (text : string) (cs : dict category_config)
  : list string :=
  match cs with
  | [] => []
  | (category_name, category_config) :: cs' =>
      if negb (enabled category_config) then matching_categories text cs'
      else
        let keywords := map Str.lower (get_or (keywords category_config) []) in
        if existsb (fun keyword => Str.contains keyword text) keywords
        then category_name :: matching_categories text cs'
        else matching_categories text cs'
  end.

Definition categorize_item (item : Item.t) : list string :=
  let categories := matching_categories (text_of item) categories in
  match categories with
  | [] =>
      let item_type := get_or (Item.type item) "" in
      if Str.contains "research" item_type || Str.contains "paper" item_type
      then ["models"]
      else if Str.contains "product" item_type then ["product_launches"]
      else []
  | _ => categories
  end.

(** The loop of [_should_exclude] over the exclude keywords. *)
Fixpoint exclude_loop (text : string) (exclude_keywords : list string) : bool :=
  match exclude_keywords with
  | [] => false
  | keyword :: rest =>
      if Str.contains (Str.lower keyword) text then
        if negb (Str.contains "ai" text)
           && negb (Str.contains "machine learning" text)
        then true
        else exclude_loop text rest
      else exclude_loop text rest
  end.

Definition _should_exclude (item : Item.t) : bool :=
  let exclude_keywords := get_or (exclude_keywords filtering) [] in
  match exclude_keywords with
  | [] => false
  | _ => exclude_loop (text_of item) exclude_keywords
  end.

Definition _has_engagement (item : Item.t) : result bool :=
  upvotes ← to_int (get_or (Item.upvotes item) (PyInt 0));
  score ← to_int (get_or (Item.score item) (PyInt 0));
  stars ← to_int (get_or (Item.stars item) (PyInt 0));
  comments ← to_int (get_or (Item.comments item) (PyInt 0));
  Ok ((0 <? upvotes) || (0 <? score) || (0 <? stars) || (0 <? comments)).

Definition _is_trusted_domain (item : Item.t) : bool :=
  let url := get_or (Item.url item) "" in
  let trusted_domains := get_or (trusted_domains filtering) [] in
  match trusted_domains with
  | [] => true
  | _ => existsb (fun domain => Str.contains domain url) trusted_domains
  end.

(** [set(s.split())] *)
Definition word_set (s : string) : gset string := list_to_set (Str.split s).

Definition _similarity (s1 s2 : string) : result spec_float :=
  let words1 := word_set s1 in
  let words2 := word_set s2 in
  if bool_decide (words1 = ∅) || bool_decide (words2 = ∅) then Ok F64.zero
  else
    let intersection := words1 ∩ words2 in
    let union := words1 ∪ words2 in
    F64.truediv (Z.of_nat (size intersection)) (Z.of_nat (size union)).

(** The literal [0.85]. *)
Definition threshold : spec_float := F64.of_decimal false 85 (-2).

(** The inner loop of [deduplicate] over [seen_titles]. *)
Fixpoint is_duplicate_loop (title : string) (seen_titles : list string)
  : result bool :=
  match seen_titles with
  | [] => Ok false
  | seen_title :: rest =>
      sim ← _similarity title seen_title;
      if F64.ltb threshold sim then Ok true
      else is_duplicate_loop title rest
  end.

Definition normalize_title (item : Item.t) : string :=
  let title := Str.strip (Str.lower (get_or (Item.title item) "")) in
  Str.collapse_ws title.

(** The outer loop of [deduplicate]; the result is [unique_items]. *)
Fixpoint deduplicate_loop (h : heap) (seen_titles : gset string)
  (items : list loc) : result (list loc) :=
  match items with
  | [] => Ok []
  | item :: rest =>
      let title := normalize_title (h item) in
      is_duplicate ← is_duplicate_loop title (elements seen_titles);
      if is_duplicate : bool then deduplicate_loop h seen_titles rest
      else
        unique_items ← deduplicate_loop h ({[title]} ∪ seen_titles) rest;
        Ok (item :: unique_items)
  end.

Definition deduplicate (h : heap) (items : list loc) : result (list loc) :=
  deduplicate_loop h ∅ items.

(** The methods that update items or read the clock *)

Definition _calculate_score (item : Item.t) (category : string)
  : M spec_float :=
  let score := F64.zero in
  let priority :=
    match dict_get categories category with
    | Some category_config => get_or (priority category_config) 5
    | None => 5
    end in
  score ← lift (py_add score (Int ((6 - priority) * 10)));
  score ←
    match Item.published_date item with
    | Some pub_date =>
        t ← now;
        let days_old := timedelta_days t pub_date in
        if days_old =? 0 then lift (py_add score (Int 20))
        else if days_old =? 1 then lift (py_add score (Int 15))
        else if days_old =? 2 then lift (py_add score (Int 10))
        else if days_old =? 3 then lift (py_add score (Int 5))
        else mret score
    | None => mret score
    end;
  upvotes ← lift (to_int (get_or (Item.upvotes item) (PyInt 0)));
  x ← lift (F64.truediv upvotes 10);
  score ← lift (py_add score (py_min x 20));
  score_metric ← lift (to_int (get_or (Item.score item) (PyInt 0)));
  x ← lift (F64.truediv score_metric 10);
  score ← lift (py_add score (py_min x 20));
  stars ← lift (to_int (get_or (Item.stars item) (PyInt 0)));
  x ← lift (F64.truediv stars 100);
  score ← lift (py_add score (py_min x 20));
  comments ← lift (to_int (get_or (Item.comments item) (PyInt 0)));
  x ← lift (F64.truediv comments 5);
  score ← lift (py_add score (py_min x 10));
  score ←
    (if negb (get_or (Item.untrusted_source item) false)
     then lift (py_add score (Int 10)) else mret score);
  let item_type := get_or (Item.type item) "" in
  score ←
    (if Str.contains "research" item_type || Str.contains "paper" item_type
     then lift (py_add score (Int 5)) else mret score);
  score ←
    (if get_or (Item.has_code item) false
     then lift (py_add score (Int 5)) else mret score);
  mret score.

Fixpoint filter_items (items : list loc) (category : string)
  : M (list loc) :=
  match items with
  | [] => mret []
  | r :: rest =>
      item ← read r;
      if _should_exclude item then filter_items rest category
      else
        engaged ←
          (if require_engagement filtering then lift (_has_engagement item)
           else mret true);
        if negb engaged then filter_items rest category
        else
          match get_or (trusted_domains filtering) [] with
          | [] => mret tt
          | _ =>
              if negb (_is_trusted_domain item)
              then write r (Item.set_untrusted_source true item)
              else mret tt
          end;;
          filtered ← filter_items rest category;
          mret (r :: filtered)
  end.

(** The first loop of [rank_items]. *)
Fixpoint score_loop (items : list loc) (category : string) : M unit :=
  match items with
  | [] => mret tt
  | r :: rest =>
      item ← read r;
      score ← _calculate_score item category;
      write r (Item.set_ranking_score score item);;
      score_loop rest category
  end.

(** [x.get('_ranking_score', 0)] *)
Definition ranking_key (h : heap) (r : loc) : spec_float :=
  get_or (Item._ranking_score (h r)) F64.zero.

Definition rank_items (items : list loc) (category : string)
  : M (list loc) :=
  score_loop items category;;
  h ← get_heap;
  mret (sorted_reverse (ranking_key h) items).

End ContentFilter.

(** ** [AINewsletterGenerator] *)

Inductive source : Set :=
  | company_blogs
  | research
  | reddit
  | hackernews
  | producthunt
  | github.

(** The parts of [config.yaml] that the pipeline and the run read. *)
Record config : Type := {
  categories : dict category_config;
  filtering : filtering_config;
  days_to_look_back : Z;
  max_items_per_category : Z;
  source_enabled : source -> bool;
  debug_mode : bool
}.

Section AINewsletterGenerator.

Variable self_config : config.

(** The collaborators outside the pipeline: what the scraper of a source
    returns for a start date (a scraper catches its own failures and
    returns the items it has, which are in the heap), the template
    rendering and the delivery by SMTP, which can both fail. *)
Variable scrape_all : source -> Z -> list loc.
Variable generate : heap -> dict (list loc) -> result string.
Variable smtp_send : string -> result unit.

(** [all_content[category].append(item)] *)
Fixpoint dict_append (all_content : dict (list loc)) (category : string)
  (item : loc) : dict (list loc) :=
  match all_content with
  | [] => []
  | (k, items) :: d' =>
      if String.eqb k category then (k, (items ++ [item])%list) :: d'
      else (k, items) :: dict_append d' category item
  end.

(** The inner loop of [_categorize_content]. *)
Fixpoint append_to_categories (categories : list string) (item : loc)
  (all_content : dict (list loc)) : dict (list loc) :=
  match categories with
  | [] => all_content
  | category :: rest =>
      if dict_has all_content category
      then append_to_categories rest item (dict_append all_content category item)
      else append_to_categories rest item all_content
  end.

Fixpoint _categorize_content (h : heap) (items : list loc)
  (all_content : dict (list loc)) : dict (list loc) :=
  match items with
  | [] => all_content
  | item :: rest =>
      let categories := categorize_item (categories self_config) (h item) in
      _categorize_content h rest (append_to_categories categories item all_content)
  end.

Definition sources_in_order : list source :=
  [company_blogs; research; reddit; hackernews; producthunt; github].

(** The six blocks of [collect_content], one per source. *)
Fixpoint collect_from (h : heap) (start_date : Z) (sources : list source)
  (all_content : dict (list loc)) : dict (list loc) :=
  match sources with
  | [] => all_content
  | src :: rest =>
      if source_enabled self_config src then
        let content := scrape_all src start_date in
        collect_from h start_date rest (_categorize_content h content all_content)
      else collect_from h start_date rest all_content
  end.

Definition empty_content : dict (list loc) :=
  [("models", []); ("creative_applications", []);
   ("productivity_tools", []); ("product_launches", [])].

Definition collect_content : M (dict (list loc)) :=
  let all_content := empty_content in
  let days_back := days_to_look_back self_config in
  t ← now;
  let start_date := t - days_back * microseconds_per_day in
  h ← get_heap;
  mret (collect_from h start_date sources_in_order all_content).

(** [filtered_content[category] = items] *)
Fixpoint dict_set {V : Type} (d : dict V) (k : string) (v : V) : dict V :=
  match d with
  | [] => [(k, v)]
  | (k', v') :: d' =>
      if String.eqb k' k then (k', v) :: d' else (k', v') :: dict_set d' k v
  end.

(** The loop of [filter_and_rank_content] over [all_content.items()]. *)
Fixpoint filter_and_rank_loop (entries : dict (list loc))
  (filtered_content : dict (list loc)) : M (dict (list loc)) :=
  match entries with
  | [] => mret filtered_content
  | (category, items) :: rest =>
      match dict_get (categories self_config) category with
      | None => lift (Raise KeyError)
      | Some category_config =>
          if negb (enabled category_config)
          then filter_and_rank_loop rest filtered_content
          else
            filtered_items ←
              filter_items (filtering self_config) items category;
            filtered_items ←
              (if deduplicate_enabled (filtering self_config)
               then h ← get_heap; lift (deduplicate h filtered_items)
               else mret filtered_items);
            ranked_items ←
              rank_items (categories self_config) filtered_items category;
            let max_items := max_items_per_category self_config in
            filter_and_rank_loop rest
              (dict_set filtered_content category (slice_to max_items ranked_items))
      end
  end.

Definition filter_and_rank_content (all_content : dict (list loc))
  : M (dict (list loc)) :=
  filter_and_rank_loop all_content [].

Definition generate_email (content : dict (list loc)) : M string :=
  emit (GenerateEmail content);;
  h ← get_heap;
  lift (generate h content).

Definition send_email (html_content : string) : M unit :=
  emit (SendEmail html_content);;
  lift (smtp_send html_content).

(** [sum(len(items) for items in filtered_content.values())] *)
Definition total_items (filtered_content : dict (list loc)) : Z :=
  foldr (fun entry acc => Z.of_nat (length (snd entry)) + acc) 0 filtered_content.

(** [run]; the handler at its end logs and raises the exception again. *)
Definition run : M unit :=
  all_content ← collect_content;
  filtered_content ← filter_and_rank_content all_content;
  if total_items filtered_content =? 0 then mret tt
  else
    html_content ← generate_email filtered_content;
    (if debug_mode self_config then emit (SavePreview html_content)
     else mret tt);;
    send_email html_content.

End AINewsletterGenerator.

(** ** [EmailTemplate]

    [generate] chooses the sections of the email and their order; the
    rendering of one section and the page around the sections are its
    collaborators, which read the items and the clock and can raise. *)

(** [sorted(l, key=key)] on integer keys: the stable sort into ascending
    order, an element passing only the elements whose key is strictly
    smaller. *)
Fixpoint insert_asc {A : Type} (key : A -> Z) (x : A) (l : list A) : list A :=
  match l with
  | [] => [x]
  | y :: l' => if key y <? key x then y :: insert_asc key x l' else x :: l
  end.

Definition sorted_by {A : Type} (key : A -> Z) (l : list A) : list A :=
  foldr (insert_asc key) [] l.

(** [sep.join(l)] *)
Fixpoint join (sep : string) (l : list string) : string :=
  match l with
  | [] => ""
  | [s] => s
  | s :: rest => s ++ sep ++ join sep rest
  end.

Definition newline : string := String "010" "".

Section EmailTemplate.

Variable self_config : config.
Variable _generate_section : string -> list loc -> M string.
Variable _wrap_in_template : string -> M string.

(** The keys that [sorted] computes before it sorts: [x[1]['priority']] of
    each element. *)
Fixpoint priority_keys (l : list (string * category_config))
  : result (list (Z * (string * category_config))) :=
  match l with
  | [] => Ok []
  | x :: rest =>
      match priority (snd x) with
      | None => Raise KeyError
      | Some p => keyed ← priority_keys rest; Ok ((p, x) :: keyed)
      end
  end.

(** The enabled categories of the configuration, by priority. *)
Definition sorted_categories : result (list (string * category_config)) :=
  let enabled_categories :=
    List.filter (fun x => enabled (snd x)) (categories self_config) in
  keyed ← priority_keys enabled_categories;
  Ok (map snd (sorted_by fst keyed)).

(** The loop of [generate] over the sorted categories. *)
Fixpoint sections_loop (content : dict (list loc))
  (categories : list (string * category_config)) (sections_html : list string)
  : M (list string) :=
  match categories with
  | [] => mret sections_html
  | (category_name, category_config) :: rest =>
      match get_or (dict_get content category_name) [] with
      | [] => sections_loop content rest sections_html
      | items =>
          section_html ← _generate_section category_name items;
          sections_loop content rest (sections_html ++ [section_html])%list
      end
  end.

Definition generate (content : dict (list loc)) : M string :=
  categories ← lift sorted_categories;
  sections_html ← sections_loop content categories [];
  _wrap_in_template (join newline sections_html).

End EmailTemplate.

(** ** The scrapers

    The end of [scrape_all] of the GitHub and the Product Hunt scraper: the
    items that the requests have returned are gone through once, and the
    first item of each key is kept. [item[key]] raises [KeyError] on an item
    without the key, and the handler of [scrape_all] then returns the empty
    list. *)

Fixpoint unique_loop (key : Item.t -> option string) (h : heap)
  (seen : gset string) (items : list loc) : result (list loc) :=
  match items with
  | [] => Ok []
  | item :: rest =>
      match key (h item) with
      | None => Raise KeyError
      | Some k =>
          if bool_decide (k ∈ seen) then unique_loop key h seen rest
          else
            unique ← unique_loop key h ({[k]} ∪ seen) rest;
            Ok (item :: unique)
      end
  end.

Module GitHubScraper.

(** [scrape_all] from [all_repos] on: the repositories are told apart by
    their URL. *)
Definition unique_repos (h : heap) (all_repos : list loc) : list loc :=
  match unique_loop Item.url h ∅ all_repos with
  | Ok unique_repos => unique_repos
  | Raise _ => []
  end.

End GitHubScraper.

Module ProductHuntScraper.

(** [scrape_all] from [all_products] on: the products are told apart by
    their title. *)
Definition unique_products (h : heap) (all_products : list loc) : list loc :=
  match unique_loop Item.title h ∅ all_products with
  | Ok unique_products => unique_products
  | Raise _ => []
  end.

End ProductHuntScraper.

(** ** Notions used in the statements *)

(** Two doubles that [==] holds for. *)
Definition same_number (a b : spec_float) : Prop :=
  match a, b with
  | S754_zero _, S754_zero _ => True
  | S754_infinity s, S754_infinity s' => s = s'
  | S754_finite s m e, S754_finite s' m' e' => s = s' /\ m = m' /\ e = e'
  | _, _ => False
  end.

Definition is_nan (f : spec_float) : bool :=
  match f with
  | S754_nan => true
  | _ => false
  end.

(** Zero or a finite double: neither an infinity nor NaN. *)
Definition is_finite (f : spec_float) : bool :=
  match f with
  | S754_zero _ | S754_finite _ _ _ => true
  | _ => false
  end.

(** [b] is not above [a]: the order of a list sorted with [reverse=True]. *)
Definition descending {A : Type} (key : A -> spec_float) (a b : A) : Prop :=
  F64.ltb (key a) (key b) = false.

(** Computations that leave a part of the world as it is, whether they
    return or raise. *)
Definition preserves {X A : Type} (part : world -> X) (m : M A) : Prop :=
  forall w, part (snd (m w)) = part w.

(** [r] is in the list that [d] holds under the key [k]. *)
Definition in_bucket (d : dict (list loc)) (k : string) (r : loc) : Prop :=
  exists items, (k, items) ∈ d /\ r ∈ items.

(** What holds of [all_content] all along the collection: its keys are the
    four fixed ones, and an item is under a key that is one of its
    categories. *)
Definition collected (cfg : config) (h : heap) (d : dict (list loc)) : Prop :=
  dict_keys d = dict_keys empty_content
  /\ forall k r, in_bucket d k r -> k ∈ categorize_item (categories cfg) (h r).

(** An enabled category of the configuration one of whose keywords, in lower
    case, occurs in the text of the item. *)
Definition keyword_match (categories : dict category_config) (item : Item.t)
  (c : string) : Prop :=
  exists cfg kws kw,
    (c, cfg) ∈ categories /\ enabled cfg = true
    /\ keywords cfg = Some kws /\ kw ∈ kws
    /\ Str.contains (Str.lower kw) (text_of item) = true.

(** The category that the type of an item stands for when no keyword
    matched. *)
Definition type_fallback (item : Item.t) (c : string) : Prop :=
  let item_type := get_or (Item.type item) "" in
  (c = "models"
   /\ Str.contains "research" item_type || Str.contains "paper" item_type = true)
  \/ (c = "product_launches"
      /\ Str.contains "research" item_type || Str.contains "paper" item_type = false
      /\ Str.contains "product" item_type = true).

(** The two hard checks of [filter_items] on one item: not excluded and, when
    engagement is required, engaged. *)
Definition passes (filtering : filtering_config) (item : Item.t) : result bool :=
  if _should_exclude filtering item then Ok false
  else if require_engagement filtering then _has_engagement item
  else Ok true.

Definition passes_b (filtering : filtering_config) (item : Item.t) : bool :=
  match passes filtering item with
  | Ok true => true
  | _ => false
  end.

(** The items that [filter_items] marks: a list of trusted domains is
    configured and the URL contains none of them. *)
Definition marks_untrusted (filtering : filtering_config) (item : Item.t) : bool :=
  match get_or (trusted_domains filtering) [] with
  | [] => false
  | _ => negb (_is_trusted_domain filtering item)
  end.

(** Two titles that [deduplicate] takes for duplicates: their similarity is
    above the threshold. *)
Definition similar (s1 s2 : string) : Prop :=
  exists f, _similarity s1 s2 = Ok f /\ F64.ltb threshold f = true.

(** The categories that [filter_and_rank_content] processes: those that the
    configuration has and enables. *)
Definition enabled_in (categories : dict category_config) (k : string) : bool :=
  match dict_get categories k with
  | Some category_config => enabled category_config
  | None => false
  end.


(** Two items whose normalized titles [deduplicate] does not take for
    duplicates. *)
Definition title_distinct (h : heap) (a b : loc) : Prop :=
  ~ similar (normalize_title (h a)) (normalize_title (h b)).

(** Two heaps whose items answer the checks of the filter alike and have the
    same normalized titles. *)
Definition same_content (filtering : filtering_config) (h h' : heap) : Prop :=
  forall r,
    passes filtering (h' r) = passes filtering (h r)
    /\ normalize_title (h' r) = normalize_title (h r).

(** [a] comes before [b] in ascending priority. *)
Definition by_priority (a b : string * category_config) : Prop :=
  exists p q,
    priority (snd a) = Some p /\ priority (snd b) = Some q /\ p <= q.

(** The content has a list for the category, and the list is not empty. *)
Definition has_items (content : dict (list loc))
  (c : string * category_config) : bool :=
  match get_or (dict_get content (fst c)) [] with
  | [] => false
  | _ => true
  end.

(** ** Sample inputs *)

Definition crypto_filtering : filtering_config :=
  {| deduplicate_enabled := true; require_engagement := false;
     exclude_keywords := Some ["Crypto"; "crypto"; "nft"];
     trusted_domains := None |}.

Definition titled (title description : string) : Item.t :=
  Item.mk (Some title) (Some description) None None None None None None None
          None None None.

(** The item of the scoring example: published at time 0, stars "1.2k",
    type "research_paper", with code, from a trusted source. *)
Definition starred_paper : Item.t :=
  Item.mk (Some "A model") None None (Some "research_paper") (Some 0)
          None None (Some (PyStr "1.2k")) None (Some true) (Some false) None.

Definition models_first : dict category_config :=
  [("models",
    {| enabled := true; priority := Some 1; keywords := Some ["model"] |})].

(** A world whose clock shows one hour after time 0 at every reading. *)
Definition world_of (h : heap) : world :=
  mkWorld h (fun _ => 3600000000) 0%nat [].

(** Two items whose titles have no words: one empty, one of white space. *)
Definition empty_titles : heap := fun r =>
  match r with
  | O => titled "" "first"
  | _ => titled "  " "second"
  end.

Definition transformer_titles : heap := fun r =>
  match r with
  | O => titled "New Transformer Model Released" ""
  | _ => titled "new transformer model released!!" ""
  end.

(** Three items for the ranker: the third has code and scores above the first
    two, which tie. *)
Definition ranking_sample : heap := fun r =>
  match r with
  | 2%nat =>
      Item.mk (Some "Third") None None None None None None None None
              (Some true) None None
  | _ => titled "A post" ""
  end.

(** A configuration with the four categories of the newsletter and a fifth
    one, all enabled. *)
Definition newsletter_config : config :=
  {| categories :=
       [("models",
         {| enabled := true; priority := Some 1; keywords := Some ["model"] |});
        ("creative_applications",
         {| enabled := true; priority := Some 2; keywords := Some ["art"] |});
        ("productivity_tools",
         {| enabled := true; priority := Some 3; keywords := Some ["tool"] |});
        ("product_launches",
         {| enabled := true; priority := Some 4; keywords := Some ["launch"] |});
        ("research_news",
         {| enabled := true; priority := Some 2; keywords := Some ["survey"] |})];
     filtering := crypto_filtering;
     days_to_look_back := 7;
     max_items_per_category := 5;
     source_enabled := fun _ => true;
     debug_mode := false |}.

(** Item 0 matches the fifth category only, item 1 matches [models]. *)
Definition pipeline_sample : heap := fun r =>
  match r with
  | O => titled "A survey of optimizers" ""
  | _ => titled "New model released" ""
  end.

(** The blog scraper returns both items, the other scrapers nothing. *)
Definition blogs_only (src : source) (start_date : Z) : list loc :=
  match src with
  | company_blogs => [0; 1]%nat
  | _ => []
  end.

(** A filter that excludes a keyword, requires engagement and trusts one
    domain. *)
Definition strict_filtering : filtering_config :=
  {| deduplicate_enabled := true; require_engagement := true;
     exclude_keywords := Some ["crypto"];
     trusted_domains := Some ["openai.com"] |}.

(** Four items for the filter: item 0 is excluded, item 1 has upvotes and
    comes from the trusted domain, item 2 has stars and comes from elsewhere,
    the others have no engagement. *)
Definition filter_sample : heap := fun r =>
  match r with
  | 0%nat =>
      Item.mk (Some "Crypto coin") (Some "") (Some "https://openai.com/a")
              None None (Some (PyInt 9)) None None None None None None
  | 1%nat =>
      Item.mk (Some "New model") (Some "") (Some "https://openai.com/b")
              None None (Some (PyInt 50)) None None None None None None
  | 2%nat =>
      Item.mk (Some "Another model") (Some "") (Some "https://example.org/c")
              None None None None (Some (PyStr "1,200")) None None None None
  | _ => titled "Quiet post" ""
  end.

(** Items whose upvotes read as an infinite number. *)
Definition overflow_sample : heap := fun _ =>
  Item.mk (Some "A post") None None None None (Some (PyStr "inf")) None None
          None None None None.

(** Three items for [deduplicate]: the second repeats the title of the first
    in another case. *)
Definition repeated_titles : heap := fun r =>
  match r with
  | 0%nat => titled "New model released today" ""
  | 1%nat => titled "new MODEL released  today" ""
  | _ => titled "A tool for notes" ""
  end.

(** Three items that match [models] only, with titles that are not
    duplicates. *)
Definition three_models : heap := fun r =>
  match r with
  | 0%nat => titled "First model" ""
  | 1%nat => titled "Second model" ""
  | _ => titled "Third model" ""
  end.

Definition all_from_blogs (src : source) (start_date : Z) : list loc :=
  match src with
  | company_blogs => [0; 1; 2]%nat
  | _ => []
  end.

(** A configuration with two items per category, [creative_applications]
    disabled, and previews saved. *)
Definition short_config : config :=
  {| categories :=
       [("models",
         {| enabled := true; priority := Some 1; keywords := Some ["model"] |});
        ("creative_applications",
         {| enabled := false; priority := Some 2; keywords := Some ["art"] |});
        ("productivity_tools",
         {| enabled := true; priority := Some 3; keywords := Some ["tool"] |});
        ("product_launches",
         {| enabled := true; priority := Some 4; keywords := Some ["launch"] |})];
     filtering := crypto_filtering;
     days_to_look_back := 7;
     max_items_per_category := 2;
     source_enabled := fun _ => true;
     debug_mode := true |}.

(** A configuration that has [models] only. *)
Definition models_only_config : config :=
  {| categories := models_first;
     filtering := crypto_filtering;
     days_to_look_back := 7;
     max_items_per_category := 5;
     source_enabled := fun _ => true;
     debug_mode := false |}.

(** A configuration whose second category is enabled and has no priority,
    and whose third category is disabled. *)
Definition no_priority_config : config :=
  {| categories :=
       [("models",
         {| enabled := true; priority := Some 1; keywords := Some ["model"] |});
        ("product_launches",
         {| enabled := true; priority := None; keywords := Some ["launch"] |});
        ("productivity_tools",
         {| enabled := false; priority := Some 3; keywords := Some ["tool"] |})];
     filtering := crypto_filtering;
     days_to_look_back := 7;
     max_items_per_category := 5;
     source_enabled := fun _ => true;
     debug_mode := false |}.

(** Collaborators of [generate] that render a section as the name of its
    category and leave the page as it is. *)
Definition section_name (category : string) (items : list loc) : M string :=
  mret category.

Definition bare_page (content : string) : M string := mret content.

(** Repositories 0 and 2 have the same URL and the same title. *)
Definition repositories : heap := fun r =>
  match r with
  | 1%nat =>
      Item.mk (Some "b/two") None (Some "https://github.com/b/two") None None
              None None None None None None None
  | _ =>
      Item.mk (Some "a/one") None (Some "https://github.com/a/one") None None
              None None None None None None None
  end.

(** ** Sample runs *)

Definition filter_run : result (list loc) * world :=
  filter_items strict_filtering [0; 1; 2; 3]%nat "models"
    (world_of filter_sample).


Definition rank_run : result (list loc) * world :=
  rank_items models_first [0; 1; 2]%nat "models" (world_of ranking_sample).

Definition rank_overflow_run : result (list loc) * world :=
  rank_items models_first [0; 1]%nat "models" (world_of overflow_sample).

Definition three_models_content : dict (list loc) :=
  [("models", [0; 1; 2]%nat); ("creative_applications", []);
   ("productivity_tools", []); ("product_launches", [])].

Definition short_content : dict (list loc) :=
  [("models", [0; 1]%nat); ("productivity_tools", []);
   ("product_launches", [])].

Definition collect_run : result (dict (list loc)) * world :=
  collect_content short_config all_from_blogs (world_of three_models).

Definition filter_rank_run : result (dict (list loc)) * world :=
  filter_and_rank_content short_config three_models_content (snd collect_run).

(** A content for the template: a list for the fifth category, one for
    [models] and an empty one. *)
Definition template_content : dict (list loc) :=
  [("research_news", [0]%nat); ("models", [1]%nat); ("product_launches", [])].

(** * Properties *)

(** ** Computations that return *)

Ltac step_M :=
  unfold mbind, M_bind, mret, M_ret, lift, now, read, write, get_heap.

Lemma bind_Ok {A B : Type} (m : M A) (k : A -> M B) (w w' : world) (b : B) :
  (m ≫= k) w = (Ok b, w') ->
  exists a w1, m w = (Ok a, w1) /\ k a w1 = (Ok b, w').
Proof.
  unfold mbind, M_bind. destruct (m w) as [[a|e] w1]; [eauto|discriminate].
Qed.

Section Preserves.

Context {X : Type} (part : world -> X).

Lemma preserves_ret {A : Type} (a : A) : preserves part (mret a).
Proof. intros w. reflexivity. Qed.

Lemma preserves_lift {A : Type} (r : result A) : preserves part (lift r).
Proof. intros w. reflexivity. Qed.

Lemma preserves_read (r : loc) : preserves part (read r).
Proof. intros w. reflexivity. Qed.

Lemma preserves_get_heap : preserves part get_heap.
Proof. intros w. reflexivity. Qed.

Lemma preserves_bind {A B : Type} (m : M A) (k : A -> M B) :
  preserves part m -> (forall a, preserves part (k a)) ->
  preserves part (m ≫= k).
Proof.
  intros Hm Hk w. unfold mbind, M_bind.
  specialize (Hm w). destruct (m w) as [[a|e] w1]; simpl in *.
  - rewrite Hk. exact Hm.
  - exact Hm.
Qed.

End Preserves.

Lemma preserves_now_heap : preserves w_heap now.
Proof. intros w. reflexivity. Qed.

Lemma preserves_now_events : preserves w_events now.
Proof. intros w. reflexivity. Qed.

Lemma preserves_write_events (r : loc) (i : Item.t) :
  preserves w_events (write r i).
Proof. intros w. reflexivity. Qed.

Create HintDb frame.

#[local] Hint Resolve preserves_ret preserves_lift preserves_read
  preserves_get_heap preserves_now_heap preserves_now_events
  preserves_write_events : frame.

Ltac frame :=
  repeat first
    [ solve [auto with frame]
    | apply preserves_bind; [|intros ?]
    | progress case_match ].

(** ** Text *)

Lemma lower_char_idem (c : ascii) :
  Str.lower_char (Str.lower_char c) = Str.lower_char c.
Proof. destruct c as [[] [] [] [] [] [] [] []]; reflexivity. Qed.

Lemma lower_idem (s : string) : Str.lower (Str.lower s) = Str.lower s.
Proof.
  induction s as [|c s IH]; simpl; [reflexivity|].
  now rewrite lower_char_idem, IH.
Qed.

Lemma lower_app (s t : string) :
  Str.lower (s ++ t) = Str.lower s ++ Str.lower t.
Proof. induction s as [|c s IH]; simpl; [reflexivity|]. now rewrite IH. Qed.

(** The combined text is in lower case already. *)
Lemma text_of_lower (item : Item.t) : Str.lower (text_of item) = text_of item.
Proof.
  unfold text_of. rewrite !lower_app, !lower_idem. reflexivity.
Qed.

(** A prefix of a text in lower case is in lower case. *)
Lemma startswith_lower (k s : string) :
  Str.lower s = s -> Str.startswith k s = true -> Str.lower k = k.
Proof.
  revert s. induction k as [|a k IH]; intros s Hs Hp; [reflexivity|].
  destruct s as [|b s]; simpl in Hp; [discriminate|].
  apply andb_prop in Hp as [Hab Hks].
  apply Ascii.eqb_eq in Hab. subst b.
  simpl in Hs. injection Hs as Ha Hs.
  simpl. rewrite Ha. f_equal. eapply IH; eassumption.
Qed.

(** So is every substring of it. *)
Lemma contains_lower (k s : string) :
  Str.lower s = s -> Str.contains k s = true -> Str.lower k = k.
Proof.
  induction s as [|b s IH]; intros Hs Hc; simpl in Hc.
  - rewrite orb_false_r in Hc. eapply startswith_lower; eassumption.
  - apply orb_prop in Hc as [Hp | Hc].
    + eapply startswith_lower; eassumption.
    + simpl in Hs. injection Hs as _ Hs. auto.
Qed.

(** ** The exclusion rule *)

Lemma exclude_loop_override (text : string) (kws : list string) :
  Str.contains "ai" text || Str.contains "machine learning" text = true ->
  exclude_loop text kws = false.
Proof.
  intros Hov. induction kws as [|kw kws IH]; simpl; [reflexivity|].
  destruct (Str.contains (Str.lower kw) text); [|exact IH].
  destruct (Str.contains "ai" text), (Str.contains "machine learning" text);
    simpl in *; try discriminate; exact IH.
Qed.

Lemma exclude_loop_hit (text : string) (kws : list string) (kw : string) :
  kw ∈ kws ->
  Str.contains (Str.lower kw) text = true ->
  Str.contains "ai" text = false ->
  Str.contains "machine learning" text = false ->
  exclude_loop text kws = true.
Proof.
  intros Hin Hkw Hai Hml. induction Hin as [kw kws | kw kw' kws Hin IH]; simpl.
  - rewrite Hkw, Hai, Hml. reflexivity.
  - rewrite Hai, Hml. simpl. rewrite IH by assumption.
    now destruct (Str.contains (Str.lower kw') text).
Qed.

Lemma should_exclude_loop (filtering : filtering_config) (item : Item.t) :
  _should_exclude filtering item
  = exclude_loop (text_of item) (get_or (exclude_keywords filtering) []).
Proof.
  unfold _should_exclude. now destruct (get_or (exclude_keywords filtering) []).
Qed.

(** An item that the exclusion check rejects is not in the result of
    [filter_items], whatever the other settings are. *)
Lemma filter_items_excluded (filtering : filtering_config) (r : loc)
  (rest : list loc) (category : string) (w : world) :
  _should_exclude filtering (w_heap w r) = true ->
  filter_items filtering (r :: rest) category w
  = filter_items filtering rest category w.
Proof.
  intros Hex. cbn [filter_items]. unfold mbind, M_bind, read. now rewrite Hex.
Qed.

(** An item that the exclusion check lets through is kept when the engagement
    gate is off or finds engagement. *)
Lemma filter_items_single_kept (filtering : filtering_config) (r : loc)
  (category : string) (w : world) :
  _should_exclude filtering (w_heap w r) = false ->
  require_engagement filtering = false
  \/ _has_engagement (w_heap w r) = Ok true ->
  fst (filter_items filtering [r] category w) = Ok [r].
Proof.
  intros Hex Hgate. cbn [filter_items]. unfold mbind, M_bind, read.
  rewrite Hex.
  assert (Hengaged :
    (if require_engagement filtering then lift (_has_engagement (w_heap w r))
     else mret true) w = (Ok true, w)).
  { destruct Hgate as [-> | Hen]; [reflexivity|].
    destruct (require_engagement filtering); [|reflexivity].
    unfold lift. now rewrite Hen. }
  rewrite Hengaged. cbn.
  destruct (get_or (trusted_domains filtering) []); [reflexivity|].
  destruct (negb _); reflexivity.
Qed.

(** C4. With a configured list of exclude keywords, an item whose combined
    text in lower case contains one of them is let through by the exclusion
    check when the text also contains "ai" or "machine learning", and
    [filter_items] keeps it unless the engagement gate stops it; the item is
    rejected by the check, hence dropped by [filter_items], when the text
    contains neither. *)
Theorem should_exclude_ai_override (filtering : filtering_config)
  (item : Item.t) (kws : list string) (kw : string) :
  exclude_keywords filtering = Some kws ->
  kws <> [] ->
  kw ∈ kws ->
  Str.contains kw (text_of item) = true ->
  (Str.contains "ai" (text_of item) = true
   \/ Str.contains "machine learning" (text_of item) = true ->
   _should_exclude filtering item = false
   /\ forall r category w,
        w_heap w r = item ->
        require_engagement filtering = false
        \/ _has_engagement item = Ok true ->
        fst (filter_items filtering [r] category w) = Ok [r])
  /\ (Str.contains "ai" (text_of item) = false ->
      Str.contains "machine learning" (text_of item) = false ->
      _should_exclude filtering item = true
      /\ forall r rest category w,
           w_heap w r = item ->
           filter_items filtering (r :: rest) category w
           = filter_items filtering rest category w).
Proof.
  intros Hcfg _ Hin Hkw. split.
  - intros Hov.
    assert (Hex : _should_exclude filtering item = false).
    { rewrite should_exclude_loop, Hcfg. cbn [get_or].
      apply exclude_loop_override.
      destruct Hov as [-> | ->]; [reflexivity | apply orb_true_r]. }
    split; [exact Hex|].
    intros r category w Hr Hgate.
    apply filter_items_single_kept; rewrite Hr; assumption.
  - intros Hai Hml.
    assert (Hex : _should_exclude filtering item = true).
    { rewrite should_exclude_loop, Hcfg. cbn [get_or].
      apply exclude_loop_hit with kw; try assumption.
      rewrite (contains_lower kw (text_of item)); auto using text_of_lower. }
    split; [exact Hex|].
    intros r rest category w Hr. apply filter_items_excluded.
    rewrite Hr. exact Hex.
Qed.

Lemma should_exclude_ai_override_witness :
  _should_exclude crypto_filtering (titled "Crypto AI trading bot" "") = false
  /\ _should_exclude crypto_filtering (titled "Crypto prices surge" "Markets") = true.
Proof.
  split.
  - refine (proj1 (proj1 (should_exclude_ai_override crypto_filtering
             (titled "Crypto AI trading bot" "") ["Crypto"; "crypto"; "nft"]
             "crypto" eq_refl _ _ eq_refl) (or_introl eq_refl)));
      [discriminate | set_solver].
  - refine (proj1 (proj2 (should_exclude_ai_override crypto_filtering
             (titled "Crypto prices surge" "Markets") ["Crypto"; "crypto"; "nft"]
             "crypto" eq_refl _ _ eq_refl) eq_refl eq_refl));
      [discriminate | set_solver].
Defined.

(** C9. An item whose combined text in lower case contains the letters "ai"
    anywhere, inside another word too, is let through by the exclusion check
    whatever the exclude keywords are, so the exclusion rule does not drop
    it. *)
Theorem should_exclude_never_with_ai (filtering : filtering_config)
  (item : Item.t) :
  Str.contains "ai" (text_of item) = true ->
  _should_exclude filtering item = false.
Proof.
  intros Hai. rewrite should_exclude_loop.
  apply exclude_loop_override. now rewrite Hai.
Qed.

Lemma should_exclude_never_with_ai_witness :
  _should_exclude crypto_filtering
    (titled "Crypto giveaway" "Claim your NFT by email") = false
  /\ _should_exclude crypto_filtering
    (titled "Airline pays in crypto" "") = false.
Proof.
  split; apply should_exclude_never_with_ai; reflexivity.
Defined.

(** ** The numeric parser *)

(** C2. The text "1.2k" becomes "1.2000" when every "k" is replaced by
    "000", which [float] reads as 1.2 and [int] truncates to 1, not 1200. *)
Theorem to_int_decimal_k :
  Str.replace "K" "000" (Str.replace "k" "000" (Str.replace "," "" "1.2k"))
  = "1.2000"
  /\ to_int (PyStr "1.2k") = Ok 1
  /\ to_int (PyStr "1.2k") <> Ok 1200.
Proof.
  split; [vm_compute; reflexivity|].
  split; [vm_compute; reflexivity | vm_compute; discriminate].
Qed.

(** Commas are dropped before anything else is looked at. *)
Lemma replace_absent (c : ascii) (new s : string) :
  Str.contains (String c EmptyString) s = false -> Str.replace c new s = s.
Proof.
  induction s as [|d s IH]; [reflexivity|]. cbn [Str.contains Str.startswith].
  rewrite Ascii.eqb_sym. destruct (Ascii.eqb d c) eqn:Hd; [discriminate|].
  cbn [andb orb Str.replace]. rewrite Hd. intros H. now rewrite IH.
Qed.

Lemma replace_removes (c : ascii) (s : string) :
  Str.contains (String c EmptyString) (Str.replace c "" s) = false.
Proof.
  induction s as [|d s IH]; [reflexivity|]. cbn [Str.replace].
  destruct (Ascii.eqb d c) eqn:Hd; [exact IH|].
  cbn [Str.contains Str.startswith]. rewrite Ascii.eqb_sym, Hd. exact IH.
Qed.

Lemma to_int_commas (s : string) :
  to_int (PyStr s) = to_int (PyStr (Str.replace "," "" s)).
Proof.
  cbn [to_int]. now rewrite (replace_absent "," "" _ (replace_removes "," s)).
Qed.

(** The handler of [to_int] catches [ValueError] and [TypeError]: the one
    exception that leaves it is [OverflowError], for an infinite value. *)
Lemma to_int_raises_overflow_only (value : pyval) (e : exn) :
  to_int value = Raise e -> e = OverflowError.
Proof.
  destruct value as [|b|z|f|s|]; cbn [to_int int_of]; try discriminate.
  - destruct f; cbn; congruence.
  - unfold F64.of_str.
    destruct (F64.drop_underscores _ _) as [u|]; [|discriminate].
    destruct (F64.read_sign u) as [neg r].
    repeat match goal with
           | |- context [if ?c then _ else _] => destruct c
           end; cbn; try congruence.
    destruct (F64.parse_number r) as [[m e10]|]; [|discriminate].
    cbn. destruct (F64.of_decimal neg m e10); cbn; congruence.
Qed.

(** What the parser does on other texts: commas go, a "k" after a whole number
    multiplies by 1000, a "k" in the middle is replaced as well, text that
    [float] rejects and [nan] give 0, and an infinite value escapes the
    handler as [OverflowError]. *)
Lemma to_int_samples :
  to_int (PyStr "1,234") = Ok 1234
  /\ to_int (PyStr "12k") = Ok 12000
  /\ to_int (PyStr "3K") = Ok 3000
  /\ to_int (PyStr "3k5") = Ok 30005
  /\ to_int (PyStr "many") = Ok 0
  /\ to_int (PyStr "") = Ok 0
  /\ to_int (PyStr "nan") = Ok 0
  /\ to_int PyNone = Ok 0
  /\ to_int PyObject = Ok 0
  /\ to_int (PyInt 42) = Ok 42
  /\ to_int (PyStr "inf") = Raise OverflowError
  /\ to_int (PyStr "1e999") = Raise OverflowError.
Proof. repeat split; vm_compute; reflexivity. Qed.

(** ** The score *)

(** C1. With priority 1, a publication date 0 whole days old, stars "1.2k",
    no other engagement field, a trusted source, type "research_paper" and
    code, the score is 50 + 20 + 1/100 + 10 + 5 + 5, the double 90.01, and
    not 102: the stars count as 1. *)
Theorem calculate_score_example (categories : dict category_config)
  (category : string) (category_config : category_config) (item : Item.t)
  (pub_date : Z) (w : world) :
  dict_get categories category = Some category_config ->
  priority category_config = Some 1 ->
  Item.published_date item = Some pub_date ->
  timedelta_days (w_clock w (w_ticks w)) pub_date = 0 ->
  Item.stars item = Some (PyStr "1.2k") ->
  Item.upvotes item = None ->
  Item.score item = None ->
  Item.comments item = None ->
  Item.untrusted_source item = Some false ->
  Item.type item = Some "research_paper" ->
  Item.has_code item = Some true ->
  fst (_calculate_score categories item category w)
  = Ok (F64.of_decimal false 9001 (-2))
  /\ F64.of_int 102 <> Ok (F64.of_decimal false 9001 (-2)).
Proof.
  intros Hcat Hprio Hdate Hdays Hstars Hup Hsc Hcom Htrust Htype Hcode.
  split; [|vm_compute; discriminate].
  unfold _calculate_score.
  rewrite Hcat, Hprio, Hdate, Hstars, Hup, Hsc, Hcom, Htrust, Htype, Hcode.
  step_M. cbn -[F64.add F64.of_int F64.truediv to_int py_min py_add F64.of_decimal Z.mul Z.sub].
  rewrite Hdays. vm_compute. reflexivity.
Qed.

Lemma calculate_score_example_witness :
  fst (_calculate_score models_first starred_paper "models"
         (world_of (fun _ => starred_paper)))
  = Ok (F64.of_decimal false 9001 (-2))
  /\ F64.of_int 102 <> Ok (F64.of_decimal false 9001 (-2)).
Proof.
  exact (calculate_score_example models_first "models" _ starred_paper 0
           (world_of (fun _ => starred_paper))
           eq_refl eq_refl eq_refl eq_refl eq_refl eq_refl eq_refl eq_refl
           eq_refl eq_refl eq_refl).
Defined.

(** ** No overflow in roundings of bounded magnitude *)

Lemma digits2_pos_size (p : positive) : digits2_pos p = Pos.size p.
Proof. induction p; simpl; congruence. Qed.

(** [Zdigits2 m] is the number of binary digits of [m]. *)
Lemma Zdigits2_bounds (p : positive) :
  2 ^ (Zdigits2 (Zpos p) - 1) <= Zpos p < 2 ^ Zdigits2 (Zpos p).
Proof.
  cbn [Zdigits2]. rewrite digits2_pos_size.
  pose proof (Pos.size_gt p) as Hgt. pose proof (Pos.size_le p) as Hle.
  assert (Hpow : forall n : positive, Zpos (2 ^ n) = 2 ^ Zpos n)
    by (intros n; now rewrite Pos2Z.inj_pow).
  split.
  - assert (H2 : 2 ^ Zpos (Pos.size p) <= 2 * Zpos p).
    { rewrite <- Hpow. change (2 * Zpos p) with (Zpos p~0). exact Hle. }
    replace (Zpos (Pos.size p)) with (Zpos (Pos.size p) - 1 + 1) in H2 by lia.
    rewrite Z.pow_add_r, Z.pow_1_r in H2 by lia. lia.
  - rewrite <- Hpow. exact Hgt.
Qed.

Lemma Zdigits2_nonneg (m : Z) : 0 <= Zdigits2 m.
Proof. destruct m; simpl; lia. Qed.

Lemma Zdigits2_le_pow (m k : Z) : 0 <= m < 2 ^ k -> 0 <= k -> Zdigits2 m <= k.
Proof.
  intros [H0 Hlt] Hk. destruct m as [|p|p]; [simpl; lia| |lia].
  pose proof (Zdigits2_bounds p) as [Hlo _].
  destruct (Z.le_gt_cases (Zdigits2 (Zpos p)) k) as [?|Hgt]; [assumption|].
  exfalso.
  assert (2 ^ k <= 2 ^ (Zdigits2 (Zpos p) - 1)) by (apply Z.pow_le_mono_r; lia).
  lia.
Qed.

Lemma Zdigits2_succ (m : Z) : 0 <= m -> Zdigits2 (m + 1) <= Zdigits2 m + 1.
Proof.
  intros H0. pose proof (Zdigits2_nonneg m) as Hd.
  apply Zdigits2_le_pow; [|lia].
  rewrite Z.pow_add_r by lia.
  destruct m as [|p|p]; [simpl; lia| |lia].
  pose proof (Zdigits2_bounds p). lia.
Qed.

(** One step of [shr] halves the mantissa. *)
Lemma shr_1_digits (mrs : shr_record) :
  0 <= shr_m mrs ->
  0 <= shr_m (shr_1 mrs)
  /\ Zdigits2 (shr_m (shr_1 mrs)) <= Z.max 0 (Zdigits2 (shr_m mrs) - 1).
Proof.
  destruct mrs as [m r s]. cbn [shr_m]. intros H0.
  destruct m as [|[p|p|]|p]; cbn [shr_1 shr_m Zdigits2 digits2_pos]; lia.
Qed.

Lemma iter_shr_1_digits (p : positive) :
  forall mrs : shr_record,
    0 <= shr_m mrs ->
    0 <= shr_m (SpecFloat.iter_pos shr_1 p mrs)
    /\ Zdigits2 (shr_m (SpecFloat.iter_pos shr_1 p mrs))
       <= Z.max 0 (Zdigits2 (shr_m mrs) - Zpos p).
Proof.
  induction p as [p IH|p IH|]; intros mrs H0; cbn [SpecFloat.iter_pos].
  - destruct (shr_1_digits mrs H0) as [H1 D1].
    destruct (IH _ H1) as [H2 D2]. destruct (IH _ H2) as [H3 D3].
    split; [assumption|]. lia.
  - destruct (IH _ H0) as [H2 D2]. destruct (IH _ H2) as [H3 D3].
    split; [assumption|]. lia.
  - apply shr_1_digits. assumption.
Qed.

Lemma shr_m_of_loc (m : Z) (l : location) : shr_m (shr_record_of_loc m l) = m.
Proof. destruct l as [|[]]; reflexivity. Qed.

(** What [shr_fexp] returns when the value is below [2 ^ bound]. *)
Lemma shr_fexp_bounds (m e : Z) (l : location) (bound : Z) :
  0 <= m -> e <= 971 -> Zdigits2 m + e <= bound -> bound <= 1024 ->
  let '(mrs, e') := shr_fexp F64.prec F64.emax m e l in
  0 <= shr_m mrs /\ e' <= 971 /\ Zdigits2 (shr_m mrs) + e' <= Z.max bound e'.
Proof.
  intros H0 He Hd Hb. unfold shr_fexp, shr.
  pose proof (Zdigits2_nonneg m) as Hdm.
  remember (fexp F64.prec F64.emax (Zdigits2 m + e) - e) as n eqn:Hn.
  unfold fexp, emin, F64.prec, F64.emax in Hn.
  destruct n as [|p|p]; rewrite ?shr_m_of_loc; try (split; [|split]; lia).
  destruct (iter_shr_1_digits p (shr_record_of_loc m l)) as [H1 D1];
    rewrite ?shr_m_of_loc in *; [assumption|].
  split; [assumption|]. split; lia.
Qed.

Lemma round_nearest_even_bounds (m : Z) (l : location) :
  0 <= m ->
  0 <= round_nearest_even m l
  /\ Zdigits2 (round_nearest_even m l) <= Zdigits2 m + 1.
Proof.
  intros H0. pose proof (Zdigits2_succ m H0).
  destruct l as [|[]]; simpl; try destruct (Z.even m); split; lia.
Qed.

(** A value below [2 ^ 1023] rounds to zero or to a finite double. *)
Lemma binary_round_aux_finite (sx : bool) (mx ex : Z) (lx : location) :
  0 <= mx -> ex <= 971 -> Zdigits2 mx + ex <= 1023 ->
  match binary_round_aux F64.prec F64.emax sx mx ex lx with
  | S754_zero _ | S754_finite _ _ _ => True
  | _ => False
  end.
Proof.
  intros H0 He Hd. unfold binary_round_aux.
  pose proof (shr_fexp_bounds mx ex lx 1023 H0 He Hd ltac:(lia)) as H1.
  destruct (shr_fexp F64.prec F64.emax mx ex lx) as [mrs' e'].
  destruct H1 as (Hm1 & He1 & Hd1).
  pose proof (round_nearest_even_bounds (shr_m mrs') (loc_of_shr_record mrs') Hm1)
    as [Hr0 Hrd].
  set (m2 := round_nearest_even (shr_m mrs') (loc_of_shr_record mrs')) in *.
  pose proof (shr_fexp_bounds m2 e' loc_Exact 1024 Hr0 He1 ltac:(lia) ltac:(lia))
    as H2.
  destruct (shr_fexp F64.prec F64.emax m2 e' loc_Exact) as [mrs'' e''].
  destruct H2 as (Hm2 & He2 & _).
  destruct (shr_m mrs'') as [|p|p]; [exact I| |lia].
  unfold F64.emax, F64.prec. destruct (Z.leb_spec e'' (1024 - 53)); [exact I|lia].
Qed.

(** The quotient of two positive integers, the first not above the second,
    divides without overflow. *)
Lemma SFdiv_le_finite (a b : positive) :
  (a <= b)%positive ->
  match SFdiv F64.prec F64.emax (S754_finite false a 0) (S754_finite false b 0) with
  | S754_zero _ | S754_finite _ _ _ => True
  | _ => False
  end.
Proof.
  intros Hab. unfold SFdiv, SFdiv_core_binary.
  set (e' := Z.min (fexp F64.prec F64.emax (Zdigits2 (Zpos a) + 0 - (Zdigits2 (Zpos b) + 0))) (0 - 0)).
  set (s := 0 - 0 - e').
  set (m' := match s with Zpos _ => Z.shiftl (Zpos a) s | Z0 => Zpos a | Zneg _ => 0 end).
  assert (He' : e' <= 0) by (unfold e'; lia).
  assert (Hs : 0 <= s) by (unfold s; lia).
  assert (Hm' : m' = Zpos a * 2 ^ s).
  { unfold m'. destruct s as [|p|p]; [simpl; lia| |lia].
    rewrite Z.shiftl_mul_pow2 by lia. reflexivity. }
  pose proof (Z_div_mod m' (Zpos b) ltac:(lia)) as Hdiv.
  destruct (Z.div_eucl m' (Zpos b)) as [q r].
  destruct Hdiv as [Heq Hr].
  assert (Hpow : 0 < 2 ^ s) by (apply Z.pow_pos_nonneg; lia).
  assert (Hq0 : 0 <= q) by nia.
  assert (Hq1 : q <= 2 ^ s) by nia.
  apply binary_round_aux_finite; [assumption | lia |].
  assert (Zdigits2 q <= s + 1); [|unfold s in *; lia].
  apply Zdigits2_le_pow; [|lia].
  rewrite Z.pow_add_r by lia. lia.
Qed.

(** [a / b] raises nothing when [0 <= a <= b] and [b] is not zero. *)
Lemma truediv_le_ok (a b : Z) :
  0 <= a <= b -> 0 < b -> exists f, F64.truediv a b = Ok f.
Proof.
  intros [Ha Hab] Hb. unfold F64.truediv.
  destruct (Z.eqb_spec b 0); [lia|].
  destruct (Z.eqb_spec a 0); [eauto|].
  destruct a as [|pa|pa]; try lia. destruct b as [|pb|pb]; try lia.
  pose proof (SFdiv_le_finite pa pb ltac:(lia)) as H. cbn [F64.exact].
  destruct (SFdiv F64.prec F64.emax _ _); cbn; try contradiction; eauto.
Qed.

(** ** Scores are numbers *)

Lemma shr_fexp_nonneg (m e : Z) (l : location) :
  0 <= m -> 0 <= shr_m (fst (shr_fexp F64.prec F64.emax m e l)).
Proof.
  intros H0. unfold shr_fexp, shr.
  destruct (fexp F64.prec F64.emax (Zdigits2 m + e) - e) as [|p|p];
    cbn [fst]; rewrite ?shr_m_of_loc; try assumption.
  apply iter_shr_1_digits. now rewrite shr_m_of_loc.
Qed.

Lemma binary_round_aux_not_nan (sx : bool) (mx ex : Z) (lx : location) :
  0 <= mx -> is_nan (binary_round_aux F64.prec F64.emax sx mx ex lx) = false.
Proof.
  intros H0. unfold binary_round_aux.
  pose proof (shr_fexp_nonneg mx ex lx H0) as H1.
  destruct (shr_fexp F64.prec F64.emax mx ex lx) as [mrs' e']. cbn [fst] in H1.
  pose proof (round_nearest_even_bounds (shr_m mrs') (loc_of_shr_record mrs') H1)
    as [Hr _].
  pose proof (shr_fexp_nonneg _ e' loc_Exact Hr) as H2.
  destruct (shr_fexp F64.prec F64.emax _ e' loc_Exact) as [mrs'' e''].
  cbn [fst] in H2.
  destruct (shr_m mrs'') as [|p|p]; [reflexivity| |lia].
  now destruct (e'' <=? F64.emax - F64.prec).
Qed.

Lemma binary_normalize_not_nan (m e : Z) (szero : bool) :
  is_nan (binary_normalize F64.prec F64.emax m e szero) = false.
Proof.
  unfold binary_normalize, binary_round.
  destruct m as [|p|p]; [reflexivity| |];
    destruct (shl_align _ _ _) as [mz ez];
    now apply binary_round_aux_not_nan.
Qed.

Lemma add_not_nan (x y : spec_float) :
  is_nan x = false -> is_finite y = true -> is_nan (F64.add x y) = false.
Proof.
  unfold F64.add, SFadd.
  destruct x as [sx|sx| |sx mx ex], y as [sy|sy| |sy my ey];
    try discriminate; intros _ _; try reflexivity.
  - now destruct sx, sy.
  - apply binary_normalize_not_nan.
Qed.

Lemma finite_or_overflow_finite (f g : spec_float) :
  is_nan f = false -> F64.finite_or_overflow f = Ok g -> is_finite g = true.
Proof. destruct f; try discriminate; intros _ H; injection H as <-; reflexivity. Qed.

Lemma of_int_finite (z : Z) (f : spec_float) :
  F64.of_int z = Ok f -> is_finite f = true.
Proof. apply finite_or_overflow_finite, binary_normalize_not_nan. Qed.

Lemma truediv_finite (a b : Z) (f : spec_float) :
  F64.truediv a b = Ok f -> is_finite f = true.
Proof.
  unfold F64.truediv.
  destruct (b =? 0) eqn:Hb; [discriminate|].
  destruct (a =? 0) eqn:Ha; [intros H; injection H as <-; reflexivity|].
  apply finite_or_overflow_finite.
  destruct a as [|pa|pa], b as [|pb|pb]; try discriminate;
    cbn [F64.exact SFdiv]; unfold SFdiv_core_binary;
    match goal with
    | |- context [Z.div_eucl ?m (Zpos pb)] =>
        assert (Hm : 0 <= m)
          by (destruct (_ - _ - _); [lia | apply Z.shiftl_nonneg; lia | lia]);
        pose proof (Z_div_mod m (Zpos pb) ltac:(lia)) as Hdiv;
        destruct (Z.div_eucl m (Zpos pb)) as [q r]
    end;
    apply binary_round_aux_not_nan; nia.
Qed.

(** What [score += ...] adds is finite, so the sum is a number. *)
Lemma py_add_not_nan (score : spec_float) (n : number) (f : spec_float) :
  is_nan score = false ->
  match n with Int _ => True | Float x => is_finite x = true end ->
  py_add score n = Ok f ->
  is_nan f = false.
Proof.
  intros Hs Hn. destruct n as [z|x]; cbn [py_add].
  - destruct (F64.of_int z) as [g|e] eqn:Hg; [|discriminate].
    intros H. injection H as <-. apply add_not_nan; [assumption|].
    now apply of_int_finite with z.
  - intros H. injection H as <-. now apply add_not_nan.
Qed.

Lemma py_min_finite (x : spec_float) (cap : Z) :
  is_finite x = true ->
  match py_min x cap with Int _ => True | Float y => is_finite y = true end.
Proof. intros Hx. unfold py_min. now destruct (F64.int_ltb cap x). Qed.

Lemma lift_Ok {A : Type} (r : result A) (w w' : world) (a : A) :
  lift r w = (Ok a, w') -> r = Ok a.
Proof. unfold lift. congruence. Qed.

(** One engagement term of the score. *)
Lemma engagement_term_not_nan (score : spec_float) (value : pyval)
  (divisor cap : Z) (k : spec_float -> M spec_float) (w w' : world)
  (f : spec_float) :
  is_nan score = false ->
  (forall s w1, is_nan s = false -> k s w1 = (Ok f, w') -> is_nan f = false) ->
  (n ← lift (to_int value);
   x ← lift (F64.truediv n divisor);
   s ← lift (py_add score (py_min x cap));
   k s) w = (Ok f, w') ->
  is_nan f = false.
Proof.
  intros Hs Hk H.
  apply bind_Ok in H as (n & w1 & _ & H).
  apply bind_Ok in H as (x & w2 & Hx & H).
  apply bind_Ok in H as (s & w3 & Hadd & H).
  apply lift_Ok in Hx, Hadd. apply (Hk s w3); [|exact H].
  eapply py_add_not_nan; [exact Hs | | exact Hadd].
  apply py_min_finite. now apply truediv_finite in Hx.
Qed.

(** One bonus of the score, added under a condition. *)
Lemma bonus_not_nan (score : spec_float) (c : bool) (z : Z)
  (k : spec_float -> M spec_float) (w w' : world) (f : spec_float) :
  is_nan score = false ->
  (forall s w1, is_nan s = false -> k s w1 = (Ok f, w') -> is_nan f = false) ->
  (s ← (if c then lift (py_add score (Int z)) else mret score); k s) w
  = (Ok f, w') ->
  is_nan f = false.
Proof.
  intros Hs Hk H. apply bind_Ok in H as (s & w1 & Hadd & H).
  apply (Hk s w1); [|exact H]. destruct c.
  - apply lift_Ok in Hadd.
    exact (py_add_not_nan score (Int z) s Hs I Hadd).
  - injection Hadd as <- _. exact Hs.
Qed.

(** The score that [_calculate_score] returns is never NaN. *)
Lemma calculate_score_not_nan (categories : dict category_config)
  (item : Item.t) (category : string) (w w' : world) (f : spec_float) :
  _calculate_score categories item category w = (Ok f, w') ->
  is_nan f = false.
Proof.
  unfold _calculate_score. intros H.
  apply bind_Ok in H as (s0 & w0 & H0 & H). apply lift_Ok in H0.
  assert (Hs0 : is_nan s0 = false)
    by exact (py_add_not_nan F64.zero (Int _) s0 eq_refl I H0).
  clear H0. apply bind_Ok in H as (s1 & w1 & H1 & H).
  assert (Hs1 : is_nan s1 = false).
  { destruct (Item.published_date item) as [pub_date|].
    - apply bind_Ok in H1 as (t & wt & _ & H1). cbv zeta in H1.
      repeat match type of H1 with
             | (if ?c then _ else _) _ = _ => destruct c
             end;
        try (apply lift_Ok in H1;
             exact (py_add_not_nan _ (Int _) s1 Hs0 I H1)).
      injection H1 as <- _. exact Hs0.
    - injection H1 as <- _. exact Hs0. }
  clear H1. revert H. revert w1.
  repeat first
    [ intros w1 H; eapply engagement_term_not_nan in H; [exact H | assumption |];
      clear; intros s w1 Hs; revert w1
    | intros w1 H; cbv zeta in H; eapply bonus_not_nan in H;
      [exact H | assumption |]; clear; intros s w1 Hs; revert w1 ].
  intros w1 H. injection H as <- _. assumption.
Qed.

(** [_calculate_score] reads the clock and leaves the heap as it is. *)
Lemma calculate_score_heap (categories : dict category_config)
  (item : Item.t) (category : string) :
  preserves w_heap (_calculate_score categories item category).
Proof. unfold _calculate_score. frame. Qed.

(** After the first loop of [rank_items] every item of the list carries a
    score that is a number, and no other score has become NaN. *)
Lemma score_loop_not_nan (categories : dict category_config)
  (category : string) (items : list loc) :
  forall w w',
    score_loop categories items category w = (Ok tt, w') ->
    (forall r, r ∈ items -> is_nan (ranking_key (w_heap w') r) = false)
    /\ (forall r, is_nan (ranking_key (w_heap w) r) = false ->
                  is_nan (ranking_key (w_heap w') r) = false).
Proof.
  induction items as [|r0 rest IH]; intros w w' H; cbn [score_loop] in H.
  - injection H as <-. split; [|auto]. intros r Hr. now apply elem_of_nil in Hr.
  - apply bind_Ok in H as (item & w0 & Hitem & H). injection Hitem as <- <-.
    apply bind_Ok in H as (score & w1 & Hscore & H).
    apply bind_Ok in H as ([] & w2 & Hwrite & H).
    pose proof (calculate_score_heap categories (w_heap w r0) category w)
      as Hheap.
    rewrite Hscore in Hheap. cbn [snd] in Hheap.
    apply calculate_score_not_nan in Hscore.
    injection Hwrite as <-. destruct (IH _ _ H) as [Hrest Hkeep].
    cbn [w_heap] in Hkeep. rewrite Hheap in Hkeep.
    assert (Hr0 : is_nan (ranking_key (w_heap w') r0) = false).
    { apply Hkeep. unfold ranking_key. rewrite fn_lookup_insert. exact Hscore. }
    split.
    + intros r Hr. apply elem_of_cons in Hr as [->|Hr]; auto.
    + intros r Hr. destruct (decide (r0 = r)) as [<-|Hne]; [exact Hr0|].
      apply Hkeep. unfold ranking_key. now rewrite fn_lookup_insert_ne.
Qed.

(** ** Similarity and deduplication *)

Lemma similarity_empty_l (s1 s2 : string) :
  word_set s1 = ∅ -> _similarity s1 s2 = Ok F64.zero.
Proof.
  intros H. unfold _similarity. rewrite (bool_decide_eq_true_2 _ H). reflexivity.
Qed.

Lemma similarity_empty_r (s1 s2 : string) :
  word_set s2 = ∅ -> _similarity s1 s2 = Ok F64.zero.
Proof.
  intros H. unfold _similarity. rewrite (bool_decide_eq_true_2 _ H).
  now rewrite orb_true_r.
Qed.

(** A title without words is a duplicate of nothing. *)
Lemma is_duplicate_loop_no_words (title : string) (seen_titles : list string) :
  word_set title = ∅ -> is_duplicate_loop title seen_titles = Ok false.
Proof.
  intros H. induction seen_titles as [|t ts IH]; simpl; [reflexivity|].
  rewrite (similarity_empty_l _ _ H). simpl. exact IH.
Qed.

(** C7. When the normalized titles of two items both have no words, their
    similarity is 0.0 in either order, no exception is raised, and
    [deduplicate] keeps both items. *)
Theorem similarity_empty_titles (h : heap) (r1 r2 : loc) :
  word_set (normalize_title (h r1)) = ∅ ->
  word_set (normalize_title (h r2)) = ∅ ->
  _similarity (normalize_title (h r1)) (normalize_title (h r2)) = Ok F64.zero
  /\ _similarity (normalize_title (h r2)) (normalize_title (h r1)) = Ok F64.zero
  /\ F64.ltb threshold F64.zero = false
  /\ deduplicate h [r1; r2] = Ok [r1; r2].
Proof.
  intros H1 H2.
  split; [now apply similarity_empty_l|].
  split; [now apply similarity_empty_l|].
  split; [reflexivity|].
  unfold deduplicate. cbn [deduplicate_loop].
  rewrite !is_duplicate_loop_no_words by assumption. reflexivity.
Qed.

Lemma similarity_empty_titles_witness :
  _similarity (normalize_title (empty_titles 0%nat))
              (normalize_title (empty_titles 1%nat)) = Ok F64.zero
  /\ deduplicate empty_titles [0%nat; 1%nat] = Ok [0%nat; 1%nat].
Proof.
  pose proof (similarity_empty_titles empty_titles 0%nat 1%nat eq_refl eq_refl)
    as (Hsim & _ & _ & Hdedup).
  exact (conj Hsim Hdedup).
Defined.

(** C3 as stated fails: the two titles do not have similarity 1.0, and
    [deduplicate] does not return the first item alone. *)
Lemma dedup_punctuation_counterexample :
  ~ (_similarity (normalize_title (transformer_titles 0%nat))
                 (normalize_title (transformer_titles 1%nat)) = Ok F64.one
     /\ deduplicate transformer_titles [0%nat; 1%nat] = Ok [0%nat]).
Proof. vm_compute. intros [H _]. discriminate H. Qed.

(** C3, amended. Normalization leaves punctuation in place, so the last words
    "released" and "released!!" differ: the two titles share 3 words of 5,
    their similarity is 3/5 = 0.6, which is not above 0.85, and [deduplicate]
    keeps both items in their order. *)
Theorem dedup_punctuation_kept (h : heap) (r1 r2 : loc) :
  Item.title (h r1) = Some "New Transformer Model Released" ->
  Item.title (h r2) = Some "new transformer model released!!" ->
  _similarity (normalize_title (h r1)) (normalize_title (h r2))
  = Ok (F64.of_decimal false 6 (-1))
  /\ F64.ltb threshold (F64.of_decimal false 6 (-1)) = false
  /\ deduplicate h [r1; r2] = Ok [r1; r2].
Proof.
  intros H1 H2. unfold deduplicate, normalize_title. cbn [deduplicate_loop].
  unfold normalize_title. rewrite H1, H2.
  repeat split; vm_compute; reflexivity.
Qed.

Lemma dedup_punctuation_kept_witness :
  _similarity (normalize_title (transformer_titles 0%nat))
              (normalize_title (transformer_titles 1%nat))
  = Ok (F64.of_decimal false 6 (-1))
  /\ deduplicate transformer_titles [0%nat; 1%nat] = Ok [0%nat; 1%nat].
Proof.
  pose proof (dedup_punctuation_kept transformer_titles 0%nat 1%nat
                eq_refl eq_refl) as (Hsim & _ & Hdedup).
  exact (conj Hsim Hdedup).
Defined.

(** Running the loop again over its own result, from the same set of seen
    titles, takes the same decisions. *)
Lemma deduplicate_loop_idem (h : heap) (items : list loc) :
  forall (seen_titles : gset string) (out : list loc),
    deduplicate_loop h seen_titles items = Ok out ->
    deduplicate_loop h seen_titles out = Ok out.
Proof.
  induction items as [|item rest IH]; intros seen out H; simpl in H.
  - injection H as <-. reflexivity.
  - destruct (is_duplicate_loop (normalize_title (h item)) (elements seen))
      as [[|]|e] eqn:Hdup; simpl in H; try discriminate.
    + eauto.
    + destruct (deduplicate_loop h ({[normalize_title (h item)]} ∪ seen) rest)
        as [u|e] eqn:Hrest; simpl in H; try discriminate.
      injection H as <-. simpl. rewrite Hdup. simpl.
      rewrite (IH _ _ Hrest). reflexivity.
Qed.

(** [_similarity] always returns. *)
Lemma similarity_total (s1 s2 : string) : exists f, _similarity s1 s2 = Ok f.
Proof.
  unfold _similarity.
  destruct (bool_decide (word_set s1 = ∅)) eqn:H1; [eauto|].
  destruct (bool_decide (word_set s2 = ∅)) eqn:H2; [eauto|]. cbn [orb].
  apply bool_decide_eq_false in H1.
  assert (Hsub : (size (word_set s1 ∩ word_set s2)
                  <= size (word_set s1 ∪ word_set s2))%nat)
    by (apply subseteq_size; set_solver).
  assert (Hpos : size (word_set s1 ∪ word_set s2) ≠ 0%nat).
  { rewrite size_non_empty_iff. set_solver. }
  apply truediv_le_ok; lia.
Qed.

Lemma is_duplicate_loop_total (title : string) (seen_titles : list string) :
  exists b, is_duplicate_loop title seen_titles = Ok b.
Proof.
  induction seen_titles as [|t ts IH]; simpl; [eauto|].
  destruct (similarity_total title t) as [f ->]. simpl.
  destruct (F64.ltb threshold f); eauto.
Qed.

(** [deduplicate] always returns. *)
Lemma deduplicate_loop_total (h : heap) (items : list loc) :
  forall seen_titles : gset string,
    exists out, deduplicate_loop h seen_titles items = Ok out.
Proof.
  induction items as [|item rest IH]; intros seen; simpl; [eauto|].
  destruct (is_duplicate_loop_total (normalize_title (h item)) (elements seen))
    as [[|] ->]; simpl; [apply IH|].
  destruct (IH ({[normalize_title (h item)]} ∪ seen)) as [u ->]. simpl. eauto.
Qed.

(** C5. [deduplicate] returns a list for every list of items, and applied to
    that list it returns it unchanged. *)
Theorem deduplicate_idempotent (h : heap) (items : list loc) :
  exists out,
    deduplicate h items = Ok out /\ deduplicate h out = Ok out.
Proof.
  destruct (deduplicate_loop_total h items ∅) as [out Hout].
  exists out. split; [exact Hout|].
  apply deduplicate_loop_idem with items. exact Hout.
Qed.

(** ** Ranking *)

Lemma eqb_same_number (a b : spec_float) :
  F64.eqb a b = true -> same_number a b.
Proof.
  unfold F64.eqb, SFeqb.
  destruct a as [sa|sa| |sa ma ea], b as [sb|sb| |sb mb eb]; simpl;
    try discriminate; try (destruct sa; discriminate);
    try (destruct sb; discriminate); try tauto.
  - destruct sa, sb; simpl; intros; congruence.
  - destruct sa, sb; try discriminate;
      destruct (Z.compare_spec ea eb); try discriminate; subst;
      rewrite Pos.compare_cont_spec; unfold Pos.switch_Eq;
      destruct (Pos.compare_spec ma mb); simpl; try discriminate;
      subst; auto.
Qed.

(** Of two doubles equal to a third, none is below the other. *)
Lemma eqb_not_ltb (a b v : spec_float) :
  F64.eqb a v = true -> F64.eqb b v = true -> F64.ltb a b = false.
Proof.
  intros Ha Hb. apply eqb_same_number in Ha, Hb.
  unfold F64.ltb, SFltb.
  destruct a as [sa|sa| |sa ma ea], v as [sv|sv| |sv mv ev]; simpl in Ha;
    try contradiction;
    destruct b as [sb|sb| |sb mb eb]; simpl in Hb; try contradiction.
  - reflexivity.
  - destruct sa, sv, sb; simpl; congruence.
  - destruct Ha as (-> & -> & ->), Hb as (-> & -> & ->). simpl.
    rewrite Z.compare_refl, Pos.compare_cont_refl. now destruct sv.
Qed.

Ltac compare_cases :=
  rewrite ?Pos.compare_cont_spec; unfold Pos.switch_Eq;
  repeat match goal with
         | |- context [Z.compare ?a ?b] => destruct (Z.compare_spec a b); subst
         end;
  repeat match goal with
         | |- context [Pos.compare ?a ?b] => destruct (Pos.compare_spec a b); subst
         end;
  simpl; try discriminate; try reflexivity; intros; exfalso; lia.

Lemma ltb_asym (x y : spec_float) : F64.ltb x y = true -> F64.ltb y x = false.
Proof.
  unfold F64.ltb, SFltb, SFcompare.
  destruct x as [sx|sx| |sx mx ex], y as [sy|sy| |sy my ey];
    try discriminate; try reflexivity;
    repeat match goal with s : bool |- _ => destruct s end;
    try discriminate; try reflexivity; compare_cases.
Qed.

(** On numbers, "not below" is transitive. *)
Lemma not_ltb_trans (x y z : spec_float) :
  is_nan y = false ->
  F64.ltb x y = false -> F64.ltb y z = false -> F64.ltb x z = false.
Proof.
  unfold F64.ltb, SFltb, SFcompare.
  destruct x as [sx|sx| |sx mx ex], y as [sy|sy| |sy my ey]; try discriminate;
    destruct z as [sz|sz| |sz mz ez]; intros _;
    try reflexivity;
    repeat match goal with s : bool |- _ => destruct s end;
    try discriminate; try reflexivity; compare_cases.
Qed.

Section Sorting.

Context {A : Type} (key : A -> spec_float).

Lemma insert_desc_perm (x : A) (l : list A) : insert_desc key x l ≡ₚ x :: l.
Proof.
  induction l as [|y l IH]; simpl; [reflexivity|].
  destruct (F64.ltb (key x) (key y)); [|reflexivity].
  rewrite IH. apply Permutation_swap.
Qed.

Lemma sorted_reverse_perm (l : list A) : sorted_reverse key l ≡ₚ l.
Proof.
  induction l as [|x l IH]; simpl; [reflexivity|].
  rewrite insert_desc_perm, IH. reflexivity.
Qed.

(** Elements chosen by [P] have keys none of which is below another one:
    the elements of one score. *)
Variable P : A -> bool.
Hypothesis P_ties : forall x y, P x = true -> P y = true ->
  F64.ltb (key x) (key y) = false.

Lemma insert_desc_filter (x : A) (l : list A) :
  List.filter P (insert_desc key x l) = List.filter P (x :: l).
Proof.
  induction l as [|y l IH]; [reflexivity|].
  cbn [insert_desc].
  destruct (F64.ltb (key x) (key y)) eqn:Hlt; [|reflexivity].
  cbn [List.filter] in *. rewrite IH.
  destruct (P x) eqn:Hx, (P y) eqn:Hy; try reflexivity.
  rewrite (P_ties x y Hx Hy) in Hlt. discriminate.
Qed.

Lemma sorted_reverse_filter (l : list A) :
  List.filter P (sorted_reverse key l) = List.filter P l.
Proof.
  induction l as [|x l IH]; [reflexivity|].
  cbn [sorted_reverse foldr]. fold (sorted_reverse key l).
  rewrite insert_desc_filter. cbn [List.filter]. now rewrite IH.
Qed.

End Sorting.

(** The sort puts numbers in descending order: no element is below one that
    comes after it. *)
Lemma insert_desc_sorted {A : Type} (key : A -> spec_float) (x : A)
  (l : list A) :
  Forall (fun y => is_nan (key y) = false) l ->
  StronglySorted (descending key) l ->
  StronglySorted (descending key) (insert_desc key x l).
Proof.
  intros Hnum Hsorted. induction l as [|y l IH]; cbn [insert_desc].
  - repeat constructor.
  - apply Forall_cons in Hnum as [Hy Hnum].
    apply StronglySorted_inv in Hsorted as [Hsorted Hall].
    destruct (F64.ltb (key x) (key y)) eqn:Hlt.
    + constructor; [auto|]. rewrite insert_desc_perm.
      constructor; [|assumption]. now apply ltb_asym.
    + constructor; [now constructor|]. constructor; [exact Hlt|].
      eapply Forall_impl; [exact Hall|]. intros z Hz.
      now apply not_ltb_trans with (key y).
Qed.

Lemma sorted_reverse_sorted {A : Type} (key : A -> spec_float) (l : list A) :
  Forall (fun y => is_nan (key y) = false) l ->
  StronglySorted (descending key) (sorted_reverse key l).
Proof.
  induction l as [|x l IH]; intros Hnum; cbn [sorted_reverse foldr].
  - constructor.
  - apply Forall_cons in Hnum as [_ Hnum]. fold (sorted_reverse key l).
    apply insert_desc_sorted; [|auto]. now rewrite sorted_reverse_perm.
Qed.

(** What [rank_items] returns is the sort of its argument by the scores that
    the heap holds at the end, which are numbers. *)
Lemma rank_items_sorted (categories : dict category_config)
  (items : list loc) (category : string) (w w' : world) (out : list loc) :
  rank_items categories items category w = (Ok out, w') ->
  out = sorted_reverse (ranking_key (w_heap w')) items
  /\ Forall (fun r => is_nan (ranking_key (w_heap w') r) = false) items.
Proof.
  unfold rank_items. intros H.
  apply bind_Ok in H as ([] & w1 & Hloop & H).
  apply bind_Ok in H as (h & w2 & Hh & H).
  injection Hh as <- <-. injection H as <- <-.
  split; [reflexivity|]. apply Forall_forall.
  now apply (score_loop_not_nan _ _ _ _ _ Hloop).
Qed.

Lemma rank_items_length_perm (categories : dict category_config)
  (items : list loc) (category : string) (w w' : world) (out : list loc) :
  rank_items categories items category w = (Ok out, w') ->
  length out = length items /\ out ≡ₚ items.
Proof.
  intros H. apply rank_items_sorted in H as [-> _].
  pose proof (sorted_reverse_perm (ranking_key (w_heap w')) items) as Hperm.
  split; [now rewrite Hperm | exact Hperm].
Qed.

(** C6. When [rank_items] returns, the list it returns has the length of the
    list it was given and holds the same items, for every score the items of
    that score come in the order they had in the argument, and the scores
    descend along the list. *)
Theorem rank_items_length_stable (categories : dict category_config)
  (items : list loc) (category : string) (w w' : world) (out : list loc) :
  rank_items categories items category w = (Ok out, w') ->
  length out = length items
  /\ out ≡ₚ items
  /\ (forall v : spec_float,
       List.filter (fun r => F64.eqb (ranking_key (w_heap w') r) v) out
       = List.filter (fun r => F64.eqb (ranking_key (w_heap w') r) v) items)
  /\ StronglySorted (descending (ranking_key (w_heap w'))) out.
Proof.
  intros H. destruct (rank_items_length_perm _ _ _ _ _ _ H) as [Hlen Hperm].
  apply rank_items_sorted in H as [-> Hnum].
  split; [exact Hlen|]. split; [exact Hperm|]. split.
  - intros v. apply sorted_reverse_filter.
    intros x y Hx Hy. now apply eqb_not_ltb with v.
  - now apply sorted_reverse_sorted.
Qed.

Lemma rank_items_length_stable_witness :
  fst (rank_items models_first [0; 1; 2]%nat "models" (world_of ranking_sample))
  = Ok [2; 0; 1]%nat
  /\ length [2; 0; 1]%nat = length [0; 1; 2]%nat
  /\ List.filter
       (fun r =>
          F64.eqb
            (ranking_key
               (w_heap (snd (rank_items models_first [0; 1; 2]%nat "models"
                               (world_of ranking_sample)))) r)
            (F64.of_decimal false 60 0))
       [2; 0; 1]%nat
     = [0; 1]%nat.
Proof.
  assert (H : rank_items models_first [0; 1; 2]%nat "models" (world_of ranking_sample)
              = (Ok [2; 0; 1]%nat,
                 snd (rank_items models_first [0; 1; 2]%nat "models"
                        (world_of ranking_sample))))
    by (vm_compute; reflexivity).
  pose proof (rank_items_length_stable _ _ _ _ _ _ H)
    as (Hlen & _ & Hstable & _).
  split; [vm_compute; reflexivity|]. split; [exact Hlen|].
  rewrite Hstable. vm_compute. reflexivity.
Defined.

(** ** The run *)

(** Nothing before the rendering emits an event. *)
Lemma calculate_score_events (categories : dict category_config)
  (item : Item.t) (category : string) :
  preserves w_events (_calculate_score categories item category).
Proof. unfold _calculate_score. frame. Qed.

#[local] Hint Resolve calculate_score_events : frame.

Lemma filter_items_events (filtering : filtering_config) (items : list loc)
  (category : string) : preserves w_events (filter_items filtering items category).
Proof. induction items as [|r rest IH]; cbn [filter_items]; frame. Qed.

#[local] Hint Resolve filter_items_events : frame.

Lemma score_loop_events (categories : dict category_config)
  (items : list loc) (category : string) :
  preserves w_events (score_loop categories items category).
Proof. induction items as [|r rest IH]; cbn [score_loop]; frame. Qed.

#[local] Hint Resolve score_loop_events : frame.

Lemma rank_items_events (categories : dict category_config)
  (items : list loc) (category : string) :
  preserves w_events (rank_items categories items category).
Proof. unfold rank_items. frame. Qed.

#[local] Hint Resolve rank_items_events : frame.

Lemma filter_and_rank_loop_events (cfg : config) (entries : dict (list loc)) :
  forall filtered_content,
    preserves w_events (filter_and_rank_loop cfg entries filtered_content).
Proof.
  induction entries as [|[category items] rest IH]; intros acc;
    cbn [filter_and_rank_loop]; frame.
Qed.

Lemma collect_content_events (cfg : config) (scrape_all : source -> Z -> list loc) :
  preserves w_events (collect_content cfg scrape_all).
Proof. unfold collect_content. frame. Qed.

(** C8. When collection and filtering return and the items of all categories
    number zero, [run] returns without raising, and the run has emitted no
    event: no email was generated, saved or sent. *)
Theorem run_without_content (cfg : config)
  (scrape_all : source -> Z -> list loc)
  (generate : heap -> dict (list loc) -> result string)
  (smtp_send : string -> result unit)
  (w w1 w2 : world) (all_content filtered_content : dict (list loc)) :
  collect_content cfg scrape_all w = (Ok all_content, w1) ->
  filter_and_rank_content cfg all_content w1 = (Ok filtered_content, w2) ->
  total_items filtered_content = 0 ->
  run cfg scrape_all generate smtp_send w = (Ok tt, w2)
  /\ w_events w2 = w_events w.
Proof.
  intros Hcollect Hfilter Htotal. split.
  - unfold run, mbind, M_bind. rewrite Hcollect, Hfilter, Htotal. reflexivity.
  - pose proof (collect_content_events cfg scrape_all w) as H1.
    pose proof (filter_and_rank_loop_events cfg all_content [] w1) as H2.
    unfold filter_and_rank_content in Hfilter.
    rewrite Hcollect in H1. rewrite Hfilter in H2. simpl in *. congruence.
Qed.

Lemma run_without_content_witness :
  run newsletter_config (fun _ _ => []) (fun _ _ => Ok "") (fun _ => Ok tt)
      (world_of pipeline_sample)
  = (Ok tt, snd (run newsletter_config (fun _ _ => []) (fun _ _ => Ok "")
                     (fun _ => Ok tt) (world_of pipeline_sample)))
  /\ w_events (snd (run newsletter_config (fun _ _ => []) (fun _ _ => Ok "")
                        (fun _ => Ok tt) (world_of pipeline_sample))) = [].
Proof.
  refine (run_without_content newsletter_config (fun _ _ => [])
            (fun _ _ => Ok "") (fun _ => Ok tt) (world_of pipeline_sample)
            _ _ _ _ _ _ _);
    [vm_compute; reflexivity | vm_compute; reflexivity | reflexivity].
Defined.

(** ** Collection *)

Lemma dict_has_keys {V : Type} (d : dict V) (k : string) :
  dict_has d k = true -> k ∈ dict_keys d.
Proof.
  unfold dict_has. rewrite existsb_exists. intros (k' & Hin & Heq).
  apply String.eqb_eq in Heq. subst k'. now apply list_elem_of_In.
Qed.

Lemma in_bucket_key (d : dict (list loc)) (k : string) (r : loc) :
  in_bucket d k r -> k ∈ dict_keys d.
Proof.
  intros (items & Hin & _). unfold dict_keys.
  apply list_elem_of_fmap. exists (k, items). auto.
Qed.

Lemma dict_append_keys (d : dict (list loc)) (category : string) (item : loc) :
  dict_keys (dict_append d category item) = dict_keys d.
Proof.
  unfold dict_keys.
  induction d as [|[k items] d IH]; [reflexivity|]. cbn [dict_append].
  destruct (String.eqb k category); [reflexivity|].
  cbn [map fst]. now rewrite IH.
Qed.

Lemma dict_append_in_bucket (d : dict (list loc)) (category : string)
  (item : loc) (k : string) (r : loc) :
  in_bucket (dict_append d category item) k r ->
  in_bucket d k r \/ (k = category /\ r = item).
Proof.
  unfold in_bucket.
  induction d as [|[k' items'] d IH]; cbn [dict_append].
  - intros (items & Hin & _). now apply elem_of_nil in Hin.
  - intros (items & Hin & Hr).
    destruct (String.eqb_spec k' category) as [->|Hne].
    + apply elem_of_cons in Hin as [Heq|Hin].
      * injection Heq as -> ->. apply elem_of_app in Hr as [Hr|Hr].
        -- left. exists items'. split; [left|assumption].
        -- right. apply list_elem_of_singleton in Hr. auto.
      * left. exists items. split; [now right|assumption].
    + apply elem_of_cons in Hin as [Heq|Hin].
      * injection Heq as -> ->. left. exists items'. split; [left|assumption].
      * destruct IH as [(items0 & Hin0 & Hr0)|?]; [eauto| |auto].
        left. exists items0. split; [now right|assumption].
Qed.

Section Collection.

Variable cfg : config.
Variable scrape_all : source -> Z -> list loc.
Variable h : heap.

Local Abbreviation collected := (collected cfg h).

Lemma collected_empty : collected empty_content.
Proof.
  split; [reflexivity|]. intros k r (items & Hin & Hr).
  unfold empty_content in Hin.
  repeat (apply elem_of_cons in Hin as [Heq|Hin];
          [injection Heq as -> ->; now apply elem_of_nil in Hr|]).
  now apply elem_of_nil in Hin.
Qed.

Lemma collected_append_to_categories (item : loc) (cats : list string) :
  forall d,
    (forall c, c ∈ cats -> c ∈ categorize_item (categories cfg) (h item)) ->
    collected d -> collected (append_to_categories cats item d).
Proof.
  induction cats as [|c cats IH]; intros d Hcats Hd; cbn [append_to_categories];
    [assumption|].
  assert (Hrest : forall c', c' ∈ cats ->
            c' ∈ categorize_item (categories cfg) (h item))
    by (intros; apply Hcats; now right).
  destruct (dict_has d c); [|now apply IH].
  apply IH; [assumption|]. destruct Hd as [Hkeys Hin]. split.
  - now rewrite dict_append_keys.
  - intros k r Hb. apply dict_append_in_bucket in Hb as [Hb|[-> ->]]; [auto|].
    apply Hcats. left.
Qed.

Lemma collected_categorize_content (items : list loc) :
  forall d, collected d -> collected (_categorize_content cfg h items d).
Proof.
  induction items as [|item rest IH]; intros d Hd; cbn [_categorize_content];
    [assumption|].
  apply IH, collected_append_to_categories; auto.
Qed.

Lemma collected_collect_from (start_date : Z) (sources : list source) :
  forall d, collected d ->
    collected (collect_from cfg scrape_all h start_date sources d).
Proof.
  induction sources as [|src rest IH]; intros d Hd; cbn [collect_from];
    [assumption|].
  destruct (source_enabled cfg src); [|now apply IH].
  apply IH, collected_categorize_content, Hd.
Qed.

End Collection.

(** ** Filtering and ranking keep to the items they are given *)

Lemma filter_items_subseteq (filtering : filtering_config) (category : string)
  (items : list loc) :
  forall w out w',
    filter_items filtering items category w = (Ok out, w') -> out ⊆ items.
Proof.
  induction items as [|r rest IH]; intros w out w' H; cbn [filter_items] in H.
  - inversion H. reflexivity.
  - apply bind_Ok in H as (item & w0 & _ & H).
    destruct (_should_exclude filtering item).
    { apply IH in H. set_solver. }
    apply bind_Ok in H as (engaged & w1 & _ & H).
    destruct (negb engaged).
    { apply IH in H. set_solver. }
    apply bind_Ok in H as ([] & w2 & _ & H).
    apply bind_Ok in H as (filtered & w3 & Hrest & H).
    inversion H. subst. apply IH in Hrest. set_solver.
Qed.

Lemma deduplicate_loop_subseteq (h : heap) (items : list loc) :
  forall seen_titles out,
    deduplicate_loop h seen_titles items = Ok out -> out ⊆ items.
Proof.
  induction items as [|item rest IH]; intros seen out H; simpl in H.
  - injection H as <-. reflexivity.
  - destruct (is_duplicate_loop _ _) as [[|]|e]; simpl in H; try discriminate.
    + apply IH in H. set_solver.
    + destruct (deduplicate_loop h _ rest) as [u|e] eqn:Hrest; simpl in H;
        try discriminate.
      injection H as <-. apply IH in Hrest. set_solver.
Qed.

Lemma slice_to_subseteq {A : Type} (n : Z) (l : list A) : slice_to n l ⊆ l.
Proof.
  unfold slice_to. destruct (0 <=? n); apply sublist_subseteq, sublist_take.
Qed.

Lemma dict_set_in_bucket (d : dict (list loc)) (k : string) (v : list loc)
  (k' : string) (r : loc) :
  in_bucket (dict_set d k v) k' r -> in_bucket d k' r \/ (k' = k /\ r ∈ v).
Proof.
  unfold in_bucket. induction d as [|[k0 v0] d IH]; cbn [dict_set].
  - intros (items & Hin & Hr). apply list_elem_of_singleton in Hin.
    injection Hin as -> ->. auto.
  - intros (items & Hin & Hr).
    destruct (String.eqb_spec k0 k) as [->|Hne];
      apply elem_of_cons in Hin as [Heq|Hin].
    + injection Heq as -> ->. auto.
    + left. exists items. split; [now right|assumption].
    + injection Heq as -> ->. left. exists v0. split; [left|assumption].
    + destruct IH as [(items0 & Hin0 & Hr0)|?]; [eauto| |auto].
      left. exists items0. split; [now right|assumption].
Qed.

(** Every item of the result was in the list of its category, or in what had
    been gathered before. *)
Lemma filter_and_rank_loop_in_bucket (cfg : config) (entries : dict (list loc)) :
  forall acc w fc w',
    filter_and_rank_loop cfg entries acc w = (Ok fc, w') ->
    forall k r, in_bucket fc k r -> in_bucket acc k r \/ in_bucket entries k r.
Proof.
  induction entries as [|[category items] rest IH]; intros acc w fc w' H k r Hb;
    cbn [filter_and_rank_loop] in H.
  - inversion H. subst. auto.
  - assert (Hrest : forall k r, in_bucket rest k r ->
              in_bucket ((category, items) :: rest) k r).
    { intros k0 r0 (l & Hin & Hr). exists l. split; [now right|assumption]. }
    destruct (dict_get (categories cfg) category) as [cc|]; [|discriminate].
    destruct (negb (enabled cc)).
    { destruct (IH _ _ _ _ H k r Hb); auto. }
    apply bind_Ok in H as (filtered & w1 & Hf & H).
    apply bind_Ok in H as (deduped & w2 & Hd & H).
    apply bind_Ok in H as (ranked & w3 & Hr & H).
    apply filter_items_subseteq in Hf.
    apply rank_items_length_perm in Hr as [_ Hperm].
    assert (Hdd : deduped ⊆ filtered).
    { destruct (deduplicate_enabled (filtering cfg)).
      - apply bind_Ok in Hd as (h & w0 & _ & Hd). inversion Hd as [[Hd' Hw]].
        now apply deduplicate_loop_subseteq in Hd'.
      - inversion Hd. reflexivity. }
    destruct (IH _ _ _ _ H k r Hb) as [Hacc|Hin]; [|auto].
    apply dict_set_in_bucket in Hacc as [Hacc|[-> Hr']]; [auto|].
    right. exists items. split; [left|].
    apply Hf, Hdd. rewrite <- Hperm. exact (slice_to_subseteq _ ranked r Hr').
Qed.

(** [collect_content] reads the clock once and leaves the heap as it is. *)
Lemma collect_content_eq (cfg : config) (scrape_all : source -> Z -> list loc)
  (w : world) :
  collect_content cfg scrape_all w
  = (Ok (collect_from cfg scrape_all (w_heap w)
           (w_clock w (w_ticks w) - days_to_look_back cfg * microseconds_per_day)
           sources_in_order empty_content),
     mkWorld (w_heap w) (w_clock w) (S (w_ticks w)) (w_events w)).
Proof. reflexivity. Qed.

(** C10. An item whose categories are all outside [models],
    [creative_applications], [productivity_tools] and [product_launches] is in
    no list of the collected content, and in no list of what filtering and
    ranking return for it, whatever the configuration enables. *)
Theorem collect_content_fixed_buckets (cfg : config)
  (scrape_all : source -> Z -> list loc) (w w1 : world)
  (all_content : dict (list loc)) (r : loc) :
  collect_content cfg scrape_all w = (Ok all_content, w1) ->
  (forall c, c ∈ categorize_item (categories cfg) (w_heap w r) ->
             c ∉ dict_keys empty_content) ->
  dict_keys all_content = dict_keys empty_content
  /\ (forall k items, (k, items) ∈ all_content -> r ∉ items)
  /\ (forall filtered_content w2,
        filter_and_rank_content cfg all_content w1 = (Ok filtered_content, w2) ->
        forall k items, (k, items) ∈ filtered_content -> r ∉ items).
Proof.
  intros Hcollect Hout.
  assert (Hc : collected cfg (w_heap w) all_content).
  { rewrite collect_content_eq in Hcollect.
    assert (Hall : collect_from cfg scrape_all (w_heap w)
                     (w_clock w (w_ticks w)
                      - days_to_look_back cfg * microseconds_per_day)
                     sources_in_order empty_content = all_content)
      by congruence.
    rewrite <- Hall. apply collected_collect_from, collected_empty. }
  destruct Hc as [Hkeys Hcat].
  assert (Hno : forall k, ~ in_bucket all_content k r).
  { intros k Hb. apply (Hout k); [now apply Hcat|].
    rewrite <- Hkeys. now apply in_bucket_key with r. }
  split; [exact Hkeys|]. split.
  - intros k items Hin Hr. apply (Hno k). now exists items.
  - intros fc w2 Hfr k items Hin Hr.
    destruct (filter_and_rank_loop_in_bucket cfg all_content [] w1 fc w2 Hfr k r)
      as [(l & Hl & _)|Hb]; [now exists items| |now apply (Hno k)].
    now apply elem_of_nil in Hl.
Qed.

Lemma collect_content_fixed_buckets_witness :
  categorize_item (categories newsletter_config) (pipeline_sample 0%nat)
  = ["research_news"]
  /\ fst (collect_content newsletter_config blogs_only (world_of pipeline_sample))
     = Ok [("models", [1%nat]); ("creative_applications", []);
           ("productivity_tools", []); ("product_launches", [])]
  /\ forall k items,
       (k, items) ∈ [("models", [1%nat]); ("creative_applications", []);
                     ("productivity_tools", []); ("product_launches", [])] ->
       0%nat ∉ items.
Proof.
  split; [reflexivity|]. split; [reflexivity|].
  refine (proj1 (proj2 (collect_content_fixed_buckets newsletter_config
            blogs_only (world_of pipeline_sample)
            (snd (collect_content newsletter_config blogs_only
                    (world_of pipeline_sample)))
            _ 0%nat eq_refl _))).
  intros c Hc. apply list_elem_of_singleton in Hc. subst c.
  vm_compute. intros H. repeat (apply elem_of_cons in H as [H|H]; [discriminate|]).
  now apply elem_of_nil in H.
Defined.

(** * Further properties of the pipeline *)

(** A decidable statement about closed terms, by evaluation. *)
Ltac by_decision := apply (bool_decide_unpack _); vm_compute; exact I.

(** Membership in a list that is written out, and the absence of repetitions
    in one. *)
Ltac in_list := first [left | right; in_list].

Ltac no_repetition :=
  repeat (apply NoDup_cons; split;
          [ let H := fresh in
            intros H;
            repeat (apply elem_of_cons in H as [H|H]; [discriminate|]);
            now apply elem_of_nil in H | ]);
  apply NoDup_nil_2.

(** ** Categorization *)

Lemma matching_categories_spec (text : string) (cs : dict category_config)
  (c : string) :
  c ∈ matching_categories text cs <->
  exists cfg kws kw,
    (c, cfg) ∈ cs /\ enabled cfg = true /\ keywords cfg = Some kws
    /\ kw ∈ kws /\ Str.contains (Str.lower kw) text = true.
Proof.
  induction cs as [|[name cfg] cs IH]; cbn [matching_categories].
  - split; [intros H; now apply elem_of_nil in H|].
    intros (? & ? & ? & H & _). now apply elem_of_nil in H.
  - assert (Hhere : existsb (fun keyword => Str.contains keyword text)
                      (map Str.lower (get_or (keywords cfg) [])) = true
                    <-> exists kws kw, keywords cfg = Some kws /\ kw ∈ kws
                          /\ Str.contains (Str.lower kw) text = true).
    { rewrite existsb_exists. split.
      - intros (k & Hin & Hk). apply in_map_iff in Hin as (kw & <- & Hin).
        destruct (keywords cfg) as [kws|]; [|destruct Hin].
        exists kws, kw. split; [reflexivity|]. split; [|exact Hk].
        now apply list_elem_of_In.
      - intros (kws & kw & -> & Hin & Hk). exists (Str.lower kw).
        split; [|exact Hk]. apply in_map. now apply list_elem_of_In. }
    assert (Htail : (exists cfg0 kws kw,
                (c, cfg0) ∈ (name, cfg) :: cs /\ enabled cfg0 = true
                /\ keywords cfg0 = Some kws /\ kw ∈ kws
                /\ Str.contains (Str.lower kw) text = true)
              <-> (c = name /\ enabled cfg = true
                   /\ exists kws kw, keywords cfg = Some kws /\ kw ∈ kws
                        /\ Str.contains (Str.lower kw) text = true)
                  \/ c ∈ matching_categories text cs).
    { rewrite IH. split.
      - intros (cfg0 & kws & kw & Hin & He & Hk & Hkw & Hc).
        apply elem_of_cons in Hin as [Heq|Hin].
        + injection Heq as -> ->. left. eauto 10.
        + right. eauto 10.
      - intros [(-> & He & kws & kw & Hk & Hkw & Hc)
               |(cfg0 & kws & kw & Hin & He & Hk & Hkw & Hc)].
        + exists cfg, kws, kw. split; [left|auto].
        + exists cfg0, kws, kw. split; [now right|auto]. }
    rewrite Htail. clear Htail IH.
    destruct (enabled cfg); cbn [negb].
    + destruct (existsb _ _).
      * rewrite elem_of_cons. pose proof (proj1 Hhere eq_refl). tauto.
      * split; [tauto|]. intros [(_ & _ & H)|H]; [|exact H].
        apply Hhere in H. discriminate.
    + split; [tauto|]. intros [(_ & H & _)|H]; [discriminate|exact H].
Qed.

(** X1. [categorize_item] returns exactly the enabled categories one of whose
    keywords, in lower case, occurs in the lower-cased title and description;
    when there is none, it returns [models] for a type containing "research"
    or "paper", else [product_launches] for a type containing "product", else
    nothing. The fallback does not look at whether its category is enabled. *)
Theorem categorize_item_spec (categories : dict category_config)
  (item : Item.t) (c : string) :
  c ∈ categorize_item categories item <->
  keyword_match categories item c
  \/ ((forall c', ~ keyword_match categories item c') /\ type_fallback item c).
Proof.
  unfold categorize_item, keyword_match, type_fallback.
  pose proof (matching_categories_spec (text_of item) categories) as Hspec.
  destruct (matching_categories (text_of item) categories) as [|c0 cs] eqn:Hm.
  - assert (Hnone : forall c', ~ exists cfg kws kw,
              (c', cfg) ∈ categories /\ enabled cfg = true
              /\ keywords cfg = Some kws /\ kw ∈ kws
              /\ Str.contains (Str.lower kw) (text_of item) = true).
    { intros c' H. apply Hspec in H. now apply elem_of_nil in H. }
    cbv zeta.
    destruct (Str.contains "research" _ || Str.contains "paper" _) eqn:Hrp.
    + rewrite list_elem_of_singleton. split.
      * intros ->. right. split; [exact Hnone|]. now left.
      * intros [H|[_ [[-> _]|[_ [H _]]]]]; [now apply Hnone in H|reflexivity|discriminate].
    + destruct (Str.contains "product" _) eqn:Hp.
      * rewrite list_elem_of_singleton. split.
        -- intros ->. right. split; [exact Hnone|]. now right.
        -- intros [H|[_ [[_ H]|[-> _]]]];
             [now apply Hnone in H|discriminate|reflexivity].
      * split; [intros H; now apply elem_of_nil in H|].
        intros [H|[_ [[_ H]|[_ [_ H]]]]];
          [now apply Hnone in H|discriminate|discriminate].
  - rewrite Hspec. split; [now left|].
    intros [H|[Hnone _]]; [exact H|].
    exfalso. apply (Hnone c0). apply Hspec. left.
Qed.

(** ** Filtering *)

Lemma bind_Raise {A B : Type} (m : M A) (k : A -> M B) (w w' : world) (e : exn) :
  (m ≫= k) w = (Raise e, w') ->
  m w = (Raise e, w')
  \/ exists a w1, m w = (Ok a, w1) /\ k a w1 = (Raise e, w').
Proof.
  unfold mbind, M_bind. destruct (m w) as [[a|e0] w1]; [eauto|].
  intros H. left. congruence.
Qed.

(** The mark does not change what the checks see. *)
Lemma passes_set_untrusted (filtering : filtering_config) (b : bool)
  (item : Item.t) :
  passes filtering (Item.set_untrusted_source b item) = passes filtering item.
Proof. destruct item. reflexivity. Qed.

Lemma marks_untrusted_set_untrusted (filtering : filtering_config) (b : bool)
  (item : Item.t) :
  marks_untrusted filtering (Item.set_untrusted_source b item)
  = marks_untrusted filtering item.
Proof. destruct item. reflexivity. Qed.

Lemma set_untrusted_twice (item : Item.t) :
  Item.set_untrusted_source true (Item.set_untrusted_source true item)
  = Item.set_untrusted_source true item.
Proof. destruct item. reflexivity. Qed.

(** The engagement gate of [filter_items] on one item. *)
Lemma gate_Ok (filtering : filtering_config) (item : Item.t) (engaged : bool)
  (w w1 : world) :
  _should_exclude filtering item = false ->
  (if require_engagement filtering then lift (_has_engagement item)
   else mret true) w = (Ok engaged, w1) ->
  w1 = w /\ passes filtering item = Ok engaged.
Proof.
  intros Hex. unfold passes. rewrite Hex.
  destruct (require_engagement filtering); intros H.
  - unfold lift in H. injection H as H <-. auto.
  - injection H as <- <-. auto.
Qed.

(** The trust annotation of [filter_items] on one item. *)
Lemma annotation_Ok (filtering : filtering_config) (r : loc) (w w2 : world) (u : unit) :
  match get_or (trusted_domains filtering) [] with
  | [] => mret tt
  | _ =>
      if negb (_is_trusted_domain filtering (w_heap w r))
      then write r (Item.set_untrusted_source true (w_heap w r))
      else mret tt
  end w = (Ok u, w2) ->
  w2 = if marks_untrusted filtering (w_heap w r)
       then mkWorld (<[r := Item.set_untrusted_source true (w_heap w r)]> (w_heap w))
                    (w_clock w) (w_ticks w) (w_events w)
       else w.
Proof.
  unfold marks_untrusted.
  destruct (get_or (trusted_domains filtering) []);
    [|destruct (negb _)]; intros H; now injection H as <-.
Qed.

(** What a successful [filter_items] returns and what it leaves behind. *)
Lemma filter_items_Ok (filtering : filtering_config) (category : string)
  (items : list loc) :
  forall w out w',
    filter_items filtering items category w = (Ok out, w') ->
    out = List.filter (fun r => passes_b filtering (w_heap w r)) items
    /\ (forall r,
          w_heap w' r
          = if bool_decide (r ∈ out) && marks_untrusted filtering (w_heap w r)
            then Item.set_untrusted_source true (w_heap w r)
            else w_heap w r)
    /\ w_clock w' = w_clock w /\ w_ticks w' = w_ticks w
    /\ w_events w' = w_events w.
Proof.
  induction items as [|r0 rest IH]; intros w out w' H; cbn [filter_items] in H.
  - injection H as <- <-. repeat split.
  - apply bind_Ok in H as (item & w0 & Hread & H). injection Hread as <- <-.
    cbn [List.filter]. unfold passes_b at 1.
    destruct (_should_exclude filtering (w_heap w r0)) eqn:Hex.
    { unfold passes. rewrite Hex. now apply IH. }
    apply bind_Ok in H as (engaged & w1 & Hgate & H).
    apply (gate_Ok _ _ _ _ _ Hex) in Hgate as [-> Hpass]. rewrite Hpass.
    destruct engaged; cbn [negb] in H; [|now apply IH].
    apply bind_Ok in H as (u & w2 & Hann & H).
    apply annotation_Ok in Hann.
    apply bind_Ok in H as (filtered & w3 & Hrest & H).
    injection H as <- <-.
    destruct (IH _ _ _ Hrest) as (Hout & Hheap & Hclock & Hticks & Hevents).
    assert (Hsame : forall r, w_heap w2 r = w_heap w r
                              \/ w_heap w2 r
                                 = Item.set_untrusted_source true (w_heap w r)).
    { intros r. subst w2. destruct (marks_untrusted _ _); [|now left].
      cbn [w_heap]. destruct (decide (r0 = r)) as [<-|Hne].
      - right. apply fn_lookup_insert.
      - left. now apply fn_lookup_insert_ne. }
    assert (Hp : forall r, passes_b filtering (w_heap w2 r)
                           = passes_b filtering (w_heap w r)).
    { intros r. unfold passes_b.
      destruct (Hsame r) as [-> | ->]; [reflexivity|].
      now rewrite passes_set_untrusted. }
    assert (Hm : forall r, marks_untrusted filtering (w_heap w2 r)
                           = marks_untrusted filtering (w_heap w r)).
    { intros r. destruct (Hsame r) as [-> | ->]; [reflexivity|].
      apply marks_untrusted_set_untrusted. }
    split.
    { f_equal. rewrite Hout. apply List.filter_ext. intros r. apply Hp. }
    split.
    { intros r. rewrite Hheap, Hm. clear Hheap.
      destruct (decide (r = r0)) as [->|Hne].
      - rewrite (bool_decide_eq_true_2 (r0 ∈ r0 :: filtered)) by left.
        cbn [andb]. subst w2.
        destruct (marks_untrusted filtering (w_heap w r0)) eqn:Hmark.
        + cbn [w_heap]. rewrite fn_lookup_insert, set_untrusted_twice.
          now destruct (bool_decide _ && _).
        + now rewrite andb_false_r.
      - assert (Hin : bool_decide (r ∈ r0 :: filtered) = bool_decide (r ∈ filtered)).
        { apply bool_decide_ext. rewrite elem_of_cons. tauto. }
        rewrite Hin.
        assert (Hr : w_heap w2 r = w_heap w r).
        { subst w2. destruct (marks_untrusted _ _); [|reflexivity].
          cbn [w_heap]. apply fn_lookup_insert_ne. congruence. }
        now rewrite Hr. }
    subst w2. rewrite Hclock, Hticks, Hevents.
    now destruct (marks_untrusted _ _).
Qed.

(** X2. When [filter_items] returns, its result is the list of the items it
    was given that pass the exclusion check and the engagement gate, in their
    order: the trust check drops nothing. *)
Theorem filter_items_keeps_passing (filtering : filtering_config)
  (category : string) (items out : list loc) (w w' : world) :
  filter_items filtering items category w = (Ok out, w') ->
  out = List.filter (fun r => passes_b filtering (w_heap w r)) items.
Proof. intros H. now apply filter_items_Ok in H. Qed.

Lemma filter_items_keeps_passing_witness :
  fst filter_run = Ok [1; 2]%nat
  /\ [1; 2]%nat
     = List.filter (fun r => passes_b strict_filtering (filter_sample r))
         [0; 1; 2; 3]%nat.
Proof.
  assert (H : filter_run = (Ok [1; 2]%nat, snd filter_run))
    by (vm_compute; reflexivity).
  split; [vm_compute; reflexivity|].
  exact (filter_items_keeps_passing _ _ _ _ _ _ H).
Defined.

(** X3. [filter_items] changes nothing but the mark of the items it keeps
    whose URL contains none of the configured trusted domains, which becomes
    true; a mark that is already set is never cleared, and the clock and the
    events are left alone. *)
Theorem filter_items_marks (filtering : filtering_config)
  (category : string) (items out : list loc) (w w' : world) :
  filter_items filtering items category w = (Ok out, w') ->
  (forall r,
     w_heap w' r
     = if bool_decide (r ∈ out) && marks_untrusted filtering (w_heap w r)
       then Item.set_untrusted_source true (w_heap w r)
       else w_heap w r)
  /\ w_clock w' = w_clock w /\ w_ticks w' = w_ticks w
  /\ w_events w' = w_events w.
Proof. intros H. now apply filter_items_Ok in H. Qed.

Lemma filter_items_marks_witness :
  fst filter_run = Ok [1; 2]%nat
  /\ w_heap (snd filter_run) 1%nat = filter_sample 1%nat
  /\ w_heap (snd filter_run) 2%nat
     = Item.set_untrusted_source true (filter_sample 2%nat)
  /\ w_heap (snd filter_run) 3%nat = filter_sample 3%nat.
Proof.
  assert (H : filter_run = (Ok [1; 2]%nat, snd filter_run))
    by (vm_compute; reflexivity).
  pose proof (filter_items_marks _ _ _ _ _ _ H) as (Hheap & _).
  split; [vm_compute; reflexivity|].
  split; [|split]; rewrite Hheap; vm_compute; reflexivity.
Defined.

Lemma has_engagement_raises (item : Item.t) (e : exn) :
  _has_engagement item = Raise e -> e = OverflowError.
Proof.
  unfold _has_engagement, mbind, result_bind.
  repeat match goal with
         | |- context [to_int ?v] =>
             let H := fresh "H" in
             destruct (to_int v) eqn:H;
             [|apply to_int_raises_overflow_only in H; congruence]
         end.
  discriminate.
Qed.

(** When [filter_items] raises, the exception is the one that the engagement
    gate raises on one of the items. *)
Lemma filter_items_Raise (filtering : filtering_config) (category : string)
  (items : list loc) :
  forall w w' e,
    filter_items filtering items category w = (Raise e, w') ->
    exists r, r ∈ items /\ passes filtering (w_heap w r) = Raise e.
Proof.
  induction items as [|r0 rest IH]; intros w w' e H;
    cbn [filter_items] in H; [discriminate|].
  assert (Hrest : forall w0,
            filter_items filtering rest category w0 = (Raise e, w') ->
            (forall r, passes filtering (w_heap w0 r)
                       = passes filtering (w_heap w r)) ->
            exists r, r ∈ r0 :: rest /\ passes filtering (w_heap w r) = Raise e).
  { intros w0 H0 Hsame. destruct (IH _ _ _ H0) as (r & Hr & Hp).
    exists r. split; [now right|]. now rewrite <- Hsame. }
  apply bind_Raise in H as [H|(item & w0 & Hread & H)]; [discriminate|].
  injection Hread as <- <-.
  destruct (_should_exclude filtering (w_heap w r0)) eqn:Hex; [eauto|].
  apply bind_Raise in H as [H|(engaged & w1 & Hgate & H)].
  - exists r0. split; [left|]. unfold passes. rewrite Hex.
    destruct (require_engagement filtering); [|discriminate].
    unfold lift in H. now injection H as ->.
  - apply (gate_Ok _ _ _ _ _ Hex) in Hgate as [-> _].
    destruct (negb engaged); [eauto|].
    apply bind_Raise in H as [H|(u & w2 & Hann & H)].
    + destruct (get_or (trusted_domains filtering) []);
        [|destruct (negb _)]; discriminate.
    + apply annotation_Ok in Hann.
      apply bind_Raise in H as [H|(filtered & w3 & _ & H)]; [|discriminate].
      apply (Hrest _ H). intros r. subst w2.
      destruct (marks_untrusted _ _); [|reflexivity]. cbn [w_heap].
      destruct (decide (r0 = r)) as [<-|Hne].
      * now rewrite fn_lookup_insert, passes_set_untrusted.
      * now rewrite fn_lookup_insert_ne.
Qed.

Lemma passes_raises (filtering : filtering_config) (item : Item.t) (e : exn) :
  passes filtering item = Raise e ->
  e = OverflowError /\ require_engagement filtering = true.
Proof.
  unfold passes. intros Hp.
  destruct (_should_exclude filtering item); [discriminate|].
  destruct (require_engagement filtering); [|discriminate].
  split; [|reflexivity]. now apply has_engagement_raises in Hp.
Qed.



(** A list all of whose items pass is returned whole. *)
Lemma filter_items_all_pass (filtering : filtering_config) (category : string)
  (items : list loc) (w : world) :
  (forall r, r ∈ items -> passes filtering (w_heap w r) = Ok true) ->
  exists w', filter_items filtering items category w = (Ok items, w').
Proof.
  intros Hall.
  destruct (filter_items filtering items category w) as [[out|e] w'] eqn:H.
  - exists w'. f_equal. f_equal. apply filter_items_Ok in H as (-> & _).
    clear -Hall. induction items as [|r0 rest IH]; [reflexivity|].
    cbn [List.filter]. unfold passes_b at 1. rewrite Hall by left.
    f_equal. apply IH. intros r Hr. apply Hall. now right.
  - apply filter_items_Raise in H as (r & Hr & Hp).
    rewrite Hall in Hp by assumption. discriminate.
Qed.

(** X5. [filter_items] is idempotent on lists: applied to its own result, in
    the world it left, it returns that result again. *)
Theorem filter_items_idempotent (filtering : filtering_config)
  (category category' : string) (items out : list loc) (w w' : world) :
  filter_items filtering items category w = (Ok out, w') ->
  exists w'', filter_items filtering out category' w' = (Ok out, w'').
Proof.
  intros H. apply filter_items_Ok in H as (Hout & Hheap & _).
  apply filter_items_all_pass. intros r Hr.
  assert (Hp : passes_b filtering (w_heap w r) = true).
  { rewrite Hout in Hr. apply list_elem_of_In, List.filter_In in Hr. tauto. }
  assert (Hpass : passes filtering (w_heap w r) = Ok true).
  { unfold passes_b in Hp.
    destruct (passes filtering (w_heap w r)) as [[|]|]; congruence. }
  rewrite Hheap. destruct (_ && _); [|exact Hpass].
  now rewrite passes_set_untrusted.
Qed.

Lemma filter_items_idempotent_witness :
  fst filter_run = Ok [1; 2]%nat
  /\ exists w'',
       filter_items strict_filtering [1; 2]%nat "product_launches"
         (snd filter_run)
       = (Ok [1; 2]%nat, w'').
Proof.
  assert (H : filter_run = (Ok [1; 2]%nat, snd filter_run))
    by (vm_compute; reflexivity).
  split; [vm_compute; reflexivity|].
  exact (filter_items_idempotent _ "models" "product_launches" _ _ _ _ H).
Defined.

(** X6. With engagement required, an item none of whose four engagement
    fields is present or positive is dropped: items of the sources that report
    no engagement never get through. *)
Theorem filter_items_requires_engagement (filtering : filtering_config)
  (category : string) (items out : list loc) (w w' : world) (r : loc) :
  require_engagement filtering = true ->
  filter_items filtering items category w = (Ok out, w') ->
  _has_engagement (w_heap w r) = Ok false ->
  r ∉ out.
Proof.
  intros Hreq H Hnone Hr. apply filter_items_Ok in H as (Hout & _).
  rewrite Hout in Hr. apply list_elem_of_In, List.filter_In in Hr as [_ Hp].
  unfold passes_b, passes in Hp. rewrite Hreq, Hnone in Hp.
  now destruct (_should_exclude filtering (w_heap w r)).
Qed.

Lemma filter_items_requires_engagement_witness :
  fst filter_run = Ok [1; 2]%nat
  /\ _has_engagement (filter_sample 3%nat) = Ok false
  /\ 3%nat ∉ [1; 2]%nat.
Proof.
  assert (H : filter_run = (Ok [1; 2]%nat, snd filter_run))
    by (vm_compute; reflexivity).
  assert (He : _has_engagement (filter_sample 3%nat) = Ok false)
    by (vm_compute; reflexivity).
  split; [vm_compute; reflexivity|]. split; [exact He|].
  exact (filter_items_requires_engagement strict_filtering _ _ _ _ _ 3%nat eq_refl H He).
Defined.

(** ** Similarity and deduplication, continued *)

(** X7. The similarity of two texts does not depend on their order. *)
Theorem similarity_sym (s1 s2 : string) : _similarity s1 s2 = _similarity s2 s1.
Proof.
  unfold _similarity.
  rewrite (orb_comm (bool_decide (word_set s1 = ∅))).
  now rewrite (comm_L (∩) (word_set s1)), (comm_L (∪) (word_set s1)).
Qed.

Lemma div_eucl_mul (p : positive) (k : Z) :
  Z.div_eucl (Zpos p * k) (Zpos p) = (k, 0).
Proof.
  pose proof (Z.div_mul k (Zpos p) ltac:(lia)) as Hq.
  pose proof (Z.mod_mul k (Zpos p) ltac:(lia)) as Hr.
  rewrite (Z.mul_comm k) in Hq, Hr. unfold Z.div, Z.modulo in Hq, Hr.
  destruct (Z.div_eucl (Zpos p * k) (Zpos p)) as [q r]. congruence.
Qed.

(** A positive integer divided by itself is the double 1.0. *)
Lemma truediv_self (n : Z) : 0 < n -> F64.truediv n n = Ok F64.one.
Proof.
  intros Hn. destruct n as [|p|p]; try lia.
  unfold F64.truediv. cbn [Z.eqb F64.exact]. unfold SFdiv, SFdiv_core_binary.
  assert (H0 : Zdigits2 (Zpos p) + 0 - (Zdigits2 (Zpos p) + 0) = 0) by lia.
  rewrite H0. clear H0.
  change (Z.min (fexp F64.prec F64.emax 0) (0 - 0)) with (-53).
  change (0 - 0 - -53) with 53. cbv match.
  rewrite Z.shiftl_mul_pow2 by lia. rewrite div_eucl_mul.
  assert (Hloc : new_location (Zpos p) 0 = loc_Exact)
    by (unfold new_location; now destruct (Z.even (Zpos p))).
  rewrite Hloc. vm_compute. reflexivity.
Qed.

Lemma similarity_same (s : string) :
  word_set s <> ∅ -> _similarity s s = Ok F64.one.
Proof.
  intros Hne. unfold _similarity.
  rewrite (bool_decide_eq_false_2 _ Hne). cbn [orb].
  rewrite (idemp_L (∩)), (idemp_L (∪)). apply truediv_self.
  assert (size (word_set s) ≠ 0%nat)
    by (rewrite size_non_empty_iff; set_solver).
  lia.
Qed.

(** X8. A text that has a word is similar to itself with similarity 1.0,
    above the threshold. *)
Theorem similarity_self (s : string) :
  word_set s <> ∅ ->
  _similarity s s = Ok F64.one /\ F64.ltb threshold F64.one = true.
Proof. intros Hne. split; [now apply similarity_same|reflexivity]. Qed.

Lemma similarity_self_witness :
  _similarity "new model" "new model" = Ok F64.one
  /\ F64.ltb threshold F64.one = true.
Proof. apply (similarity_self "new model"). by_decision. Defined.

Lemma is_duplicate_loop_false (title : string) (seen_titles : list string) :
  is_duplicate_loop title seen_titles = Ok false ->
  forall t, t ∈ seen_titles -> ~ similar title t.
Proof.
  induction seen_titles as [|t0 ts IH]; cbn [is_duplicate_loop]; intros H t Ht.
  - now apply elem_of_nil in Ht.
  - unfold mbind, result_bind in H.
    destruct (_similarity title t0) as [f|e] eqn:Hsim; [|discriminate].
    destruct (F64.ltb threshold f) eqn:Hlt; [discriminate|].
    apply elem_of_cons in Ht as [->|Ht]; [|now apply IH].
    intros (g & Hg & Hgt). congruence.
Qed.

Lemma is_duplicate_loop_true (title : string) (seen_titles : list string) :
  is_duplicate_loop title seen_titles = Ok true ->
  exists t, t ∈ seen_titles /\ similar title t.
Proof.
  induction seen_titles as [|t0 ts IH]; cbn [is_duplicate_loop]; intros H;
    [discriminate|].
  unfold mbind, result_bind in H.
  destruct (_similarity title t0) as [f|e] eqn:Hsim; [|discriminate].
  destruct (F64.ltb threshold f) eqn:Hlt.
  - exists t0. split; [left|]. now exists f.
  - destruct (IH H) as (t & Ht & Hs). exists t. split; [now right|exact Hs].
Qed.

(** What the outer loop of [deduplicate] keeps, for any set of titles seen
    before. *)
Lemma deduplicate_loop_inv (h : heap) (items : list loc) :
  forall (seen_titles : gset string) (out : list loc),
    deduplicate_loop h seen_titles items = Ok out ->
    sublist out items
    /\ Forall (fun r => forall t, t ∈ seen_titles ->
                 ~ similar (normalize_title (h r)) t) out
    /\ StronglySorted
         (fun a b => ~ similar (normalize_title (h b)) (normalize_title (h a)))
         out
    /\ forall r, r ∈ items ->
         r ∈ out
         \/ (exists t, t ∈ seen_titles /\ similar (normalize_title (h r)) t)
         \/ exists r', r' ∈ out
              /\ similar (normalize_title (h r)) (normalize_title (h r')).
Proof.
  induction items as [|item rest IH]; intros seen out H; simpl in H.
  - injection H as <-.
    split; [constructor|]. split; [constructor|]. split; [constructor|].
    intros r Hr. now apply elem_of_nil in Hr.
  - destruct (is_duplicate_loop (normalize_title (h item)) (elements seen))
      as [[|]|e] eqn:Hdup; simpl in H; try discriminate.
    + destruct (IH _ _ H) as (Hsub & Hseen & Hpair & Hmax).
      split; [now apply sublist_cons|]. split; [exact Hseen|].
      split; [exact Hpair|].
      intros r Hr. apply elem_of_cons in Hr as [->|Hr]; [|auto].
      right. left. apply is_duplicate_loop_true in Hdup as (t & Ht & Hs).
      exists t. split; [|exact Hs]. now apply elem_of_elements.
    + destruct (deduplicate_loop h ({[normalize_title (h item)]} ∪ seen) rest)
        as [u|e] eqn:Hrest; simpl in H; try discriminate.
      injection H as <-.
      destruct (IH _ _ Hrest) as (Hsub & Hseen & Hpair & Hmax).
      pose proof (is_duplicate_loop_false _ _ Hdup) as Hnew.
      split; [now apply sublist_skip|]. split.
      { constructor.
        - intros t Ht. apply Hnew. now apply elem_of_elements.
        - eapply Forall_impl; [exact Hseen|]. intros r Hr t Ht.
          apply Hr. set_solver. }
      split.
      { constructor; [exact Hpair|].
        eapply Forall_impl; [exact Hseen|]. intros r Hr. apply Hr. set_solver. }
      intros r Hr. apply elem_of_cons in Hr as [->|Hr]; [left; left|].
      destruct (Hmax r Hr) as [Hin|[(t & Ht & Hs)|(r' & Hr' & Hs)]].
      * left. now right.
      * apply elem_of_union in Ht as [Ht|Ht].
        -- apply elem_of_singleton in Ht. subst t.
           right. right. exists item. split; [left|exact Hs].
        -- right. left. eauto.
      * right. right. exists r'. split; [now right|exact Hs].
Qed.

(** X9. What [deduplicate] returns is a sublist of its argument, in the same
    order, and it begins with the first item of the argument. *)
Theorem deduplicate_sublist (h : heap) (items out : list loc) :
  deduplicate h items = Ok out ->
  sublist out items /\ head out = head items.
Proof.
  intros H. split; [now apply deduplicate_loop_inv in H|].
  destruct items as [|r rest]; unfold deduplicate in H; simpl in H.
  - now injection H as <-.
  - rewrite elements_empty in H. simpl in H.
    destruct (deduplicate_loop h _ rest) as [u|e]; simpl in H;
      [now injection H as <-|discriminate].
Qed.

Lemma deduplicate_sublist_witness :
  deduplicate repeated_titles [0; 1; 2]%nat = Ok [0; 2]%nat
  /\ sublist [0; 2]%nat [0; 1; 2]%nat
  /\ head [0; 2]%nat = head [0; 1; 2]%nat.
Proof.
  assert (H : deduplicate repeated_titles [0; 1; 2]%nat = Ok [0; 2]%nat)
    by (vm_compute; reflexivity).
  split; [exact H|]. exact (deduplicate_sublist _ _ _ H).
Defined.

(** X10. In what [deduplicate] returns no item is a duplicate of an item
    before it: the similarity of the two normalized titles is not above the
    threshold. *)
Theorem deduplicate_pairwise (h : heap) (items out : list loc) :
  deduplicate h items = Ok out ->
  StronglySorted
    (fun a b => ~ similar (normalize_title (h b)) (normalize_title (h a))) out.
Proof. intros H. now apply deduplicate_loop_inv in H. Qed.

Lemma deduplicate_pairwise_witness :
  deduplicate repeated_titles [0; 1; 2]%nat = Ok [0; 2]%nat
  /\ StronglySorted
       (fun a b =>
          ~ similar (normalize_title (repeated_titles b))
                    (normalize_title (repeated_titles a)))
       [0; 2]%nat.
Proof.
  assert (H : deduplicate repeated_titles [0; 1; 2]%nat = Ok [0; 2]%nat)
    by (vm_compute; reflexivity).
  split; [exact H|]. exact (deduplicate_pairwise _ _ _ H).
Defined.

(** X11. Every item that [deduplicate] drops is a duplicate of an item that
    it keeps. *)
Theorem deduplicate_drops_duplicates (h : heap) (items out : list loc) (r : loc) :
  deduplicate h items = Ok out ->
  r ∈ items ->
  r ∈ out
  \/ exists r', r' ∈ out
       /\ similar (normalize_title (h r)) (normalize_title (h r')).
Proof.
  intros H Hr. apply deduplicate_loop_inv in H as (_ & _ & _ & Hmax).
  destruct (Hmax r Hr) as [?|[(t & Ht & _)|?]]; [auto| |auto].
  now apply not_elem_of_empty in Ht.
Qed.

Lemma deduplicate_drops_duplicates_witness :
  deduplicate repeated_titles [0; 1; 2]%nat = Ok [0; 2]%nat
  /\ (1%nat ∈ [0; 2]%nat
      \/ exists r', r' ∈ [0; 2]%nat
           /\ similar (normalize_title (repeated_titles 1%nat))
                      (normalize_title (repeated_titles r'))).
Proof.
  assert (H : deduplicate repeated_titles [0; 1; 2]%nat = Ok [0; 2]%nat)
    by (vm_compute; reflexivity).
  split; [exact H|].
  apply (deduplicate_drops_duplicates _ _ _ 1%nat H). by_decision.
Defined.

(** X12. The result of [deduplicate] holds no two items, at different places,
    whose normalized titles are equal and have a word: titles that differ in
    case or in white space only are kept once. *)
Theorem deduplicate_distinct_titles (h : heap) (items out : list loc)
  (i j : nat) (a b : loc) :
  deduplicate h items = Ok out ->
  (i < j)%nat -> out !! i = Some a -> out !! j = Some b ->
  word_set (normalize_title (h a)) <> ∅ ->
  normalize_title (h a) <> normalize_title (h b).
Proof.
  intros H Hij Ha Hb Hwords Heq.
  apply deduplicate_loop_inv in H as (_ & _ & H & _).
  assert (Hord : forall l, StronglySorted
            (fun a b => ~ similar (normalize_title (h b)) (normalize_title (h a))) l ->
            forall i j a b, (i < j)%nat -> l !! i = Some a -> l !! j = Some b ->
            ~ similar (normalize_title (h b)) (normalize_title (h a))).
  { clear. intros l Hl. induction Hl as [|x l Hl IH Hall]; intros i j a b Hij Ha Hb.
    - discriminate.
    - destruct j as [|j]; [lia|]. destruct i as [|i].
      + injection Ha as <-. cbn in Hb.
        rewrite Forall_forall in Hall. apply Hall.
        now apply list_elem_of_lookup_2 in Hb.
      + cbn in Ha, Hb. apply (IH i j); [lia|assumption..]. }
  apply (Hord out H i j a b Hij Ha Hb). rewrite <- Heq.
  exists F64.one. split; [now apply similarity_same|reflexivity].
Qed.

Lemma deduplicate_distinct_titles_witness :
  deduplicate repeated_titles [0; 1; 2]%nat = Ok [0; 2]%nat
  /\ normalize_title (repeated_titles 0%nat)
     <> normalize_title (repeated_titles 2%nat).
Proof.
  assert (H : deduplicate repeated_titles [0; 1; 2]%nat = Ok [0; 2]%nat)
    by (vm_compute; reflexivity).
  split; [exact H|].
  apply (deduplicate_distinct_titles _ _ _ 0%nat 1%nat 0%nat 2%nat H);
    [lia | reflexivity | reflexivity | by_decision].
Defined.

(** X13. An item whose normalized title has no word is never dropped by
    [deduplicate]: all the items without a title come through. *)
Theorem deduplicate_keeps_wordless (h : heap) (items out : list loc) (r : loc) :
  deduplicate h items = Ok out ->
  r ∈ items ->
  word_set (normalize_title (h r)) = ∅ ->
  r ∈ out.
Proof.
  intros H Hr Hwords.
  apply deduplicate_loop_inv in H as (_ & _ & _ & Hmax).
  destruct (Hmax r Hr) as [?|[(t & Ht & _)|(r' & _ & f & Hsim & Hlt)]];
    [assumption|now apply not_elem_of_empty in Ht|].
  rewrite similarity_empty_l in Hsim by assumption.
  injection Hsim as <-. discriminate.
Qed.

Lemma deduplicate_keeps_wordless_witness :
  deduplicate empty_titles [0; 1]%nat = Ok [0; 1]%nat
  /\ 1%nat ∈ [0; 1]%nat.
Proof.
  assert (H : deduplicate empty_titles [0; 1]%nat = Ok [0; 1]%nat)
    by (vm_compute; reflexivity).
  split; [exact H|].
  apply (deduplicate_keeps_wordless _ _ _ 1%nat H); by_decision.
Defined.

(** ** Ranking, continued *)

Lemma set_ranking_score_twice (f g : spec_float) (item : Item.t) :
  Item.set_ranking_score g (Item.set_ranking_score f item)
  = Item.set_ranking_score g item.
Proof. destruct item. reflexivity. Qed.

(** The score does not look at the score of a previous run. *)
Lemma calculate_score_set_ranking_score (categories : dict category_config)
  (f : spec_float) (item : Item.t) (category : string) :
  _calculate_score categories (Item.set_ranking_score f item) category
  = _calculate_score categories item category.
Proof. destruct item. reflexivity. Qed.

(** What the first loop of [rank_items] leaves in the heap. *)
Lemma score_loop_heap (categories : dict category_config) (category : string)
  (items : list loc) :
  forall w w',
    score_loop categories items category w = (Ok tt, w') ->
    forall r,
      (r ∉ items -> w_heap w' r = w_heap w r)
      /\ (r ∈ items ->
          exists f, w_heap w' r = Item.set_ranking_score f (w_heap w r)
                    /\ is_nan f = false).
Proof.
  induction items as [|r0 rest IH]; intros w w' H r; cbn [score_loop] in H.
  - injection H as <-. split; [reflexivity|].
    intros Hr. now apply elem_of_nil in Hr.
  - apply bind_Ok in H as (item & w0 & Hitem & H). injection Hitem as <- <-.
    apply bind_Ok in H as (score & w1 & Hscore & H).
    apply bind_Ok in H as ([] & w2 & Hwrite & H).
    pose proof (calculate_score_heap categories (w_heap w r0) category w)
      as Hheap.
    rewrite Hscore in Hheap. cbn [snd] in Hheap.
    apply calculate_score_not_nan in Hscore.
    injection Hwrite as <-. destruct (IH _ _ H r) as [Hout Hin].
    cbn [w_heap] in Hout, Hin. rewrite Hheap in Hout, Hin.
    destruct (decide (r = r0)) as [->|Hne].
    + split; [intros Hr; exfalso; apply Hr; left|]. intros _.
      destruct (decide (r0 ∈ rest)) as [Hrest|Hrest].
      * destruct (Hin Hrest) as (f & Hf & Hnan). exists f.
        rewrite Hf, fn_lookup_insert, set_ranking_score_twice. auto.
      * exists score. rewrite (Hout Hrest), fn_lookup_insert. auto.
    + rewrite fn_lookup_insert_ne in Hout, Hin by congruence. split.
      * intros Hr. apply Hout. intros Hr'. apply Hr. now right.
      * intros Hr. apply elem_of_cons in Hr as [?|Hr]; [contradiction|auto].
Qed.

(** X14. [rank_items] changes nothing in the items but their
    [_ranking_score]: an item of the list gets a score, which is a number and
    never NaN, and keeps its other fields, the mark of the filter among them;
    an item outside the list is not touched, and no event is emitted. *)
Theorem rank_items_attaches_scores (categories : dict category_config)
  (items out : list loc) (category : string) (w w' : world) :
  rank_items categories items category w = (Ok out, w') ->
  (forall r, r ∉ items -> w_heap w' r = w_heap w r)
  /\ (forall r, r ∈ items ->
        exists f, w_heap w' r = Item.set_ranking_score f (w_heap w r)
                  /\ is_nan f = false)
  /\ w_events w' = w_events w.
Proof.
  intros H. pose proof (rank_items_events categories items category w) as Hev.
  rewrite H in Hev. cbn [snd] in Hev.
  unfold rank_items in H.
  apply bind_Ok in H as ([] & w1 & Hloop & H).
  apply bind_Ok in H as (h & w2 & Hh & H).
  injection Hh as <- <-. injection H as <- <-.
  split; [intros r; now apply (score_loop_heap _ _ _ _ _ Hloop)|].
  split; [intros r; now apply (score_loop_heap _ _ _ _ _ Hloop)|exact Hev].
Qed.

Lemma rank_items_attaches_scores_witness :
  fst rank_run = Ok [2; 0; 1]%nat
  /\ (forall r, r ∉ [0; 1; 2]%nat -> w_heap (snd rank_run) r = ranking_sample r)
  /\ (forall r, r ∈ [0; 1; 2]%nat ->
        exists f, w_heap (snd rank_run) r
                  = Item.set_ranking_score f (ranking_sample r)
                  /\ is_nan f = false)
  /\ w_events (snd rank_run) = [].
Proof.
  assert (H : rank_run = (Ok [2; 0; 1]%nat, snd rank_run))
    by (vm_compute; reflexivity).
  split; [vm_compute; reflexivity|].
  exact (rank_items_attaches_scores _ _ _ _ _ _ H).
Defined.

Lemma lift_Raise {A : Type} (r : result A) (w w' : world) (e : exn) :
  lift r w = (Raise e, w') -> r = Raise e.
Proof. unfold lift. congruence. Qed.

Lemma of_int_raises (z : Z) (e : exn) :
  F64.of_int z = Raise e -> e = OverflowError.
Proof.
  unfold F64.of_int, F64.finite_or_overflow.
  destruct (binary_normalize _ _ _ _ _); congruence.
Qed.

Lemma py_add_raises (score : spec_float) (n : number) (e : exn) :
  py_add score n = Raise e -> e = OverflowError.
Proof.
  destruct n as [z|x]; cbn [py_add]; [|discriminate].
  unfold mbind, result_bind.
  destruct (F64.of_int z) eqn:Hz; [discriminate|].
  apply of_int_raises in Hz. congruence.
Qed.

Lemma truediv_raises (a b : Z) (e : exn) :
  b <> 0 -> F64.truediv a b = Raise e -> e = OverflowError.
Proof.
  intros Hb. unfold F64.truediv, F64.finite_or_overflow.
  destruct (Z.eqb_spec b 0); [contradiction|].
  destruct (a =? 0); [discriminate|].
  destruct (SFdiv _ _ _ _); congruence.
Qed.

(** One engagement term of the score, when it raises. *)
Lemma engagement_term_raises (score : spec_float) (value : pyval)
  (divisor cap : Z) (k : spec_float -> M spec_float) (w w' : world) (e : exn) :
  divisor <> 0 ->
  (forall s w1, k s w1 = (Raise e, w') -> e = OverflowError) ->
  (n ← lift (to_int value);
   x ← lift (F64.truediv n divisor);
   s ← lift (py_add score (py_min x cap));
   k s) w = (Raise e, w') ->
  e = OverflowError.
Proof.
  intros Hd Hk H.
  apply bind_Raise in H as [H|(n & w1 & _ & H)].
  { apply lift_Raise in H. now apply to_int_raises_overflow_only in H. }
  apply bind_Raise in H as [H|(x & w2 & _ & H)].
  { apply lift_Raise in H. now apply truediv_raises in H. }
  apply bind_Raise in H as [H|(s & w3 & _ & H)].
  { apply lift_Raise in H. now apply py_add_raises in H. }
  eauto.
Qed.

Lemma bonus_raises (score : spec_float) (c : bool) (z : Z)
  (k : spec_float -> M spec_float) (w w' : world) (e : exn) :
  (forall s w1, k s w1 = (Raise e, w') -> e = OverflowError) ->
  (s ← (if c then lift (py_add score (Int z)) else mret score); k s) w
  = (Raise e, w') ->
  e = OverflowError.
Proof.
  intros Hk H. apply bind_Raise in H as [H|(s & w1 & _ & H)]; [|eauto].
  destruct c; [|discriminate].
  apply lift_Raise in H. now apply py_add_raises in H.
Qed.

Lemma calculate_score_raises (categories : dict category_config)
  (item : Item.t) (category : string) (w w' : world) (e : exn) :
  _calculate_score categories item category w = (Raise e, w') ->
  e = OverflowError.
Proof.
  unfold _calculate_score. intros H.
  apply bind_Raise in H as [H|(s0 & w0 & _ & H)].
  { apply lift_Raise in H. now apply py_add_raises in H. }
  apply bind_Raise in H as [H|(s1 & w1 & _ & H)].
  { destruct (Item.published_date item) as [pub_date|]; [|discriminate].
    apply bind_Raise in H as [H|(t & wt & _ & H)]; [discriminate|].
    cbv zeta in H.
    repeat match type of H with
           | (if ?c then _ else _) _ = _ => destruct c
           end;
      try discriminate; apply lift_Raise in H; now apply py_add_raises in H. }
  revert H. revert w1.
  repeat first
    [ intros w1 H; eapply engagement_term_raises in H;
      [exact H | discriminate |]; clear; intros s w1; revert w1
    | intros w1 H; cbv zeta in H; eapply bonus_raises in H;
      [exact H |]; clear; intros s w1; revert w1 ].
  intros w1 H. discriminate.
Qed.

Lemma rank_items_Raise (categories : dict category_config)
  (items : list loc) (category : string) (w w' : world) (e : exn) :
  rank_items categories items category w = (Raise e, w') ->
  e = OverflowError.
Proof.
  unfold rank_items. intros H.
  apply bind_Raise in H as [H|([] & w1 & _ & H)].
  - clear -H. revert w H.
    induction items as [|r0 rest IH]; intros w H; cbn [score_loop] in H;
      [discriminate|].
    apply bind_Raise in H as [H|(item & w0 & _ & H)]; [discriminate|].
    apply bind_Raise in H as [H|(score & w1 & _ & H)];
      [now apply calculate_score_raises in H|].
    apply bind_Raise in H as [H|([] & w2 & _ & H)]; [discriminate|eauto].
  - apply bind_Raise in H as [H|(h & w2 & _ & H)]; discriminate.
Qed.

(** X15. [rank_items] raises nothing but [OverflowError]: an engagement value
    that is infinite, or a number too large for a [float]. *)
Theorem rank_items_raises (categories : dict category_config)
  (items : list loc) (category : string) (w w' : world) (e : exn) :
  rank_items categories items category w = (Raise e, w') ->
  e = OverflowError.
Proof. apply rank_items_Raise. Qed.

Lemma rank_items_raises_witness :
  fst rank_overflow_run = Raise OverflowError
  /\ OverflowError = OverflowError.
Proof.
  assert (H : rank_overflow_run = (Raise OverflowError, snd rank_overflow_run))
    by (vm_compute; reflexivity).
  split; [vm_compute; reflexivity|].
  exact (rank_items_raises _ _ _ _ _ _ H).
Defined.

(** ** Collection, continued *)

Lemma dict_has_iff {V : Type} (d : dict V) (k : string) :
  dict_has d k = true <-> k ∈ dict_keys d.
Proof.
  split; [apply dict_has_keys|]. intros Hk. unfold dict_has.
  apply existsb_exists. exists k. split; [now apply list_elem_of_In|].
  apply String.eqb_refl.
Qed.

Lemma in_bucket_cons (k0 : string) (v0 : list loc) (d : dict (list loc))
  (k : string) (r : loc) :
  in_bucket ((k0, v0) :: d) k r <-> (k = k0 /\ r ∈ v0) \/ in_bucket d k r.
Proof.
  unfold in_bucket. split.
  - intros (items & Hin & Hr). apply elem_of_cons in Hin as [Heq|Hin].
    + injection Heq as -> ->. auto.
    + right. eauto.
  - intros [[-> Hr]|(items & Hin & Hr)].
    + exists v0. split; [left|assumption].
    + exists items. split; [now right|assumption].
Qed.

(** What [all_content[category].append(item)] adds, for a key of the
    dictionary. *)
Lemma dict_append_spec (d : dict (list loc)) (category : string) (item : loc)
  (k : string) (r : loc) :
  category ∈ dict_keys d ->
  in_bucket (dict_append d category item) k r
  <-> in_bucket d k r \/ (k = category /\ r = item).
Proof.
  intros Hkey. split; [apply dict_append_in_bucket|].
  induction d as [|[k0 v0] d IH]; [now apply elem_of_nil in Hkey|].
  cbn [dict_append]. cbn in Hkey.
  destruct (String.eqb_spec k0 category) as [->|Hne];
    rewrite !in_bucket_cons; rewrite ?elem_of_app, ?list_elem_of_singleton.
  - tauto.
  - apply elem_of_cons in Hkey as [?|Hkey]; [congruence|].
    specialize (IH Hkey). tauto.
Qed.

Section CollectionSpec.

Variable cfg : config.
Variable scrape_all : source -> Z -> list loc.
Variable h : heap.

Lemma append_to_categories_keys (item : loc) (cats : list string) :
  forall d, dict_keys (append_to_categories cats item d) = dict_keys d.
Proof.
  induction cats as [|c cats IH]; intros d; cbn [append_to_categories];
    [reflexivity|].
  destruct (dict_has d c); [|apply IH]. now rewrite IH, dict_append_keys.
Qed.

Lemma append_to_categories_spec (item : loc) (cats : list string) (k : string)
  (r : loc) :
  forall d,
    in_bucket (append_to_categories cats item d) k r
    <-> in_bucket d k r \/ (r = item /\ k ∈ cats /\ k ∈ dict_keys d).
Proof.
  induction cats as [|c cats IH]; intros d; cbn [append_to_categories].
  - split; [auto|]. intros [?|(_ & Hk & _)]; [assumption|].
    now apply elem_of_nil in Hk.
  - rewrite elem_of_cons.
    destruct (dict_has d c) eqn:Hhas.
    + apply dict_has_iff in Hhas.
      rewrite IH, dict_append_keys, (dict_append_spec _ _ _ _ _ Hhas).
      split.
      * intros [[?|[-> ->]]|(-> & ? & ?)]; auto.
      * intros [?|(-> & [->|?] & ?)]; auto.
    + rewrite IH. split.
      * intros [?|(-> & ? & ?)]; auto.
      * intros [?|(-> & [->|?] & Hk)]; auto.
        apply dict_has_iff in Hk. congruence.
Qed.

Lemma categorize_content_keys (items : list loc) :
  forall d, dict_keys (_categorize_content cfg h items d) = dict_keys d.
Proof.
  induction items as [|item rest IH]; intros d; cbn [_categorize_content];
    [reflexivity|].
  now rewrite IH, append_to_categories_keys.
Qed.

Lemma categorize_content_spec (items : list loc) (k : string) (r : loc) :
  forall d,
    in_bucket (_categorize_content cfg h items d) k r
    <-> in_bucket d k r
        \/ (r ∈ items /\ k ∈ categorize_item (categories cfg) (h r)
            /\ k ∈ dict_keys d).
Proof.
  induction items as [|item rest IH]; intros d; cbn [_categorize_content].
  - split; [auto|]. intros [?|(Hr & _)]; [assumption|].
    now apply elem_of_nil in Hr.
  - rewrite IH, append_to_categories_keys, append_to_categories_spec,
      elem_of_cons.
    split.
    + intros [[?|(-> & ? & ?)]|(? & ? & ?)]; auto.
    + intros [?|([->|?] & ? & ?)]; auto.
Qed.

Lemma collect_from_keys (start_date : Z) (sources : list source) :
  forall d,
    dict_keys (collect_from cfg scrape_all h start_date sources d) = dict_keys d.
Proof.
  induction sources as [|src rest IH]; intros d; cbn [collect_from];
    [reflexivity|].
  destruct (source_enabled cfg src); [|apply IH].
  now rewrite IH, categorize_content_keys.
Qed.

Lemma collect_from_spec (start_date : Z) (sources : list source) (k : string)
  (r : loc) :
  forall d,
    in_bucket (collect_from cfg scrape_all h start_date sources d) k r
    <-> in_bucket d k r
        \/ (k ∈ dict_keys d
            /\ k ∈ categorize_item (categories cfg) (h r)
            /\ exists src, src ∈ sources /\ source_enabled cfg src = true
                           /\ r ∈ scrape_all src start_date).
Proof.
  induction sources as [|src rest IH]; intros d; cbn [collect_from].
  - split; [auto|]. intros [?|(_ & _ & s & Hs & _)]; [assumption|].
    now apply elem_of_nil in Hs.
  - destruct (source_enabled cfg src) eqn:Hen.
    + rewrite IH, categorize_content_keys, categorize_content_spec. split.
      * intros [[?|(? & ? & ?)]|(? & ? & s & ? & ? & ?)]; auto.
        -- right. repeat split; auto. exists src. split; [left|auto].
        -- right. repeat split; auto. exists s. split; [now right|auto].
      * intros [?|(? & ? & s & Hs & ? & ?)]; auto.
        apply elem_of_cons in Hs as [->|Hs]; [auto|].
        right. repeat split; auto. exists s. auto.
    + rewrite IH. split.
      * intros [?|(? & ? & s & ? & ? & ?)]; auto.
        right. repeat split; auto. exists s. split; [now right|auto].
      * intros [?|(? & ? & s & Hs & ? & ?)]; auto.
        apply elem_of_cons in Hs as [->|Hs]; [congruence|].
        right. repeat split; auto. exists s. auto.
Qed.

End CollectionSpec.

Lemma source_in_order (src : source) : src ∈ sources_in_order.
Proof. destruct src; unfold sources_in_order; set_solver. Qed.

Lemma not_in_empty_content (k : string) (r : loc) : ~ in_bucket empty_content k r.
Proof.
  intros (items & Hin & Hr). unfold empty_content in Hin.
  repeat (apply elem_of_cons in Hin as [Heq|Hin];
          [injection Heq as -> ->; now apply elem_of_nil in Hr|]).
  now apply elem_of_nil in Hin.
Qed.

(** X16. What [collect_content] gathers: an item is in the list of a category
    exactly when the category is one of the four fixed ones, is one of the
    categories of the item, and a source that the configuration enables has
    returned the item for the start date, which is the time of the call less
    [days_to_look_back] days. *)
Theorem collect_content_spec (cfg : config)
  (scrape_all : source -> Z -> list loc) (w w1 : world)
  (all_content : dict (list loc)) (k : string) (r : loc) :
  collect_content cfg scrape_all w = (Ok all_content, w1) ->
  in_bucket all_content k r
  <-> k ∈ dict_keys empty_content
      /\ k ∈ categorize_item (categories cfg) (w_heap w r)
      /\ exists src,
           source_enabled cfg src = true
           /\ r ∈ scrape_all src
                  (w_clock w (w_ticks w)
                   - days_to_look_back cfg * microseconds_per_day).
Proof.
  intros Hcollect. rewrite collect_content_eq in Hcollect.
  assert (Hall : collect_from cfg scrape_all (w_heap w)
                   (w_clock w (w_ticks w)
                    - days_to_look_back cfg * microseconds_per_day)
                   sources_in_order empty_content = all_content)
    by congruence.
  rewrite <- Hall, collect_from_spec. split.
  - intros [Hb|(? & ? & s & _ & ? & ?)]; [now apply not_in_empty_content in Hb|].
    eauto.
  - intros (? & ? & s & ? & ?). right. repeat split; auto.
    exists s. split; [apply source_in_order|auto].
Qed.

Lemma collect_content_spec_witness :
  fst collect_run = Ok three_models_content
  /\ (in_bucket three_models_content "models" 1%nat
      <-> "models" ∈ dict_keys empty_content
          /\ "models" ∈ categorize_item (categories short_config)
                          (three_models 1%nat)
          /\ exists src,
               source_enabled short_config src = true
               /\ 1%nat ∈ all_from_blogs src
                            (3600000000 - 7 * microseconds_per_day)).
Proof.
  assert (H : collect_run = (Ok three_models_content, snd collect_run))
    by (vm_compute; reflexivity).
  split; [vm_compute; reflexivity|].
  exact (collect_content_spec _ _ _ _ _ "models" 1%nat H).
Defined.

(** ** Filtering and ranking of the collected content *)

Lemma dict_set_keys_fresh {V : Type} (d : dict V) (k : string) (v : V) :
  k ∉ dict_keys d -> dict_keys (dict_set d k v) = (dict_keys d ++ [k])%list.
Proof.
  unfold dict_keys. induction d as [|[k0 v0] d IH]; intros Hk; [reflexivity|].
  cbn [dict_set]. cbn [map fst] in Hk.
  destruct (String.eqb_spec k0 k) as [->|Hne].
  - exfalso. apply Hk. left.
  - cbn [map fst app]. f_equal. apply IH. intros Hin. apply Hk. now right.
Qed.

Lemma filter_and_rank_loop_keys (cfg : config) (entries : dict (list loc)) :
  forall acc w fc w',
    NoDup (dict_keys acc ++ dict_keys entries) ->
    filter_and_rank_loop cfg entries acc w = (Ok fc, w') ->
    dict_keys fc
    = (dict_keys acc
       ++ List.filter (enabled_in (categories cfg)) (dict_keys entries))%list.
Proof.
  induction entries as [|[category items] rest IH]; intros acc w fc w' Hnd H;
    cbn [filter_and_rank_loop] in H.
  - injection H as <- _. cbn. now rewrite app_nil_r.
  - cbn [dict_keys map fst List.filter] in Hnd |- *.
    fold (dict_keys rest) in Hnd |- *.
    unfold enabled_in at 1.
    destruct (dict_get (categories cfg) category) as [cc|]; [|discriminate].
    destruct (enabled cc); cbn [negb] in H.
    + apply bind_Ok in H as (filtered & w1 & _ & H).
      apply bind_Ok in H as (deduped & w2 & _ & H).
      apply bind_Ok in H as (ranked & w3 & _ & H).
      apply NoDup_app in Hnd as (Hacc & Hdisj & Hrest).
      apply NoDup_cons in Hrest as [Hfresh Hrest].
      assert (Hk : category ∉ dict_keys acc).
      { intros Hin. apply (Hdisj _ Hin). left. }
      apply IH in H.
      * rewrite H, dict_set_keys_fresh by assumption.
        now rewrite <- app_assoc.
      * rewrite dict_set_keys_fresh by assumption.
        apply NoDup_app. split; [|split; [|assumption]].
        -- apply NoDup_app. split; [assumption|].
           split; [|apply NoDup_singleton].
           intros x Hx Hx'. apply list_elem_of_singleton in Hx'. now subst x.
        -- intros x Hx Hx'. apply elem_of_app in Hx as [Hx|Hx].
           ++ apply (Hdisj _ Hx). now right.
           ++ apply list_elem_of_singleton in Hx. now subst x.
    + apply IH in H; [assumption|].
      apply NoDup_app in Hnd as (Hacc & Hdisj & Hrest).
      apply NoDup_cons in Hrest as [Hfresh Hrest].
      apply NoDup_app. split; [assumption|]. split; [|assumption].
      intros x Hx Hx'. apply (Hdisj _ Hx). now right.
Qed.

(** X17. [filter_and_rank_content] returns one list for each category of its
    argument that the configuration enables, in the order of the argument,
    and none for a category that is disabled, also when the list is empty. *)
Theorem filter_and_rank_content_keys (cfg : config)
  (all_content filtered_content : dict (list loc)) (w w' : world) :
  NoDup (dict_keys all_content) ->
  filter_and_rank_content cfg all_content w = (Ok filtered_content, w') ->
  dict_keys filtered_content
  = List.filter (enabled_in (categories cfg)) (dict_keys all_content).
Proof.
  intros Hnd H. unfold filter_and_rank_content in H.
  now apply filter_and_rank_loop_keys in H.
Qed.

Lemma filter_and_rank_content_keys_witness :
  fst filter_rank_run = Ok short_content
  /\ dict_keys short_content
     = List.filter (enabled_in (categories short_config))
         (dict_keys three_models_content).
Proof.
  assert (H : filter_rank_run = (Ok short_content, snd filter_rank_run))
    by (vm_compute; reflexivity).
  assert (Hkeys : NoDup (dict_keys three_models_content))
    by (vm_compute; no_repetition).
  split; [vm_compute; reflexivity|].
  exact (filter_and_rank_content_keys _ _ _ _ _ Hkeys H).
Defined.

Lemma slice_to_length {A : Type} (n : Z) (l : list A) :
  0 <= n -> Z.of_nat (length (slice_to n l)) <= n.
Proof.
  intros Hn. unfold slice_to. destruct (Z.leb_spec 0 n); [|lia].
  rewrite length_take. lia.
Qed.

Lemma slice_to_prefix {A : Type} (n : Z) (l : list A) :
  slice_to n l `prefix_of` l.
Proof. unfold slice_to. destruct (0 <=? n); apply prefix_take. Qed.

Lemma dict_set_elem_of {V : Type} (d : dict V) (k : string) (v : V)
  (k' : string) (v' : V) :
  (k', v') ∈ dict_set d k v -> (k', v') ∈ d \/ (k' = k /\ v' = v).
Proof.
  induction d as [|[k0 v0] d IH]; cbn [dict_set].
  - intros Hin. apply list_elem_of_singleton in Hin. injection Hin as -> ->. auto.
  - destruct (String.eqb_spec k0 k) as [->|Hne]; intros Hin;
      apply elem_of_cons in Hin as [Heq|Hin].
    + injection Heq as -> ->. auto.
    + left. now right.
    + injection Heq as -> ->. left. left.
    + destruct (IH Hin) as [?|?]; [left; now right|auto].
Qed.

(** What the loop stores under a category: a prefix of a permutation of items
    of the list of that category. *)
Lemma filter_and_rank_loop_lists (cfg : config) (entries : dict (list loc)) :
  forall acc w fc w',
    filter_and_rank_loop cfg entries acc w = (Ok fc, w') ->
    forall k items, (k, items) ∈ fc ->
      (k, items) ∈ acc
      \/ exists ranked,
           items = slice_to (max_items_per_category cfg) ranked
           /\ exists bucket, (k, bucket) ∈ entries /\ ranked ⊆ bucket.
Proof.
  induction entries as [|[category items0] rest IH];
    intros acc w fc w' H k items Hin; cbn [filter_and_rank_loop] in H.
  - injection H as <- _. auto.
  - destruct (dict_get (categories cfg) category) as [cc|]; [|discriminate].
    destruct (negb (enabled cc)).
    { destruct (IH _ _ _ _ H k items Hin) as [?|(ranked & ? & b & ? & ?)];
        [auto|].
      right. exists ranked. split; [assumption|]. exists b.
      split; [now right|assumption]. }
    apply bind_Ok in H as (filtered & w1 & Hf & H).
    apply bind_Ok in H as (deduped & w2 & Hd & H).
    apply bind_Ok in H as (ranked & w3 & Hr & H).
    apply filter_items_subseteq in Hf.
    apply rank_items_length_perm in Hr as [_ Hperm].
    assert (Hdd : deduped ⊆ filtered).
    { destruct (deduplicate_enabled (filtering cfg)).
      - apply bind_Ok in Hd as (h & w0 & _ & Hd). inversion Hd as [[Hd' Hw]].
        now apply deduplicate_loop_subseteq in Hd'.
      - inversion Hd. reflexivity. }
    destruct (IH _ _ _ _ H k items Hin) as [Hacc|(ranked' & ? & b & ? & ?)].
    + apply dict_set_elem_of in Hacc as [?|[-> ->]]; [auto|].
      right. exists ranked. split; [reflexivity|]. exists items0.
      split; [left|]. intros x Hx. apply Hf, Hdd. now rewrite <- Hperm.
    + right. exists ranked'. split; [assumption|]. exists b.
      split; [now right|assumption].
Qed.

(** X18. With a limit that is not negative, no list that
    [filter_and_rank_content] returns is longer than
    [max_items_per_category]. *)
Theorem filter_and_rank_content_truncates (cfg : config)
  (all_content filtered_content : dict (list loc)) (w w' : world)
  (k : string) (items : list loc) :
  0 <= max_items_per_category cfg ->
  filter_and_rank_content cfg all_content w = (Ok filtered_content, w') ->
  (k, items) ∈ filtered_content ->
  Z.of_nat (length items) <= max_items_per_category cfg.
Proof.
  intros Hmax H Hin. unfold filter_and_rank_content in H.
  destruct (filter_and_rank_loop_lists _ _ _ _ _ _ H k items Hin)
    as [Hnil|(ranked & -> & _)]; [now apply elem_of_nil in Hnil|].
  now apply slice_to_length.
Qed.

Lemma filter_and_rank_content_truncates_witness :
  fst filter_rank_run = Ok short_content
  /\ Z.of_nat (length [0; 1]%nat) <= 2.
Proof.
  assert (H : filter_rank_run = (Ok short_content, snd filter_rank_run))
    by (vm_compute; reflexivity).
  split; [vm_compute; reflexivity|].
  assert (Hmax : 0 <= max_items_per_category short_config)
    by (vm_compute; discriminate).
  apply (filter_and_rank_content_truncates short_config _ _ _ _ "models"
           [0; 1]%nat Hmax H).
  in_list.
Defined.

Lemma filter_and_rank_loop_raises (cfg : config) (entries : dict (list loc)) :
  forall acc w w' e,
    filter_and_rank_loop cfg entries acc w = (Raise e, w') ->
    (e = KeyError
     /\ exists k, k ∈ dict_keys entries /\ dict_get (categories cfg) k = None)
    \/ e = OverflowError.
Proof.
  induction entries as [|[category items] rest IH]; intros acc w w' e H;
    cbn [filter_and_rank_loop] in H; [discriminate|].
  assert (Hrest : forall acc w,
             filter_and_rank_loop cfg rest acc w = (Raise e, w') ->
             (e = KeyError
              /\ exists k, k ∈ dict_keys ((category, items) :: rest)
                           /\ dict_get (categories cfg) k = None)
             \/ e = OverflowError).
  { intros acc0 w0 H0. apply IH in H0 as [(-> & k & Hk & Hget)|?]; [|auto].
    left. split; [reflexivity|]. exists k. split; [now right|assumption]. }
  destruct (dict_get (categories cfg) category) as [cc|] eqn:Hget.
  - destruct (negb (enabled cc)); [eauto|].
    apply bind_Raise in H as [H|(filtered & w1 & _ & H)].
    { right. apply filter_items_Raise in H as (r & _ & Hp).
      now apply passes_raises in Hp as [-> _]. }
    apply bind_Raise in H as [H|(deduped & w2 & _ & H)].
    { destruct (deduplicate_enabled (filtering cfg)); [|discriminate].
      apply bind_Raise in H as [H|(h & w0 & _ & H)]; [discriminate|].
      apply lift_Raise in H.
      destruct (deduplicate_loop_total h filtered ∅) as [out Hout].
      unfold deduplicate in H. congruence. }
    apply bind_Raise in H as [H|(ranked & w3 & _ & H)]; [|eauto].
    right. now apply rank_items_Raise in H.
  - apply lift_Raise in H. injection H as <-. left. split; [reflexivity|].
    exists category. split; [left|assumption].
Qed.

Lemma filter_and_rank_loop_missing (cfg : config) (entries : dict (list loc))
  (k : string) :
  k ∈ dict_keys entries -> dict_get (categories cfg) k = None ->
  forall acc w fc w', filter_and_rank_loop cfg entries acc w <> (Ok fc, w').
Proof.
  intros Hk Hget.
  induction entries as [|[category items] rest IH]; intros acc w fc w' H;
    [now apply elem_of_nil in Hk|].
  cbn [filter_and_rank_loop] in H. cbn in Hk.
  destruct (dict_get (categories cfg) category) as [cc|] eqn:Hc;
    [|discriminate].
  apply elem_of_cons in Hk as [->|Hk]; [congruence|].
  specialize (IH Hk).
  destruct (negb (enabled cc)); [now apply IH in H|].
  apply bind_Ok in H as (filtered & w1 & _ & H).
  apply bind_Ok in H as (deduped & w2 & _ & H).
  apply bind_Ok in H as (ranked & w3 & _ & H).
  now apply IH in H.
Qed.



(** ** What reaches the newsletter *)

Lemma passes_set_ranking_score (filtering : filtering_config) (f : spec_float)
  (item : Item.t) :
  passes filtering (Item.set_ranking_score f item) = passes filtering item.
Proof. destruct item. reflexivity. Qed.

Lemma normalize_title_set_untrusted (b : bool) (item : Item.t) :
  normalize_title (Item.set_untrusted_source b item) = normalize_title item.
Proof. destruct item. reflexivity. Qed.

Lemma normalize_title_set_ranking_score (f : spec_float) (item : Item.t) :
  normalize_title (Item.set_ranking_score f item) = normalize_title item.
Proof. destruct item. reflexivity. Qed.

Lemma same_content_refl (filtering : filtering_config) (h : heap) :
  same_content filtering h h.
Proof. intros r. auto. Qed.

Lemma same_content_trans (filtering : filtering_config) (h1 h2 h3 : heap) :
  same_content filtering h1 h2 -> same_content filtering h2 h3 ->
  same_content filtering h1 h3.
Proof.
  intros H12 H23 r. destruct (H12 r) as [<- <-]. destruct (H23 r) as [<- <-].
  auto.
Qed.

Lemma filter_items_same_content (filtering : filtering_config)
  (category : string) (items out : list loc) (w w' : world) :
  filter_items filtering items category w = (Ok out, w') ->
  same_content filtering (w_heap w) (w_heap w').
Proof.
  intros H r. apply filter_items_Ok in H as (_ & Hheap & _). rewrite Hheap.
  destruct (_ && _); [|auto].
  now rewrite passes_set_untrusted, normalize_title_set_untrusted.
Qed.

Lemma rank_items_same_content (filtering : filtering_config)
  (categories : dict category_config) (category : string)
  (items out : list loc) (w w' : world) :
  rank_items categories items category w = (Ok out, w') ->
  same_content filtering (w_heap w) (w_heap w').
Proof.
  unfold rank_items. intros H r.
  apply bind_Ok in H as ([] & w1 & Hloop & H).
  apply bind_Ok in H as (h & w2 & Hh & H).
  injection Hh as <- <-. injection H as _ <-.
  destruct (score_loop_heap _ _ _ _ _ Hloop r) as [Hout Hin].
  destruct (decide (r ∈ items)) as [Hr|Hr].
  - destruct (Hin Hr) as (f & -> & _).
    now rewrite passes_set_ranking_score, normalize_title_set_ranking_score.
  - rewrite (Hout Hr). auto.
Qed.

Lemma similar_sym (s1 s2 : string) : similar s1 s2 -> similar s2 s1.
Proof.
  intros (f & Hf & Hlt). exists f. split; [|assumption].
  rewrite <- Hf. unfold _similarity.
  rewrite (orb_comm (bool_decide (word_set s1 = ∅))).
  now rewrite (comm_L (∩) (word_set s1)), (comm_L (∪) (word_set s1)).
Qed.

Section StronglySorted.

Context {A : Type} (R : A -> A -> Prop).

Lemma StronglySorted_perm (l l' : list A) :
  (forall a b, R a b -> R b a) ->
  l ≡ₚ l' -> StronglySorted R l -> StronglySorted R l'.
Proof.
  intros Hsym Hperm. induction Hperm as [|x l l' Hperm IH|x y l|l l' l'' _ IH1 _ IH2];
    intros Hl.
  - constructor.
  - apply StronglySorted_inv in Hl as [Hl Hall]. constructor; [auto|].
    now rewrite <- Hperm.
  - apply StronglySorted_inv in Hl as [Hl Hy].
    apply StronglySorted_inv in Hl as [Hl Hx].
    apply Forall_cons in Hy as [Hyx Hy].
    constructor; [constructor; assumption|]. constructor; auto.
  - auto.
Qed.

Lemma StronglySorted_take (n : nat) (l : list A) :
  StronglySorted R l -> StronglySorted R (take n l).
Proof.
  intros Hl. revert n. induction Hl as [|x l Hl IH Hall]; intros [|n]; cbn;
    try constructor; [apply IH|].
  apply Forall_take. exact Hall.
Qed.

Lemma StronglySorted_impl (R' : A -> A -> Prop) (l : list A) :
  (forall a b, R a b -> R' a b) -> StronglySorted R l -> StronglySorted R' l.
Proof.
  intros Himpl Hl. induction Hl as [|x l Hl IH Hall]; constructor; [assumption|].
  eapply Forall_impl; [exact Hall|]. auto.
Qed.

End StronglySorted.

Lemma slice_to_sorted {A : Type} (R : A -> A -> Prop) (n : Z) (l : list A) :
  StronglySorted R l -> StronglySorted R (slice_to n l).
Proof. unfold slice_to. destruct (0 <=? n); apply StronglySorted_take. Qed.

(** The loop keeps the content of the items, and what it stores under a
    category has passed the checks; its titles are pairwise distinct when
    deduplication is on. *)
Lemma filter_and_rank_loop_sound (cfg : config) (entries : dict (list loc)) :
  forall acc w fc w',
    filter_and_rank_loop cfg entries acc w = (Ok fc, w') ->
    same_content (filtering cfg) (w_heap w) (w_heap w')
    /\ forall k items, (k, items) ∈ fc ->
         (k, items) ∈ acc
         \/ (Forall (fun r => passes (filtering cfg) (w_heap w r) = Ok true) items
             /\ (deduplicate_enabled (filtering cfg) = true ->
                 StronglySorted (title_distinct (w_heap w)) items)).
Proof.
  induction entries as [|[category items0] rest IH]; intros acc w fc w' H;
    cbn [filter_and_rank_loop] in H.
  - injection H as <- <-. split; [apply same_content_refl|auto].
  - destruct (dict_get (categories cfg) category) as [cc|]; [|discriminate].
    destruct (negb (enabled cc)); [now apply IH in H|].
    apply bind_Ok in H as (filtered & w1 & Hf & H).
    apply bind_Ok in H as (deduped & w2 & Hd & H).
    apply bind_Ok in H as (ranked & w3 & Hr & H).
    pose proof (filter_items_same_content _ _ _ _ _ _ Hf) as Hs1.
    pose proof (rank_items_same_content (filtering cfg) _ _ _ _ _ _ Hr) as Hs3.
    apply filter_items_Ok in Hf as (Hf & _).
    apply rank_items_length_perm in Hr as [_ Hperm].
    assert (Hw2 : w2 = w1
                  /\ deduped ⊆ filtered
                  /\ (deduplicate_enabled (filtering cfg) = true ->
                      StronglySorted (title_distinct (w_heap w)) deduped)).
    { destruct (deduplicate_enabled (filtering cfg)).
      - apply bind_Ok in Hd as (h & w0 & Hh & Hd). injection Hh as <- <-.
        unfold lift in Hd. injection Hd as Hd <-.
        split; [reflexivity|]. split; [now apply deduplicate_loop_subseteq in Hd|].
        intros _. apply deduplicate_loop_inv in Hd as (_ & _ & Hd & _).
        eapply StronglySorted_impl; [|exact Hd].
        intros a b Hab Hsim. apply Hab, similar_sym.
        destruct (Hs1 a) as [_ ->]. destruct (Hs1 b) as [_ ->]. exact Hsim.
      - injection Hd as <- <-. split; [reflexivity|].
        split; [reflexivity|discriminate]. }
    destruct Hw2 as (-> & Hdd & Hdist).
    assert (Hs : same_content (filtering cfg) (w_heap w) (w_heap w3))
      by (eapply same_content_trans; eassumption).
    apply IH in H as [Hs' Hfc]. split.
    { eapply same_content_trans; eassumption. }
    intros k items Hin. destruct (Hfc k items Hin) as [Hacc|[Hpass Hd']].
    + apply dict_set_elem_of in Hacc as [?|[-> ->]]; [auto|]. right. split.
      * apply Forall_forall. intros r Hr'.
        apply (slice_to_subseteq _ ranked r) in Hr'. rewrite Hperm in Hr'.
        apply Hdd in Hr'. rewrite Hf in Hr'.
        apply list_elem_of_In, filter_In in Hr' as [_ Hr'].
        unfold passes_b in Hr'.
        destruct (passes (filtering cfg) (w_heap w r)) as [[|]|];
          [reflexivity|discriminate..].
      * intros Hen. apply slice_to_sorted.
        apply (StronglySorted_perm _ deduped); [| now symmetry | auto].
        intros a b Hab Hsim. now apply Hab, similar_sym.
    + right. split.
      * eapply Forall_impl; [exact Hpass|]. intros r Hr'. cbn in Hr'.
        destruct (Hs r) as [<- _]. exact Hr'.
      * intros Hen. eapply StronglySorted_impl; [|exact (Hd' Hen)].
        intros a b Hab. unfold title_distinct in *.
        destruct (Hs a) as [_ <-]. destruct (Hs b) as [_ <-]. exact Hab.
Qed.

(** X20. Every item of a list that [filter_and_rank_content] returns comes
    from the list of the same category in its argument and passes the checks
    of the filter: it is not excluded and, when engagement is required, it
    has enough. *)
Theorem filter_and_rank_content_sound (cfg : config)
  (all_content filtered_content : dict (list loc)) (w w' : world)
  (k : string) (items : list loc) (r : loc) :
  filter_and_rank_content cfg all_content w = (Ok filtered_content, w') ->
  (k, items) ∈ filtered_content -> r ∈ items ->
  in_bucket all_content k r
  /\ passes (filtering cfg) (w_heap w r) = Ok true.
Proof.
  intros H Hin Hr. unfold filter_and_rank_content in H. split.
  - destruct (filter_and_rank_loop_in_bucket cfg all_content [] w _ w' H k r)
      as [(l & Hl & _)|Hb]; [now exists items| |assumption].
    now apply elem_of_nil in Hl.
  - apply filter_and_rank_loop_sound in H as [_ H].
    destruct (H k items Hin) as [Hnil|[Hpass _]];
      [now apply elem_of_nil in Hnil|].
    rewrite Forall_forall in Hpass. auto.
Qed.

Lemma filter_and_rank_content_sound_witness :
  fst filter_rank_run = Ok short_content
  /\ in_bucket three_models_content "models" 1%nat
  /\ passes crypto_filtering (three_models 1%nat) = Ok true.
Proof.
  assert (H : filter_rank_run = (Ok short_content, snd filter_rank_run))
    by (vm_compute; reflexivity).
  split; [vm_compute; reflexivity|].
  apply (filter_and_rank_content_sound short_config _ _ _ _ "models"
           [0; 1]%nat 1%nat H); in_list.
Defined.

(** X21. With deduplication on, no two items at different places of a list
    that [filter_and_rank_content] returns have titles that [deduplicate]
    takes for duplicates of each other: ranking and truncation keep what
    deduplication has established. *)
Theorem filter_and_rank_content_distinct (cfg : config)
  (all_content filtered_content : dict (list loc)) (w w' : world)
  (k : string) (items : list loc) (i j : nat) (a b : loc) :
  deduplicate_enabled (filtering cfg) = true ->
  filter_and_rank_content cfg all_content w = (Ok filtered_content, w') ->
  (k, items) ∈ filtered_content ->
  i <> j -> items !! i = Some a -> items !! j = Some b ->
  title_distinct (w_heap w) a b.
Proof.
  intros Hen H Hin Hij Ha Hb. unfold filter_and_rank_content in H.
  apply filter_and_rank_loop_sound in H as [_ H].
  destruct (H k items Hin) as [Hnil|[_ Hd]]; [now apply elem_of_nil in Hnil|].
  specialize (Hd Hen).
  assert (Hord : forall l, StronglySorted (title_distinct (w_heap w)) l ->
            forall i j a b, (i < j)%nat -> l !! i = Some a -> l !! j = Some b ->
            title_distinct (w_heap w) a b).
  { clear. intros l Hl.
    induction Hl as [|x l Hl IH Hall]; intros i j a b Hij Ha Hb.
    - discriminate.
    - destruct j as [|j]; [lia|]. destruct i as [|i].
      + injection Ha as <-. cbn in Hb.
        rewrite Forall_forall in Hall. apply Hall.
        now apply list_elem_of_lookup_2 in Hb.
      + cbn in Ha, Hb. apply (IH i j); [lia|assumption..]. }
  destruct (Nat.lt_total i j) as [Hlt|[Heq|Hgt]]; [|contradiction|].
  - exact (Hord items Hd i j a b Hlt Ha Hb).
  - intros Hsim. apply similar_sym in Hsim.
    exact (Hord items Hd j i b a Hgt Hb Ha Hsim).
Qed.

Lemma filter_and_rank_content_distinct_witness :
  fst filter_rank_run = Ok short_content
  /\ title_distinct three_models 1%nat 0%nat.
Proof.
  assert (H : filter_rank_run = (Ok short_content, snd filter_rank_run))
    by (vm_compute; reflexivity).
  split; [vm_compute; reflexivity|].
  apply (filter_and_rank_content_distinct short_config _ _ _ _ "models"
           [0; 1]%nat 1%nat 0%nat 1%nat 0%nat eq_refl H);
    [in_list | lia | reflexivity | reflexivity].
Defined.

(** ** The run *)



(** X23. The four categories of [collect_content] must all be in the
    configuration: when one is missing, disabled or not, [run] raises,
    whatever the scrapers return, and no email is rendered or sent. *)
Theorem run_missing_category (cfg : config)
  (scrape_all : source -> Z -> list loc)
  (generate : heap -> dict (list loc) -> result string)
  (smtp_send : string -> result unit) (w : world) (k : string) :
  k ∈ dict_keys empty_content ->
  dict_get (categories cfg) k = None ->
  exists e w',
    run cfg scrape_all generate smtp_send w = (Raise e, w')
    /\ (e = KeyError \/ e = OverflowError)
    /\ w_events w' = w_events w.
Proof.
  intros Hk Hget. unfold run, mbind, M_bind at 1 2.
  rewrite collect_content_eq.
  set (all_content := collect_from _ _ _ _ _ _).
  set (w1 := mkWorld _ _ _ _).
  assert (Hkeys : k ∈ dict_keys all_content)
    by (unfold all_content; now rewrite collect_from_keys).
  pose proof (filter_and_rank_loop_events cfg all_content [] w1) as Hev.
  unfold filter_and_rank_content.
  destruct (filter_and_rank_loop cfg all_content [] w1) as [[fc|e] w'] eqn:H.
  - now apply (filter_and_rank_loop_missing cfg all_content k Hkeys Hget) in H.
  - exists e, w'. split; [reflexivity|]. split; [|exact Hev].
    apply filter_and_rank_loop_raises in H as [[-> _]| ->]; auto.
Qed.

Lemma run_missing_category_witness :
  exists e w',
    run models_only_config all_from_blogs (fun _ _ => Ok "html")
        (fun _ => Ok tt) (world_of three_models)
    = (Raise e, w')
    /\ (e = KeyError \/ e = OverflowError)
    /\ w_events w' = [].
Proof.
  apply (run_missing_category models_only_config all_from_blogs
           (fun _ _ => Ok "html") (fun _ => Ok tt) (world_of three_models)
           "creative_applications");
    [in_list | reflexivity].
Defined.

(** ** The sections of the email *)

Section SortedBy.

Context {A : Type} (key : A -> Z).

Lemma insert_asc_perm (x : A) (l : list A) : insert_asc key x l ≡ₚ x :: l.
Proof.
  induction l as [|y l IH]; cbn [insert_asc]; [reflexivity|].
  destruct (key y <? key x); [|reflexivity].
  rewrite IH. apply Permutation_swap.
Qed.

Lemma sorted_by_perm (l : list A) : sorted_by key l ≡ₚ l.
Proof.
  induction l as [|x l IH]; cbn [sorted_by foldr]; [reflexivity|].
  fold (sorted_by key l). now rewrite insert_asc_perm, IH.
Qed.

Lemma insert_asc_sorted (x : A) (l : list A) :
  StronglySorted (fun a b => key a <= key b) l ->
  StronglySorted (fun a b => key a <= key b) (insert_asc key x l).
Proof.
  intros Hl. induction l as [|y l IH]; cbn [insert_asc].
  - repeat constructor.
  - apply StronglySorted_inv in Hl as [Hl Hall].
    destruct (Z.ltb_spec (key y) (key x)).
    + constructor; [auto|]. rewrite insert_asc_perm.
      constructor; [lia|assumption].
    + constructor; [now constructor|]. constructor; [assumption|].
      eapply Forall_impl; [exact Hall|]. intros z Hz. cbn in Hz. lia.
Qed.

Lemma sorted_by_sorted (l : list A) :
  StronglySorted (fun a b => key a <= key b) (sorted_by key l).
Proof.
  induction l as [|x l IH]; cbn [sorted_by foldr]; [constructor|].
  now apply insert_asc_sorted.
Qed.

(** The elements of one key keep their order. *)
Lemma insert_asc_filter (p : Z) (x : A) (l : list A) :
  List.filter (fun a => key a =? p) (insert_asc key x l)
  = List.filter (fun a => key a =? p) (x :: l).
Proof.
  induction l as [|y l IH]; [reflexivity|]. cbn [insert_asc].
  destruct (Z.ltb_spec (key y) (key x)); [|reflexivity].
  cbn [List.filter] in *. rewrite IH.
  destruct (Z.eqb_spec (key x) p), (Z.eqb_spec (key y) p);
    try reflexivity. lia.
Qed.

Lemma sorted_by_filter (p : Z) (l : list A) :
  List.filter (fun a => key a =? p) (sorted_by key l)
  = List.filter (fun a => key a =? p) l.
Proof.
  induction l as [|x l IH]; [reflexivity|].
  cbn [sorted_by foldr]. fold (sorted_by key l).
  rewrite insert_asc_filter. cbn [List.filter]. now rewrite IH.
Qed.

End SortedBy.

Lemma priority_keys_Ok (l : list (string * category_config)) :
  forall keyed,
    priority_keys l = Ok keyed ->
    map snd keyed = l
    /\ Forall (fun kx => priority (snd (snd kx)) = Some (fst kx)) keyed.
Proof.
  induction l as [|x l IH]; intros keyed H; cbn [priority_keys] in H.
  - injection H as <-. split; constructor.
  - destruct (priority (snd x)) as [p|] eqn:Hp; [|discriminate].
    unfold mbind, result_bind in H.
    destruct (priority_keys l) as [keyed'|]; [|discriminate].
    injection H as <-. destruct (IH _ eq_refl) as [Hmap Hall].
    split; [cbn; now rewrite Hmap|]. now constructor.
Qed.

Lemma priority_keys_missing (l : list (string * category_config))
  (x : string * category_config) :
  x ∈ l -> priority (snd x) = None -> priority_keys l = Raise KeyError.
Proof.
  intros Hx Hp. induction l as [|y l IH]; [now apply elem_of_nil in Hx|].
  cbn [priority_keys]. apply elem_of_cons in Hx as [<-|Hx].
  - now rewrite Hp.
  - destruct (priority (snd y)); [|reflexivity]. now rewrite (IH Hx).
Qed.

Lemma filter_map_snd {A B : Type} (P : B -> bool) (l : list (A * B)) :
  List.filter P (map snd l) = map snd (List.filter (fun x => P (snd x)) l).
Proof.
  induction l as [|x l IH]; [reflexivity|]. cbn [map List.filter].
  destruct (P (snd x)); cbn [map]; now rewrite IH.
Qed.

(** X24. [generate] raises [KeyError] when an enabled category of the
    configuration has no priority, whatever the content, before any section
    is rendered: the ranking takes 5 for a missing priority, the template
    does not. *)
Theorem generate_missing_priority (cfg : config)
  (_generate_section : string -> list loc -> M string)
  (_wrap_in_template : string -> M string)
  (content : dict (list loc)) (w : world)
  (name : string) (category_config : category_config) :
  (name, category_config) ∈ categories cfg ->
  enabled category_config = true ->
  priority category_config = None ->
  generate cfg _generate_section _wrap_in_template content w
  = (Raise KeyError, w).
Proof.
  intros Hin Hen Hp. unfold generate, sorted_categories.
  rewrite (priority_keys_missing _ (name, category_config)); [reflexivity| |exact Hp].
  apply list_elem_of_In, filter_In. split; [now apply list_elem_of_In|exact Hen].
Qed.

Lemma generate_missing_priority_witness :
  generate no_priority_config section_name bare_page template_content
    (world_of three_models)
  = (Raise KeyError, world_of three_models).
Proof.
  apply (generate_missing_priority no_priority_config section_name bare_page
           template_content (world_of three_models) "product_launches"
           {| enabled := true; priority := None; keywords := Some ["launch"] |});
    [in_list | reflexivity | reflexivity].
Defined.

(** X25. The order of the sections: the enabled categories of the
    configuration, all of them and no other, in ascending priority, the
    categories of one priority in the order of the configuration. *)
Theorem sorted_categories_spec (cfg : config)
  (sorted : list (string * category_config)) :
  sorted_categories cfg = Ok sorted ->
  sorted ≡ₚ List.filter (fun x => enabled (snd x)) (categories cfg)
  /\ StronglySorted by_priority sorted
  /\ forall p,
       List.filter (fun x => bool_decide (priority (snd x) = Some p)) sorted
       = List.filter (fun x => bool_decide (priority (snd x) = Some p))
           (List.filter (fun x => enabled (snd x)) (categories cfg)).
Proof.
  unfold sorted_categories. cbv zeta.
  set (enabled_categories := List.filter _ (categories cfg)).
  unfold mbind, result_bind.
  destruct (priority_keys enabled_categories) as [keyed|] eqn:Hk;
    [|discriminate].
  intros H. injection H as <-.
  apply priority_keys_Ok in Hk as [Hmap Hall].
  assert (Hall' : Forall (fun kx => priority (snd (snd kx)) = Some (fst kx))
                    (sorted_by fst keyed))
    by now rewrite sorted_by_perm.
  split; [|split].
  - now rewrite sorted_by_perm, Hmap.
  - pose proof (sorted_by_sorted fst keyed) as Hs.
    induction Hs as [|kx l Hs IH Hle]; cbn [map]; [constructor|].
    apply Forall_cons in Hall' as [Hkx Hall'].
    constructor; [auto|]. apply Forall_fmap.
    rewrite Forall_forall in Hle, Hall' |- *. intros ky Hky. cbn.
    exists (fst kx), (fst ky). auto.
  - intros p. rewrite <- Hmap, !filter_map_snd. f_equal.
    assert (Hext : forall l : list (Z * (string * category_config)),
               Forall (fun kx => priority (snd (snd kx)) = Some (fst kx)) l ->
               List.filter
                 (fun x => bool_decide (priority (snd (snd x)) = Some p)) l
               = List.filter (fun a => fst a =? p) l).
    { clear. intros l Hl. apply filter_ext_in. intros kx Hin.
      rewrite Forall_forall in Hl. apply list_elem_of_In, Hl in Hin.
      rewrite Hin. destruct (Z.eqb_spec (fst kx) p) as [->|Hne].
      - now apply bool_decide_eq_true_2.
      - apply bool_decide_eq_false_2. congruence. }
    rewrite (Hext _ Hall'), (Hext keyed Hall).
    apply sorted_by_filter.
Qed.

Lemma sorted_categories_spec_witness :
  match sorted_categories newsletter_config with
  | Ok sorted =>
      map fst sorted
      = ["models"; "creative_applications"; "research_news";
         "productivity_tools"; "product_launches"]
      /\ StronglySorted by_priority sorted
  | Raise _ => False
  end.
Proof.
  destruct (sorted_categories newsletter_config) as [sorted|e] eqn:H.
  - split; [|exact (proj1 (proj2 (sorted_categories_spec _ _ H)))].
    vm_compute in H. injection H as <-. reflexivity.
  - vm_compute in H. discriminate.
Defined.

Lemma bind_eq {A B : Type} (m : M A) (k : A -> M B) (w : world) :
  (m ≫= k) w
  = match m w with
    | (Ok a, w1) => k a w1
    | (Raise e, w1) => (Raise e, w1)
    end.
Proof. unfold mbind, M_bind. now destruct (m w) as [[a|e] w1]. Qed.

Lemma sections_loop_mapM
  (_generate_section : string -> list loc -> M string)
  (content : dict (list loc)) (categories : list (string * category_config)) :
  forall sections_html w,
    sections_loop _generate_section content categories sections_html w
    = (rendered ←
         mapM (fun c => _generate_section (fst c)
                          (get_or (dict_get content (fst c)) []))
              (List.filter (has_items content) categories);
       mret (sections_html ++ rendered)%list) w.
Proof.
  induction categories as [|[name cc] rest IH]; intros acc w.
  - cbn [sections_loop List.filter mapM].
    unfold mbind, M_bind, mret, M_ret. now rewrite app_nil_r.
  - cbn [sections_loop List.filter]. unfold has_items at 1. cbn [fst].
    destruct (get_or (dict_get content name) []) as [|item items] eqn:Hget;
      [apply IH|].
    cbn [mapM]. cbn [fst]. rewrite Hget. rewrite !bind_eq.
    destruct (_generate_section name (item :: items) w) as [[html|e] w1];
      [|reflexivity].
    rewrite IH. rewrite !bind_eq.
    destruct (mapM (M:=M) _ _ w1) as [[rendered|e] w2]; [|reflexivity].
    unfold mret, M_ret. now rewrite <- app_assoc.
Qed.

(** X26. With every enabled category given a priority, [generate] renders
    one section for each enabled category whose list in the content has an
    item, in the order of the sorted categories and each once, and none for a
    category whose list is empty or missing; the page is wrapped around the
    sections joined by line feeds. An exception of a rendering leaves
    [generate] at once. *)
Theorem generate_sections (cfg : config)
  (_generate_section : string -> list loc -> M string)
  (_wrap_in_template : string -> M string)
  (content : dict (list loc)) (sorted : list (string * category_config))
  (w : world) :
  sorted_categories cfg = Ok sorted ->
  generate cfg _generate_section _wrap_in_template content w
  = (sections_html ←
       mapM (fun c => _generate_section (fst c)
                        (get_or (dict_get content (fst c)) []))
            (List.filter (has_items content) sorted);
     _wrap_in_template (join newline sections_html)) w.
Proof.
  intros Hs. unfold generate. rewrite Hs. rewrite bind_eq.
  unfold lift. cbv beta iota. rewrite bind_eq, sections_loop_mapM, !bind_eq.
  destruct (mapM (M:=M) _ _ w) as [[rendered|e] w1]; reflexivity.
Qed.

Lemma generate_sections_witness :
  fst (generate newsletter_config section_name bare_page template_content
         (world_of three_models))
  = Ok (join newline ["models"; "research_news"]).
Proof.
  destruct (sorted_categories newsletter_config) as [sorted|e] eqn:H.
  - rewrite (generate_sections _ _ _ _ _ _ H).
    vm_compute in H. injection H as <-. vm_compute. reflexivity.
  - vm_compute in H. discriminate.
Defined.

(** ** The scrapers *)

Section UniqueLoop.

Variable key : Item.t -> option string.
Variable h : heap.

Lemma unique_loop_Ok (items : list loc) :
  forall seen out,
    unique_loop key h seen items = Ok out ->
    sublist out items
    /\ Forall (fun r => exists k, key (h r) = Some k /\ k ∉ seen) out
    /\ NoDup (map (fun r => key (h r)) out)
    /\ forall l1 r l2,
         items = (l1 ++ r :: l2)%list ->
         (forall k, key (h r) = Some k -> k ∉ seen) ->
         (forall r', r' ∈ l1 -> key (h r') <> key (h r)) ->
         r ∈ out.
Proof.
  induction items as [|item rest IH]; intros seen out H; cbn [unique_loop] in H.
  - injection H as <-. split; [constructor|]. split; [constructor|].
    split; [constructor|]. intros [|? ?] r l2 Heq; discriminate.
  - destruct (key (h item)) as [k|] eqn:Hk; [|discriminate].
    destruct (bool_decide (k ∈ seen)) eqn:Hseen.
    + apply bool_decide_eq_true in Hseen.
      destruct (IH _ _ H) as (Hsub & Hall & Hnd & Hfirst).
      split; [now apply sublist_cons|]. split; [assumption|].
      split; [assumption|]. intros [|r0 l1] r l2 Heq Hr Hl1.
      * injection Heq as <- _. now apply Hr in Hk.
      * injection Heq as <- Heq. apply (Hfirst l1 r l2 Heq Hr).
        intros r' Hr'. apply Hl1. now right.
    + apply bool_decide_eq_false in Hseen. unfold mbind, result_bind in H.
      destruct (unique_loop key h ({[k]} ∪ seen) rest) as [unique|] eqn:Hrest;
        [|discriminate].
      injection H as <-.
      destruct (IH _ _ Hrest) as (Hsub & Hall & Hnd & Hfirst).
      split; [now apply sublist_skip|]. split; [|split].
      * constructor; [eauto|]. eapply Forall_impl; [exact Hall|].
        intros r (k' & Hk' & Hnot). exists k'. split; [assumption|set_solver].
      * cbn [map]. apply NoDup_cons. split; [|assumption].
        intros Hin. apply list_elem_of_fmap in Hin as (r & Heq & Hr).
        rewrite Forall_forall in Hall.
        destruct (Hall r Hr) as (k' & Hk' & Hnot).
        assert (k' = k) by congruence. set_solver.
      * intros [|r0 l1] r l2 Heq Hr Hl1.
        -- injection Heq as <- _. left.
        -- injection Heq as <- Heq. right. apply (Hfirst l1 r l2 Heq).
           ++ intros k' Hk' Hin. apply elem_of_union in Hin as [Hin|Hin].
              ** apply elem_of_singleton in Hin. subst k'.
                 apply (Hl1 item); [left|congruence].
              ** now apply Hr in Hk'.
           ++ intros r' Hr'. apply Hl1. now right.
Qed.

Lemma unique_loop_total (items : list loc) :
  (forall r, r ∈ items -> key (h r) <> None) ->
  forall seen, exists out, unique_loop key h seen items = Ok out.
Proof.
  induction items as [|item rest IH]; intros Hkeys seen; cbn [unique_loop];
    [eauto|].
  destruct (key (h item)) as [k|] eqn:Hk;
    [|exfalso; apply (Hkeys item); [left|assumption]].
  assert (Hrest : forall r, r ∈ rest -> key (h r) <> None)
    by (intros r Hr; apply Hkeys; now right).
  destruct (bool_decide (k ∈ seen)); [now apply IH|].
  destruct (IH Hrest ({[k]} ∪ seen)) as [out ->]. cbn. eauto.
Qed.

(** What [scrape_all] returns for items that all have the key. *)
Lemma unique_spec (items : list loc) :
  (forall r, r ∈ items -> key (h r) <> None) ->
  exists out,
    unique_loop key h ∅ items = Ok out
    /\ sublist out items
    /\ NoDup (map (fun r => key (h r)) out)
    /\ forall l1 r l2,
         items = (l1 ++ r :: l2)%list ->
         (forall r', r' ∈ l1 -> key (h r') <> key (h r)) ->
         r ∈ out.
Proof.
  intros Hkeys. destruct (unique_loop_total items Hkeys ∅) as [out Hout].
  exists out. split; [assumption|].
  apply unique_loop_Ok in Hout as (Hsub & _ & Hnd & Hfirst).
  split; [assumption|]. split; [assumption|].
  intros l1 r l2 Heq Hl1. apply (Hfirst l1 r l2 Heq); [|assumption].
  intros k _ Hin. now apply not_elem_of_empty in Hin.
Qed.

End UniqueLoop.

(** X27. The GitHub scraper returns its repositories without a second one of
    the same URL: the result keeps the order of the requests, no two of its
    repositories have the same URL, and a repository that no earlier one
    shares its URL with is kept. *)
Theorem github_unique_repos (h : heap) (all_repos : list loc) :
  (forall r, r ∈ all_repos -> Item.url (h r) <> None) ->
  sublist (GitHubScraper.unique_repos h all_repos) all_repos
  /\ NoDup (map (fun r => Item.url (h r))
              (GitHubScraper.unique_repos h all_repos))
  /\ forall l1 r l2,
       all_repos = (l1 ++ r :: l2)%list ->
       (forall r', r' ∈ l1 -> Item.url (h r') <> Item.url (h r)) ->
       r ∈ GitHubScraper.unique_repos h all_repos.
Proof.
  intros Hkeys. unfold GitHubScraper.unique_repos.
  destruct (unique_spec Item.url h all_repos Hkeys) as (out & -> & H).
  exact H.
Qed.

Lemma github_unique_repos_witness :
  GitHubScraper.unique_repos repositories [0; 1; 2]%nat = [0; 1]%nat
  /\ sublist (GitHubScraper.unique_repos repositories [0; 1; 2]%nat)
       [0; 1; 2]%nat
  /\ NoDup (map (fun r => Item.url (repositories r))
              (GitHubScraper.unique_repos repositories [0; 1; 2]%nat)).
Proof.
  split; [vm_compute; reflexivity|].
  assert (H : forall r, r ∈ [0; 1; 2]%nat -> Item.url (repositories r) <> None)
    by (intros [|[|r]] _; discriminate).
  destruct (github_unique_repos repositories [0; 1; 2]%nat H) as (Hs & Hn & _).
  exact (conj Hs Hn).
Defined.

(** X28. The Product Hunt scraper returns its products without a second one
    of the same title: the result keeps the order of the requests, no two of
    its products have the same title, and a product that no earlier one
    shares its title with is kept. *)
Theorem producthunt_unique_products (h : heap) (all_products : list loc) :
  (forall r, r ∈ all_products -> Item.title (h r) <> None) ->
  sublist (ProductHuntScraper.unique_products h all_products) all_products
  /\ NoDup (map (fun r => Item.title (h r))
              (ProductHuntScraper.unique_products h all_products))
  /\ forall l1 r l2,
       all_products = (l1 ++ r :: l2)%list ->
       (forall r', r' ∈ l1 -> Item.title (h r') <> Item.title (h r)) ->
       r ∈ ProductHuntScraper.unique_products h all_products.
Proof.
  intros Hkeys. unfold ProductHuntScraper.unique_products.
  destruct (unique_spec Item.title h all_products Hkeys) as (out & -> & H).
  exact H.
Qed.

Lemma producthunt_unique_products_witness :
  ProductHuntScraper.unique_products repositories [0; 1; 2]%nat = [0; 1]%nat
  /\ sublist (ProductHuntScraper.unique_products repositories [0; 1; 2]%nat)
       [0; 1; 2]%nat
  /\ NoDup (map (fun r => Item.title (repositories r))
              (ProductHuntScraper.unique_products repositories [0; 1; 2]%nat)).
Proof.
  split; [vm_compute; reflexivity|].
  assert (H : forall r, r ∈ [0; 1; 2]%nat -> Item.title (repositories r) <> None)
    by (intros [|[|r]] _; discriminate).
  destruct (producthunt_unique_products repositories [0; 1; 2]%nat H)
    as (Hs & Hn & _).
  exact (conj Hs Hn).
Defined.
